(** * MemoryMesh: a shallow embedding of the tool dispatcher, the dynamic-tool
    registry, the graph explorer and the vault importer.

    A string is held as the sequence of its UTF-8 bytes ([String.string]);
    the built-ins that follow the Unicode tables, [toLowerCase] and [trim],
    are parameters of the functions that call them.  JavaScript values are
    the JSON-shaped values the tools exchange, with numbers restricted to
    integers.  Code that awaits or throws is written in a small monad that
    threads the state of the world and a completion (normal or abrupt). *)

From Stdlib Require Import String Ascii List ZArith Lia Bool Permutation.
From Stdlib Require Import DecimalString.
Import ListNotations.
Open Scope string_scope.

Set Warnings "-register-all".

(* ===================================================================== *)
(** ** JavaScript values                                                  *)
(* ===================================================================== *)

Module JS.

(** The values a tool call can carry: JSON values, [undefined], and [Error]
    instances (which is what [instanceof Error] tells apart). *)
Inductive JsVal : Type :=
| JUndefined
| JNull
| JBool (b : bool)
| JNum (z : Z)
| JStr (s : string)
| JArr (elems : list JsVal)
| JObj (fields : list (string * JsVal))
| JError (name message : string).

(** A completion: the value of an expression, or the value it threw. *)
Inductive completion (A : Type) : Type :=
| Return (a : A)
| Throw (e : JsVal).
Arguments Return {A} a.
Arguments Throw {A} e.

(** [!v] is [negb (truthy v)]. *)
Definition truthy (v : JsVal) : bool :=
  match v with
  | JUndefined | JNull => false
  | JBool b => b
  | JNum z => negb (z =? 0)%Z
  | JStr s => negb (s =? "")
  | JArr _ | JObj _ | JError _ _ => true
  end.

Definition isNullish (v : JsVal) : bool :=
  match v with
  | JUndefined | JNull => true
  | _ => false
  end.

Definition Z_to_string (z : Z) : string :=
  NilZero.string_of_int (Z.to_int z).

(** [String(v)], as a template literal applies it. *)
Fixpoint toString (v : JsVal) : string :=
  match v with
  | JUndefined => "undefined"
  | JNull => "null"
  | JBool true => "true"
  | JBool false => "false"
  | JNum z => Z_to_string z
  | JStr s => s
  | JArr l =>
      String.concat ","
        ((fix elems (l : list JsVal) : list string :=
            match l with
            | [] => []
            | x :: r => (if isNullish x then "" else toString x) :: elems r
            end) l)
  | JObj _ => "[object Object]"
  | JError n m => if m =? "" then n else n ++ ": " ++ m
  end.

Definition TypeError (message : string) : JsVal := JError "TypeError" message.

Fixpoint lookup (k : string) (fields : list (string * JsVal)) : JsVal :=
  match fields with
  | [] => JUndefined
  | (k', v) :: r => if k' =? k then v else lookup k r
  end.

(** [v.k] for a key [k] that is not an array index: reading a property of
    [undefined] or [null] throws, an object yields its own field, arrays and
    strings have a [length] (counted in bytes for a string), an [Error] has
    [name] and [message]. *)
Definition getProp (v : JsVal) (k : string) : completion JsVal :=
  match v with
  | JUndefined =>
      Throw (TypeError ("Cannot read properties of undefined (reading '" ++ k ++ "')"))
  | JNull =>
      Throw (TypeError ("Cannot read properties of null (reading '" ++ k ++ "')"))
  | JObj fields => Return (lookup k fields)
  | JArr l => Return (if k =? "length" then JNum (Z.of_nat (List.length l)) else JUndefined)
  | JStr s => Return (if k =? "length" then JNum (Z.of_nat (String.length s)) else JUndefined)
  | JError n m =>
      Return (if k =? "message" then JStr m else if k =? "name" then JStr n else JUndefined)
  | JBool _ | JNum _ => Return JUndefined
  end.

(** The error of calling a method [m] that [v] does not have. *)
Definition notAMethod (v : JsVal) (m : string) : JsVal :=
  match getProp v m with
  | Throw e => e
  | Return _ => TypeError (m ++ " is not a function")
  end.

(** [v.join(sep)]: only arrays have a [join] method. *)
Definition join (v : JsVal) (sep : string) : completion string :=
  match v with
  | JArr l =>
      Return (String.concat sep
                (map (fun x => if isNullish x then "" else toString x) l))
  | _ => Throw (notAMethod v "join")
  end.

End JS.

Import JS.

(* ===================================================================== *)
(** ** Effects: the world a tool call runs in                             *)
(* ===================================================================== *)

(** The built-in operations of the graph store. *)
Inductive StoreMethod : Type :=
| addNodes | updateNodes | addEdges | updateEdges | addMetadata
| deleteNodes | deleteMetadata | deleteEdges
| readGraph | searchNodes | openNodes.

(** What the dispatcher was seen to call. *)
Inductive Call : Type :=
| StoreCall (m : StoreMethod) (args : list JsVal)
| DynamicCall (toolName : string) (args : JsVal).

Section Effects.

(** [G] is the state owned by the graph manager (graph and backing file). *)
Variable G : Type.

Record World : Type := mkWorld { graph : G; calls : list Call }.

(** A computation that may change the world and may throw. *)
Definition M (A : Type) : Type := World -> World * completion A.

Definition ret {A} (a : A) : M A := fun w => (w, Return a).

Definition throw {A} (e : JsVal) : M A := fun w => (w, Throw e).

Definition bind {A B} (c : M A) (k : A -> M B) : M B :=
  fun w =>
    match c w with
    | (w', Return a) => k a w'
    | (w', Throw e) => (w', Throw e)
    end.

(** [try { body } catch (error) { handler }] *)
Definition try_catch {A} (body : M A) (handler : JsVal -> M A) : M A :=
  fun w =>
    match body w with
    | (w', Return a) => (w', Return a)
    | (w', Throw e) => handler e w'
    end.

Definition lift {A} (c : completion A) : M A := fun w => (w, c).

(** A graph manager: for each method, what it does to its state and what it
    returns or throws.  No assumption is made on it. *)
Definition KnowledgeGraphManager : Type :=
  StoreMethod -> list JsVal -> G -> G * completion JsVal.

(** [await knowledgeGraphManager.m(args)] *)
Definition invoke (kgm : KnowledgeGraphManager) (m : StoreMethod)
           (args : list JsVal) : M JsVal :=
  fun w =>
    let (g', r) := kgm m args (graph w) in
    (mkWorld g' (calls w ++ [StoreCall m args]), r).

End Effects.

Arguments mkWorld {G}.
Arguments graph {G}.
Arguments calls {G}.
Arguments ret {G A}.
Arguments throw {G A}.
Arguments bind {G A B}.
Arguments try_catch {G A}.
Arguments lift {G A}.
Arguments invoke {G}.

Declare Scope js_scope.
Delimit Scope js_scope with js.
Notation "x <- c ;; k" := (bind c (fun x => k))
  (at level 61, c at next level, right associativity) : js_scope.
Notation "c ;;; k" := (bind c (fun _ => k))
  (at level 61, right associativity) : js_scope.

(* ===================================================================== *)
(** ** Tool responses (utils/responseFormatter)                           *)
(* ===================================================================== *)

(** The options object handed to [formatToolResponse]. *)
Record ResponseOptions : Type := mkResponse {
  data : option JsVal;
  message : string;
  actionTaken : string
}.

(** The options object handed to [formatToolError]; absent fields are [None]
    or the empty list. *)
Record ErrorOptions : Type := mkError {
  operation : string;
  error : JsVal;
  context : option JsVal;
  suggestions : list string;
  recoverySteps : list string
}.

Definition strings (l : list string) : JsVal := JArr (map JStr l).

(** Modelled from the spec: the response formatter (utils/responseFormatter)
    is not among the sources.  Section 6 gives the fields of a response,
    [{data?, message, actionTaken}], and of the error envelope,
    [{isError: true, operation, error, context?, suggestions?,
    recoverySteps?}]; the dispatcher reads the flag of a formatted result as
    [toolResult.toolResult.isError], so the fields sit under [toolResult]. *)
Definition spec_formatToolResponse (o : ResponseOptions) : JsVal :=
  JObj [("toolResult",
         JObj ([("isError", JBool false)]
               ++ (match data o with Some d => [("data", d)] | None => [] end)
               ++ [("message", JStr (message o));
                   ("actionTaken", JStr (actionTaken o))]))].

(** Modelled from the spec: the error envelope of section 6 (see above). *)
Definition spec_formatToolError (o : ErrorOptions) : JsVal :=
  JObj [("toolResult",
         JObj ([("isError", JBool true);
                ("operation", JStr (operation o));
                ("error", error o)]
               ++ (match context o with Some c => [("context", c)] | None => [] end)
               ++ (match suggestions o with
                   | [] => []
                   | l => [("suggestions", strings l)]
                   end)
               ++ (match recoverySteps o with
                   | [] => []
                   | l => [("recoverySteps", strings l)]
                   end)))].

(* ===================================================================== *)
(** ** tools/registry/dynamicTools.ts and tools/callToolHandler.js        *)
(* ===================================================================== *)

Record Tool : Type := mkTool { tool_name : string; tool_description : string }.

Section Dispatch.

Variable G : Type.

(** The two formatters are imported; the dispatcher only passes their
    results on. *)
Variable formatToolResponse : ResponseOptions -> JsVal.
Variable formatToolError : ErrorOptions -> JsVal.

(** [IDynamicSchemaToolRegistry]: the compiled tools and their handler. *)
Record IDynamicSchemaToolRegistry : Type := mkRegistry {
  registry_getTools : list Tool;
  registry_handleToolCall :
    string -> JsVal -> KnowledgeGraphManager G -> G -> G * completion JsVal
}.

(** The private fields of [DynamicToolManager]. *)
Record DynamicToolManager : Type := mkManager {
  registry : option IDynamicSchemaToolRegistry;
  initialized : bool
}.

(** The instance as the private constructor leaves it. *)
Definition getInstance : DynamicToolManager :=
  {| registry := None; initialized := false |}.

(** [initializeDynamicTools] reads and compiles the schema directory: it
    acts on an environment [Env] and yields a registry or throws. *)
Variable Env : Type.
Variable initializeDynamicTools : Env -> Env * completion IDynamicSchemaToolRegistry.

Definition initialize (this : DynamicToolManager) (env : Env)
  : DynamicToolManager * Env * completion unit :=
  if initialized this then (this, env, Return tt)
  else
    match initializeDynamicTools env with
    | (env', Return r) =>
        ({| registry := Some r; initialized := true |}, env', Return tt)
    | (env', Throw _) =>
        (this, env', Throw (JError "Error" "Dynamic tools initialization failed"))
    end.

Definition getTools (this : DynamicToolManager) : completion (list Tool) :=
  match initialized this, registry this with
  | true, Some r => Return (registry_getTools r)
  | _, _ => Throw (JError "Error" "Dynamic tools not initialized")
  end.

Definition handleToolCall (this : DynamicToolManager) (toolName : string)
           (args : JsVal) (knowledgeGraphManager : KnowledgeGraphManager G)
  : G -> G * completion JsVal :=
  fun g =>
    match initialized this, registry this with
    | true, Some r =>
        match registry_handleToolCall r toolName args knowledgeGraphManager g with
        | (g', Return v) => (g', Return v)
        | (g', Throw error) =>
            (g', Return (formatToolError
              {| operation := toolName;
                 error := match error with
                          | JError _ m => JStr m
                          | _ => JStr "Unknown error occurred"
                          end;
                 context := Some (JObj [("args", args)]);
                 suggestions :=
                   ["Verify the tool name is correct";
                    "Check the provided arguments match the tool schema";
                    "Ensure all required parameters are provided"];
                 recoverySteps := [] |}))
        end
    | _, _ =>
        (g, Return (formatToolError
          {| operation := toolName;
             error := JStr "Dynamic tools not initialized";
             context := None;
             suggestions :=
               ["Ensure dynamic tools are initialized before making tool calls"];
             recoverySteps := [] |}))
    end.

Definition isDynamicTool (this : DynamicToolManager) (toolName : string)
  : completion bool :=
  match initialized this, registry this with
  | true, Some _ =>
      match getTools this with
      | Return tools => Return (existsb (fun tool => tool_name tool =? toolName) tools)
      | Throw e => Throw e
      end
  | _, _ => Return false
  end.

(** *** callToolHandler.js *)

(** [request.params] *)
Record Request : Type := mkRequest { name : string; arguments : JsVal }.

(** The [dynamicTools] object imported from [./tools.js]: its
    [handleToolCall] receives the manager and may use it. *)
Variable dynamicTools :
  string -> JsVal -> KnowledgeGraphManager G -> G -> G * completion JsVal.

(** [await dynamicTools.handleToolCall(name, args, knowledgeGraphManager)] *)
Definition invokeDynamic (toolName : string) (args : JsVal)
           (kgm : KnowledgeGraphManager G) : M G JsVal :=
  fun w =>
    let (g', r) := dynamicTools toolName args kgm (graph w) in
    (mkWorld g' (calls w ++ [DynamicCall toolName args]), r).

(** [name.match(/^(add|update|delete)_/)] *)
Definition matchesDynamicPattern (name : string) : bool :=
  prefix "add_" name || prefix "update_" name || prefix "delete_" name.

Local Open Scope js_scope.

Definition handleCallToolRequest (request : Request)
           (knowledgeGraphManager : KnowledgeGraphManager G) : M G JsVal :=
  let name := name request in
  let args := arguments request in
  if negb (truthy args) then
    ret (formatToolError
           {| operation := name;
              error := JStr "No arguments provided";
              context := None;
              suggestions := ["Provide arguments for the tool call"];
              recoverySteps := [] |})
  else
    try_catch
      (if name =? "add_nodes" then
         nodes <- lift (getProp args "nodes") ;;
         r <- invoke knowledgeGraphManager addNodes [nodes] ;;
         len <- lift (getProp nodes "length") ;;
         ret (formatToolResponse
                {| data := Some (JObj [("nodes", r)]);
                   message := "Successfully added " ++ toString len ++ " nodes";
                   actionTaken := "Added nodes to the knowledge graph" |})
       else if name =? "update_nodes" then
         nodes <- lift (getProp args "nodes") ;;
         r <- invoke knowledgeGraphManager updateNodes [nodes] ;;
         len <- lift (getProp nodes "length") ;;
         ret (formatToolResponse
                {| data := Some (JObj [("nodes", r)]);
                   message := "Successfully updated " ++ toString len ++ " nodes";
                   actionTaken := "Updated nodes in the knowledge graph" |})
       else if name =? "add_edges" then
         edges <- lift (getProp args "edges") ;;
         r <- invoke knowledgeGraphManager addEdges [edges] ;;
         len <- lift (getProp edges "length") ;;
         ret (formatToolResponse
                {| data := Some (JObj [("edges", r)]);
                   message := "Successfully added " ++ toString len ++ " edges";
                   actionTaken := "Added edges to the knowledge graph" |})
       else if name =? "update_edges" then
         edges <- lift (getProp args "edges") ;;
         r <- invoke knowledgeGraphManager updateEdges [edges] ;;
         len <- lift (getProp edges "length") ;;
         ret (formatToolResponse
                {| data := Some (JObj [("edges", r)]);
                   message := "Successfully updated " ++ toString len ++ " edges";
                   actionTaken := "Updated edges in the knowledge graph" |})
       else if name =? "add_metadata" then
         metadata <- lift (getProp args "metadata") ;;
         r <- invoke knowledgeGraphManager addMetadata [metadata] ;;
         ret (formatToolResponse
                {| data := Some (JObj [("metadata", r)]);
                   message := "Successfully added metadata";
                   actionTaken := "Added metadata to nodes in the knowledge graph" |})
       else if name =? "delete_nodes" then
         nodeNames <- lift (getProp args "nodeNames") ;;
         invoke knowledgeGraphManager deleteNodes [nodeNames] ;;;
         joined <- lift (join nodeNames ", ") ;;
         ret (formatToolResponse
                {| data := None;
                   message := "Successfully deleted nodes: " ++ joined;
                   actionTaken := "Deleted nodes from the knowledge graph" |})
       else if name =? "delete_metadata" then
         deletions <- lift (getProp args "deletions") ;;
         invoke knowledgeGraphManager deleteMetadata [deletions] ;;;
         ret (formatToolResponse
                {| data := None;
                   message := "Successfully deleted metadata";
                   actionTaken := "Deleted metadata from nodes in the knowledge graph" |})
       else if name =? "delete_edges" then
         edges <- lift (getProp args "edges") ;;
         invoke knowledgeGraphManager deleteEdges [edges] ;;;
         ret (formatToolResponse
                {| data := None;
                   message := "Successfully deleted edges";
                   actionTaken := "Deleted edges from the knowledge graph" |})
       else if name =? "read_graph" then
         r <- invoke knowledgeGraphManager readGraph [] ;;
         ret (formatToolResponse
                {| data := Some r;
                   message := "Successfully read the knowledge graph";
                   actionTaken := "Read the knowledge graph" |})
       else if name =? "search_nodes" then
         query <- lift (getProp args "query") ;;
         r <- invoke knowledgeGraphManager searchNodes [query] ;;
         ret (formatToolResponse
                {| data := Some r;
                   message := "Successfully searched nodes with query: " ++ toString query;
                   actionTaken := "Searched nodes in the knowledge graph" |})
       else if name =? "open_nodes" then
         names <- lift (getProp args "names") ;;
         r <- invoke knowledgeGraphManager openNodes [names] ;;
         joined <- lift (join names ", ") ;;
         ret (formatToolResponse
                {| data := Some r;
                   message := "Successfully opened nodes: " ++ joined;
                   actionTaken := "Opened nodes in the knowledge graph" |})
       else if matchesDynamicPattern name then
         toolResult <- invokeDynamic name args knowledgeGraphManager ;;
         inner <- lift (getProp toolResult "toolResult") ;;
         isError <- (if truthy inner then lift (getProp inner "isError") else ret inner) ;;
         if truthy isError then ret toolResult
         else
           ret (formatToolResponse
                  {| data := Some toolResult;
                     message := "Successfully executed tool: " ++ name;
                     actionTaken := "Executed tool: " ++ name |})
       else
         ret (formatToolError
                {| operation := name;
                   error := JStr ("Unknown tool: " ++ name);
                   context := None;
                   suggestions := ["Check the list of available tools"];
                   recoverySteps := [] |}))
      (fun error =>
         message <- lift (getProp error "message") ;;
         ret (formatToolError
                {| operation := name;
                   error := message;
                   context := Some (JObj [("input", args)]);
                   suggestions := ["Review the error message and the provided arguments"];
                   recoverySteps := ["If the error persists, notify the human"] |})).

End Dispatch.

Arguments registry_getTools {G}.
Arguments registry_handleToolCall {G}.
Arguments registry {G}.
Arguments initialized {G}.
Arguments getInstance {G}.
Arguments initialize {G Env}.
Arguments getTools {G}.
Arguments handleToolCall {G}.
Arguments isDynamicTool {G}.
Arguments handleCallToolRequest {G}.
Arguments invokeDynamic {G}.

(** *** The routing rule in the words of the specification *)

(** The eleven built-in names and the graph-store method each stands for. *)
Definition builtinTools : list (string * StoreMethod) :=
  [ ("add_nodes", addNodes); ("update_nodes", updateNodes);
    ("add_edges", addEdges); ("update_edges", updateEdges);
    ("add_metadata", addMetadata); ("delete_nodes", deleteNodes);
    ("delete_metadata", deleteMetadata); ("delete_edges", deleteEdges);
    ("read_graph", readGraph); ("search_nodes", searchNodes);
    ("open_nodes", openNodes) ].

Definition builtin (name : string) : option StoreMethod :=
  option_map snd (find (fun entry => name =? fst entry) builtinTools).

(** [s] begins with [p]. *)
Definition hasPrefix (p s : string) : Prop := exists rest, s = p ++ rest.

(** A name "matching the prefix pattern add_, update_, or delete_". *)
Definition dynamicName (s : string) : Prop :=
  hasPrefix "add_" s \/ hasPrefix "update_" s \/ hasPrefix "delete_" s.

(** *** States of the registry before any successful initialization *)

Section BeforeInitialization.

Variables G Env : Type.
Variable initializeDynamicTools :
  Env -> Env * completion (IDynamicSchemaToolRegistry G).

(** The manager as constructed, and after any number of [initialize] calls
    that all failed. *)
Inductive neverInitialized : DynamicToolManager G -> Prop :=
| never_fresh : neverInitialized getInstance
| never_failed this env this' env' e :
    neverInitialized this ->
    initialize initializeDynamicTools this env = (this', env', Throw e) ->
    neverInitialized this'.

End BeforeInitialization.

Arguments neverInitialized {G Env}.

(** *** Sample collaborators used to run the dispatcher on examples *)

(** A manager whose every method rejects with [null]. *)
Definition rejectingManager : KnowledgeGraphManager unit :=
  fun _ _ g => (g, Throw JNull).

(** A manager whose every method resolves to an empty array. *)
Definition idleManager : KnowledgeGraphManager unit :=
  fun _ _ g => (g, Return (JArr [])).

(** Dynamic tools that resolve to an empty object. *)
Definition idleDynamicTools
  : string -> JsVal -> KnowledgeGraphManager unit -> unit -> unit * completion JsVal :=
  fun _ _ _ g => (g, Return (JObj [])).

(** A schema directory that cannot be read. *)
Definition brokenSchemas : unit -> unit * completion (IDynamicSchemaToolRegistry unit) :=
  fun env => (env, Throw (JError "Error" "ENOENT")).

(** A schema directory that compiles to a registry with one tool. *)
Definition sampleRegistry : IDynamicSchemaToolRegistry unit :=
  {| registry_getTools := [mkTool "add_npc" "Add a new NPC"];
     registry_handleToolCall := idleDynamicTools |}.

Definition sampleSchemas : unit -> unit * completion (IDynamicSchemaToolRegistry unit) :=
  fun env => (env, Return sampleRegistry).
(* ===================================================================== *)
(** ** String methods                                                     *)
(* ===================================================================== *)

(** The [String.prototype] methods the scripts use.  A string is held as the
    sequence of its UTF-8 bytes: searching, splitting at an ASCII separator,
    and the prefix and suffix tests give on it what they give on the code
    units.  [toLowerCase] and [trim] follow the Unicode tables of the runtime
    and are not defined here: the functions that call them take them as
    parameters [toLowerCase] and [trim], and [lowerCaseLaw], [trimLaw] say
    what is used of them.  [asciiToLowerCase] and [asciiTrim] are the two
    built-ins on ASCII text, kept to run examples. *)
Module Str.

Definition isEmpty (s : string) : bool :=
  match s with
  | EmptyString => true
  | String _ _ => false
  end.

Definition lowerChar (c : ascii) : ascii :=
  let n := nat_of_ascii c in
  if (65 <=? n)%nat && (n <=? 90)%nat then ascii_of_nat (n + 32) else c.

(** [s.toLowerCase()] for a string of ASCII characters. *)
Fixpoint asciiToLowerCase (s : string) : string :=
  match s with
  | EmptyString => EmptyString
  | String c r => String (lowerChar c) (asciiToLowerCase r)
  end.

(** The ASCII white space: tab, line feed, vertical tab, form feed, carriage
    return, space. *)
Definition isSpace (c : ascii) : bool :=
  let n := nat_of_ascii c in
  ((9 <=? n)%nat && (n <=? 13)%nat) || (n =? 32)%nat.

Fixpoint asciiTrimStart (s : string) : string :=
  match s with
  | EmptyString => EmptyString
  | String c r => if isSpace c then asciiTrimStart r else s
  end.

(** Drops the white space that ends [s]. *)
Fixpoint asciiTrimEnd (s : string) : string :=
  match s with
  | EmptyString => EmptyString
  | String c r =>
      match asciiTrimEnd r with
      | EmptyString => if isSpace c then EmptyString else String c EmptyString
      | r' => String c r'
      end
  end.

(** [s.trim()] for a string of ASCII characters. *)
Definition asciiTrim (s : string) : string := asciiTrimEnd (asciiTrimStart s).

(** An ASCII character that leaves a mark: [!] to [~]. *)
Definition isGraphic (c : ascii) : bool :=
  let n := nat_of_ascii c in (33 <=? n)%nat && (n <=? 126)%nat.

(** What is used of [String.prototype.toLowerCase]: it gives the empty
    string for the empty string and for no other. *)
Definition lowerCaseLaw (toLowerCase : string -> string) : Prop :=
  forall s, toLowerCase s = "" <-> s = "".

(** What is used of [String.prototype.trim]: nothing is left of the empty
    string, and something is left of a string that holds a graphic ASCII
    character (white space is made of other bytes). *)
Definition trimLaw (trim : string -> string) : Prop :=
  trim "" = ""
  /\ forall s c,
      In c (list_ascii_of_string s) -> isGraphic c = true -> trim s <> "".

(** [hay.includes(needle)] *)
Fixpoint includes (needle hay : string) : bool :=
  prefix needle hay ||
  match hay with
  | EmptyString => false
  | String _ r => includes needle r
  end.

(** [s.startsWith(p)] *)
Definition startsWith (p s : string) : bool := prefix p s.

(** [s.endsWith(suffix)] *)
Definition endsWith (suffix s : string) : bool :=
  (String.length suffix <=? String.length s)%nat
  && (substring (String.length s - String.length suffix) (String.length suffix) s
      =? suffix).

(** [s.substring(n)] *)
Definition substringFrom (n : nat) (s : string) : string :=
  substring n (String.length s - n) s.

(** [s.split(sep)] for a separator of one character. *)
Fixpoint split (sep : ascii) (s : string) : list string :=
  match s with
  | EmptyString => [EmptyString]
  | String c r =>
      if Ascii.eqb c sep then EmptyString :: split sep r
      else
        match split sep r with
        | [] => [String c EmptyString]
        | p :: ps => String c p :: ps
        end
  end.

(** [s.replace(/[\[\]]/g, '')]: drops every square bracket. *)
Fixpoint removeBrackets (s : string) : string :=
  match s with
  | EmptyString => EmptyString
  | String c r =>
      if Ascii.eqb c "["%char || Ascii.eqb c "]"%char then removeBrackets r
      else String c (removeBrackets r)
  end.

(** The character [c] does not occur in [s]. *)
Definition charFree (c : ascii) (s : string) : Prop :=
  ~ In c (list_ascii_of_string s).

End Str.

(* ===================================================================== *)
(** ** The records of the graph                                           *)
(* ===================================================================== *)

(** Nodes and edges as section 3 of the specification types them: every
    field is a string, the metadata a sequence of strings. *)
Module Graph.

Record Node : Type := mkNode {
  name : string;
  nodeType : string;
  metadata : list string
}.

Record Edge : Type := mkEdge {
  from : string;
  to : string;
  edgeType : string
}.

(** A record of the memory file: a node or an edge spread behind its
    [type] tag, [{type: 'node', ...node}] or [{type: 'edge', ...rel}]. *)
Inductive GraphItem : Type :=
| NodeItem (node : Node)
| EdgeItem (edge : Edge).

(** [graph.filter(item => item.type === 'node')] *)
Fixpoint nodesOf (graph : list GraphItem) : list Node :=
  match graph with
  | [] => []
  | NodeItem n :: r => n :: nodesOf r
  | EdgeItem _ :: r => nodesOf r
  end.

(** [graph.filter(item => item.type === 'edge')] *)
Fixpoint edgesOf (graph : list GraphItem) : list Edge :=
  match graph with
  | [] => []
  | NodeItem _ :: r => edgesOf r
  | EdgeItem e :: r => e :: edgesOf r
  end.

End Graph.

(* ===================================================================== *)
(** ** queryGraph.js                                                      *)
(* ===================================================================== *)

Module QueryGraph.
Import Graph.

Section Explorer.

(** [String.prototype.toLowerCase] and [String.prototype.trim]. *)
Variables toLowerCase trim : string -> string.

(** The general search of [findNodes]: the name, when it is not empty, then
    the metadata lines. *)
Definition generalSearch (nodes : list Node) (query : string) : list Node :=
  let queryLower := toLowerCase query in
  filter (fun node =>
            if negb (Str.isEmpty (name node))
               && Str.includes queryLower (toLowerCase (name node))
            then true
            else existsb (fun item => Str.includes queryLower (toLowerCase item))
                         (metadata node))
         nodes.

Definition findNodes (graph : list GraphItem) (query : string) : list Node :=
  let nodes := nodesOf graph in
  if Str.isEmpty query then nodes
  else
    if Str.includes ":" query then
      match map (fun part => toLowerCase (trim part)) (Str.split ":" query) with
      | field :: value :: _ =>
          if (field =? "type") || (field =? "nodetype") then
            filter (fun node =>
                      negb (Str.isEmpty (nodeType node))
                      && (toLowerCase (nodeType node) =? value))
                   nodes
          else if field =? "tag" then
            let edges :=
              filter (fun item =>
                        (edgeType item =? "tagged_with")
                        && (toLowerCase (to item) =? value))
                     (edgesOf graph) in
            let nodeNames := map from edges in
            filter (fun node => existsb (String.eqb (name node)) nodeNames) nodes
          else generalSearch nodes query
      | _ => generalSearch nodes query
      end
    else generalSearch nodes query.

(** [findEdges] *)
Definition findEdges (graph : list GraphItem) (nodeName : string)
  : list Edge * list Edge :=
  let edges := edgesOf graph in
  (filter (fun edge => from edge =? nodeName) edges,
   filter (fun edge => to edge =? nodeName) edges).

(** What the explorer answers to a line of input: the data it prints. *)
Inductive Reply : Type :=
| Closed
| HelpText
| Statistics (totalNodes totalEdges : nat)
| NodeShown (node : Node) (outgoing incoming : list Edge)
| NodeNotFound (nodeName : string)
| Found (nodes : list Node).

(** The body of [readline.on('line', ...)] in [interactiveMode]: the graph
    was loaded once and is only read. *)
Definition onLine (graph : list GraphItem) (line : string)
  : list GraphItem * Reply :=
  let input := trim line in
  if (input =? "exit") || (input =? "quit") then (graph, Closed)
  else if input =? "help" then (graph, HelpText)
  else if input =? "stats" then
    (graph, Statistics (List.length (nodesOf graph)) (List.length (edgesOf graph)))
  else if Str.startsWith "node " input then
    let nodeName := trim (Str.substringFrom 5 input) in
    match find (fun node => name node =? nodeName) (nodesOf graph) with
    | Some node =>
        let (outgoing, incoming) := findEdges graph nodeName in
        (graph, NodeShown node outgoing incoming)
    | None => (graph, NodeNotFound nodeName)
    end
  else (graph, Found (findNodes graph input)).

(** The replies to the lines of a session, up to the line that closes it. *)
Fixpoint session (graph : list GraphItem) (lines : list string) : list Reply :=
  match lines with
  | [] => []
  | line :: rest =>
      match onLine graph line with
      | (_, Closed) => [Closed]
      | (graph', reply) => reply :: session graph' rest
      end
  end.

End Explorer.

End QueryGraph.

(** *** The search, in the words of the specification *)

Module SearchSpec.
Import Graph.

Section Readings.

Variables toLowerCase trim : string -> string.

(** [needle] occurs in [hay], letter case ignored. *)
Definition containsIgnoringCase (hay needle : string) : Prop :=
  exists before after,
    toLowerCase hay = before ++ toLowerCase needle ++ after.

Definition colonFree (s : string) : Prop := Str.charFree ":" s.

(** [query] reads [<field>:<value>], the value running to the next colon or
    to the end; field and value are taken trimmed and in lower case. *)
Definition hasForm (query field value : string) : Prop :=
  exists f v rest,
    query = f ++ ":" ++ v ++ rest
    /\ colonFree f /\ colonFree v
    /\ (rest = "" \/ hasPrefix ":" rest)
    /\ field = toLowerCase (trim f)
    /\ value = toLowerCase (trim v).

(** The three readings of a query: by node type, by tag, by text. *)
Definition matchesType (value : string) (n : Node) : Prop :=
  nodeType n <> "" /\ toLowerCase (nodeType n) = value.

Definition matchesTag (graph : list GraphItem) (value : string) (n : Node) : Prop :=
  exists e, In (EdgeItem e) graph
            /\ edgeType e = "tagged_with"
            /\ toLowerCase (to e) = value
            /\ from e = name n.

Definition matchesText (query : string) (n : Node) : Prop :=
  containsIgnoringCase (name n) query
  \/ exists line, In line (metadata n) /\ containsIgnoringCase line query.

End Readings.

End SearchSpec.

(* ===================================================================== *)
(** ** VigVaultParser.js                                                  *)
(* ===================================================================== *)

(** Sequencing of expressions that may throw. *)
Definition andThen {A B : Type} (c : completion A) (k : A -> completion B)
  : completion B :=
  match c with
  | Return a => k a
  | Throw e => Throw e
  end.

Declare Scope completion_scope.
Delimit Scope completion_scope with completion.
Notation "x <- c ;; k" := (andThen c (fun x => k))
  (at level 61, c at next level, right associativity) : completion_scope.

Module VigVaultParser.

Local Open Scope completion_scope.

Definition VIG_VAULT_PATH : string := "/Users/nickvigdahl/Desktop/VigVault".
Definition KNOWLEDGE_BASE_PATH : string := VIG_VAULT_PATH ++ "/1-KnowledgeBase/Details".
Definition NEW_FILES_PATH : string := VIG_VAULT_PATH ++ "/+ New Files".
Definition PROJECTS_PATH : string := VIG_VAULT_PATH ++ "/3-Efforts/Projects".

(** A markdown file: its path, and what reading it yields: [None] when
    [fs.readFileSync] throws, else the value [extractFrontmatter] returns,
    which is whatever [yaml.load] makes of the front matter (a mapping, but
    also a scalar, a sequence or nothing at all) or [{}]. *)
Record MarkdownFile : Type := mkFile {
  filePath : string;
  content : option JsVal
}.

(** The front matter [{}]. *)
Definition noFrontmatter : JsVal := JObj [].

(** The records the importer makes.  The name of a topic node and the target
    of a topic edge are the topic as the front matter holds it, of whatever
    kind; the other fields are strings. *)
Record Node : Type := mkNode {
  name : JsVal;
  nodeType : string;
  metadata : list string
}.

Record Edge : Type := mkEdge {
  from : string;
  to : JsVal;
  edgeType : string
}.

(** The segment after the last [/]. *)
Definition lastSegment (path : string) : string :=
  last (Str.split "/" path) "".

(** [path.basename(path, ext)] *)
Definition basename (path ext : string) : string :=
  let base := lastSegment path in
  if Str.endsWith ext base && negb (base =? ext)
  then substring 0 (String.length base - String.length ext) base
  else base.

(** [tag.startsWith('#') ? tag.substring(1) : tag]; only a string has
    [startsWith]. *)
Definition tagName (tag : JsVal) : completion string :=
  match tag with
  | JStr s => Return (if Str.startsWith "#" s then Str.substringFrom 1 s else s)
  | _ => Throw (notAMethod tag "startsWith")
  end.

(** The edges one [forEach] over link values pushes: only strings count. *)
Fixpoint linkEdges (fileName edgeType : string) (links : list JsVal) : list Edge :=
  match links with
  | [] => []
  | JStr link :: rest =>
      mkEdge fileName (JStr (Str.removeBrackets link)) edgeType
      :: linkEdges fileName edgeType rest
  | _ :: rest => linkEdges fileName edgeType rest
  end.

(** The edges the [forEach] over the tags pushes, unless a tag throws. *)
Fixpoint tagEdges (fileName : string) (tags : list JsVal) : completion (list Edge) :=
  match tags with
  | [] => Return []
  | tag :: rest =>
      t <- tagName tag ;;
      edges <- tagEdges fileName rest ;;
      Return (mkEdge fileName (JStr t) "tagged_with" :: edges)
  end.

Definition isIdeaTag (tag : JsVal) : bool :=
  match tag with
  | JStr s => s =? "#idea"
  | _ => false
  end.

(** [v.includes('#idea')]: a sequence has the string among its elements, a
    string has it as a part, nothing else has the method. *)
Definition includesIdea (v : JsVal) : completion bool :=
  match v with
  | JArr l => Return (existsb isIdeaTag l)
  | JStr s => Return (Str.includes "#idea" s)
  | _ => Throw (notAMethod v "includes")
  end.

(** [v.forEach(...)], for a loop that gives [body l] on the elements [l]:
    only a sequence has the method. *)
Definition forEach {A : Type} (v : JsVal) (body : list JsVal -> completion A)
  : completion A :=
  match v with
  | JArr l => body l
  | _ => Throw (notAMethod v "forEach")
  end.

(** The string of a value of the front matter, as a template literal and
    [join] make it.  A mapping with an entry [toString] has none: the entry
    hides the method of every object and is no method itself. *)
Fixpoint templateString (v : JsVal) : completion string :=
  match v with
  | JArr l =>
      parts <-
        (fix each (l : list JsVal) : completion (list string) :=
           match l with
           | [] => Return []
           | x :: r =>
               part <- (if isNullish x then Return "" else templateString x) ;;
               rest <- each r ;;
               Return (part :: rest)
           end) l ;;
      Return (String.concat "," parts)
  | JObj fields =>
      if existsb (fun entry => fst entry =? "toString") fields
      then Throw (TypeError "Cannot convert object to primitive value")
      else Return "[object Object]"
  | _ => Return (toString v)
  end.

(** The strings [join] puts together: nothing for [null] and [undefined]. *)
Fixpoint joinParts (l : list JsVal) : completion (list string) :=
  match l with
  | [] => Return []
  | x :: r =>
      part <- (if isNullish x then Return "" else templateString x) ;;
      rest <- joinParts r ;;
      Return (part :: rest)
  end.

(** [v.join(', ')]: only a sequence has the method. *)
Definition joinValues (v : JsVal) : completion string :=
  match v with
  | JArr l =>
      parts <- joinParts l ;;
      Return (String.concat ", " parts)
  | _ => Throw (notAMethod v "join")
  end.

(** [if (v) node.metadata.push(`Label: ${v}`)] *)
Definition scalarLine (label : string) (v : JsVal) : completion (list string) :=
  if truthy v then
    text <- templateString v ;;
    Return [label ++ ": " ++ text]
  else Return [].

Section Importer.

(** [x > 0] for an [x] that is a string, a sequence or a mapping: the
    runtime converts [x] to a number first, and may throw doing so.  Only a
    mapping with an entry [length] has such a length. *)
Variable convertedGreaterThanZero : JsVal -> completion bool.

(** [x > 0] *)
Definition greaterThanZero (x : JsVal) : completion bool :=
  match x with
  | JNum z => Return (0 <? z)%Z
  | JUndefined | JNull => Return false
  | JBool b => Return b
  | _ => convertedGreaterThanZero x
  end.

(** The condition [v && v.length > 0]. *)
Definition nonEmpty (v : JsVal) : completion bool :=
  if truthy v then
    len <- getProp v "length" ;;
    greaterThanZero len
  else Return false.

(** [if (v && v.length > 0) node.metadata.push(`Label: ${v.join(', ')}`)] *)
Definition listLine (label : string) (v : JsVal) : completion (list string) :=
  filled <- nonEmpty v ;;
  if filled then
    joined <- joinValues v ;;
    Return [label ++ ": " ++ joined]
  else Return [].

(** [if (v && v.length > 0) v.forEach(...)], for a loop that pushes
    [body l]. *)
Definition edgesFrom (v : JsVal) (body : list JsVal -> completion (list Edge))
  : completion (list Edge) :=
  filled <- nonEmpty v ;;
  if filled then forEach v body else Return [].

(** The elements that a loop [if (v && v.length > 0) v.forEach(...)] over
    the entry [key] goes through when it does not throw: those of a sequence
    that passes the condition, and none when the condition fails. *)
Definition loopsOver (frontmatter : JsVal) (key : string) (elements : list JsVal)
  : Prop :=
  exists v,
    getProp frontmatter key = Return v
    /\ ((nonEmpty v = Return true /\ v = JArr elements)
        \/ (nonEmpty v = Return false /\ elements = [])).

(** The body of the [try] block of [extractNodeFromFile]. *)
Definition extractNode (filePath : string) (frontmatter : JsVal)
  : completion (Node * list Edge) :=
  let fileName := basename filePath ".md" in
  nodeType <-
    (if Str.includes PROJECTS_PATH filePath then Return "project"
     else
       tags <- getProp frontmatter "tags" ;;
       if truthy tags then
         isIdea <- includesIdea tags ;;
         Return (if isIdea then "idea" else "knowledge")
       else Return "knowledge") ;;
  created <- getProp frontmatter "created" ;;
  createdLine <- scalarLine "Created" created ;;
  year <- getProp frontmatter "year" ;;
  yearLine <- scalarLine "Year" year ;;
  encountered <- getProp frontmatter "encountered" ;;
  encounteredLine <- scalarLine "Encountered" encountered ;;
  status <- getProp frontmatter "status" ;;
  statusLine <- scalarLine "Status" status ;;
  tags <- getProp frontmatter "tags" ;;
  tagsLine <- listLine "Tags" tags ;;
  topics <- getProp frontmatter "in" ;;
  topicsLine <- listLine "Topics" topics ;;
  related <- getProp frontmatter "related" ;;
  relatedEdges <-
    edgesFrom related (fun links => Return (linkEdges fileName "related_to" links)) ;;
  topicEdges <-
    edgesFrom topics
      (fun l => Return (map (fun topic => mkEdge fileName topic "belongs_to_topic") l)) ;;
  taggedEdges <- edgesFrom tags (tagEdges fileName) ;;
  up <- getProp frontmatter "up" ;;
  upEdges <- edgesFrom up (fun links => Return (linkEdges fileName "part_of" links)) ;;
  Return
    (mkNode (JStr fileName) nodeType
            (List.concat
               [ createdLine; yearLine; encounteredLine; statusLine;
                 tagsLine; topicsLine ]),
     List.concat [relatedEdges; topicEdges; taggedEdges; upEdges]).

(** [extractNodeFromFile]: whatever is thrown in the [try] block gives
    [{node: null, relationships: []}]. *)
Definition extractNodeFromFile (file : MarkdownFile) : option Node * list Edge :=
  match content file with
  | None => (None, [])
  | Some frontmatter =>
      match extractNode (filePath file) frontmatter with
      | Return (node, relationships) => (Some node, relationships)
      | Throw _ => (None, [])
      end
  end.

(** Whether a [Set] takes two values for one: scalars by their value; two
    sequences or mappings read from the files are two objects. *)
Definition sameValueZero (a b : JsVal) : bool :=
  match a, b with
  | JUndefined, JUndefined => true
  | JNull, JNull => true
  | JBool x, JBool y => Bool.eqb x y
  | JNum x, JNum y => (x =? y)%Z
  | JStr x, JStr y => x =? y
  | _, _ => false
  end.

(** [topics.add(topic)] on a [Set] kept in insertion order. *)
Definition addTopic (topic : JsVal) (set : list JsVal) : list JsVal :=
  if existsb (sameValueZero topic) set then set else (set ++ [topic])%list.

(** [tags.add(tagName)] on a [Set] kept in insertion order. *)
Definition setAdd (x : string) (set : list string) : list string :=
  if existsb (String.eqb x) set then set else (set ++ [x])%list.

(** The [forEach] over the tags of one file in [createExtraNodes]: the tags
    before one that throws stay in the set. *)
Fixpoint addTags (tags : list JsVal) (set : list string) : list string :=
  match tags with
  | [] => set
  | tag :: rest =>
      match tagName tag with
      | Return t => addTags rest (setAdd t set)
      | Throw _ => set
      end
  end.

(** The tags step of one file in [createExtraNodes]. *)
Definition addFileTags (frontmatter : JsVal) (tags' : list string) : list string :=
  match (tags <- getProp frontmatter "tags" ;;
         filled <- nonEmpty tags ;;
         Return (tags, filled)) with
  | Return (JArr l, true) => addTags l tags'
  | _ => tags'
  end.

(** The body of the [try] block of [createExtraNodes] for one file: what is
    added before something throws stays in the sets. *)
Definition addFile (frontmatter : JsVal) (sets : list JsVal * list string)
  : list JsVal * list string :=
  match (topics <- getProp frontmatter "in" ;;
         filled <- nonEmpty topics ;;
         Return (topics, filled)) with
  | Return (JArr l, true) =>
      (fold_left (fun set topic => addTopic topic set) l (fst sets),
       addFileTags frontmatter (snd sets))
  | Return (_, true) => sets
  | Return (_, false) => (fst sets, addFileTags frontmatter (snd sets))
  | Throw _ => sets
  end.

(** The two sets after the [files.forEach] of [createExtraNodes]. *)
Fixpoint collect (files : list MarkdownFile) (sets : list JsVal * list string)
  : list JsVal * list string :=
  match files with
  | [] => sets
  | file :: rest =>
      match content file with
      | None => collect rest sets
      | Some frontmatter => collect rest (addFile frontmatter sets)
      end
  end.

Definition createExtraNodes (files : list MarkdownFile)
  : list (option Node * list Edge) :=
  let (topics, tags') := collect files ([], []) in
  let topicNodes := map (fun topic => (Some (mkNode topic "topic" []), [])) topics in
  let tagNodes := map (fun tag => (Some (mkNode (JStr tag) "tag" []), [])) tags' in
  (topicNodes ++ tagNodes)%list.

(** A directory as [fs.readdirSync] lists it: [None] when it throws; each
    entry comes with what reading it yields. *)
Definition Directory : Type := option (list (string * option JsVal)).

Record Vault : Type := mkVault {
  knowledgeBase : Directory;
  newFiles : Directory;
  projects : Directory
}.

(** The markdown files of one directory, as [path.join(dir, file)]. *)
Definition markdownIn (dir : string) (listing : Directory) : list MarkdownFile :=
  match listing with
  | None => []
  | Some entries =>
      map (fun entry => mkFile (dir ++ "/" ++ fst entry) (snd entry))
          (filter (fun entry => Str.endsWith ".md" (fst entry)) entries)
  end.

Record Extracted : Type := mkExtracted {
  nodes : list Node;
  relationships : list Edge
}.

Fixpoint definedNodes (l : list (option Node * list Edge)) : list Node :=
  match l with
  | [] => []
  | (Some node, _) :: rest => node :: definedNodes rest
  | (None, _) :: rest => definedNodes rest
  end.

Definition processVigVaultFiles (vault : Vault) : Extracted :=
  let markdownFiles :=
    List.concat
      [ markdownIn KNOWLEDGE_BASE_PATH (knowledgeBase vault);
        markdownIn NEW_FILES_PATH (newFiles vault);
        markdownIn PROJECTS_PATH (projects vault) ] in
  let extractedData :=
    filter (fun data => match fst data with Some _ => true | None => false end)
           (map extractNodeFromFile markdownFiles) in
  let extraNodes := createExtraNodes markdownFiles in
  let allData := (extractedData ++ extraNodes)%list in
  {| nodes := definedNodes allData;
     relationships := flat_map snd allData |}.

End Importer.

(** A scalar: a value a [Set] keeps once. *)
Definition isScalar (v : JsVal) : bool :=
  match v with
  | JArr _ | JObj _ | JError _ _ => false
  | _ => true
  end.

End VigVaultParser.

(** The conversion for the examples, none of which has a length that is a
    string, a sequence or a mapping: it is never asked. *)
Definition noConversion : JsVal -> completion bool := fun _ => Return false.

(** A vault with one note, [forge.md], tagged [#forge] and related to a
    note that does not exist. *)
Definition forgeVault : VigVaultParser.Vault :=
  VigVaultParser.mkVault
    (Some [("forge.md",
            Some (JObj [ ("tags", JArr [JStr "#forge"]);
                         ("related", JArr [JStr "[[Anvil]]"]) ]))])
    (Some []) (Some []).

(* ===================================================================== *)
(** ** JSON.stringify and JSON.parse                                      *)
(* ===================================================================== *)

(** The two built-ins the scripts call, on the values of this development:
    strings of bytes and whole numbers.  [stringify] is what
    [JSON.stringify] writes for them.  [parse] reads the JSON texts whose
    values they can hold, padding included, and among them every text
    [stringify] writes; it answers with a [SyntaxError] for the rest, which
    is every text that is not JSON and also the JSON that these values
    cannot hold: a number with a fraction or an exponent, a [\u] escape that
    names more than one byte. *)
Module JSON.

Definition quoteChar : ascii := ascii_of_nat 34.
Definition backslash : ascii := ascii_of_nat 92.

Definition hexDigit (n : nat) : ascii :=
  if (n <? 10)%nat then ascii_of_nat (48 + n) else ascii_of_nat (87 + n).

(** One character of a string, as [JSON.stringify] writes it. *)
Definition escapeChar (c : ascii) : string :=
  let n := nat_of_ascii c in
  if (n =? 34)%nat then String backslash (String quoteChar "")
  else if (n =? 92)%nat then String backslash (String backslash "")
  else if (n =? 8)%nat then String backslash "b"
  else if (n =? 9)%nat then String backslash "t"
  else if (n =? 10)%nat then String backslash "n"
  else if (n =? 12)%nat then String backslash "f"
  else if (n =? 13)%nat then String backslash "r"
  else if (n <? 32)%nat then
    String backslash
      (String "u" (String "0" (String "0"
         (String (hexDigit (n / 16)) (String (hexDigit (n mod 16)) "")))))
  else String c "".

Fixpoint escape (s : string) : string :=
  match s with
  | EmptyString => EmptyString
  | String c r => escapeChar c ++ escape r
  end.

Definition quote (s : string) : string :=
  String quoteChar (escape s ++ String quoteChar "").

(** [JSON.stringify(v)] without indentation.  An [undefined] element of an
    array is written [null] and an [undefined] field is left out; an [Error]
    has no field to write. *)
Fixpoint stringify (v : JsVal) : string :=
  match v with
  | JUndefined | JNull => "null"
  | JBool true => "true"
  | JBool false => "false"
  | JNum z => Z_to_string z
  | JStr s => quote s
  | JArr l =>
      "[" ++ String.concat ","
               ((fix elements (l : list JsVal) : list string :=
                   match l with
                   | [] => []
                   | x :: r => stringify x :: elements r
                   end) l)
          ++ "]"
  | JObj fields =>
      "{" ++ String.concat ","
               ((fix members (l : list (string * JsVal)) : list string :=
                   match l with
                   | [] => []
                   | (k, JUndefined) :: r => members r
                   | (k, x) :: r => (quote k ++ ":" ++ stringify x) :: members r
                   end) fields)
          ++ "}"
  | JError _ _ => "{}"
  end.

(** *** Parsing *)

Definition isJsonSpace (c : ascii) : bool :=
  let n := nat_of_ascii c in
  (n =? 32)%nat || (n =? 9)%nat || (n =? 10)%nat || (n =? 13)%nat.

Fixpoint skipSpace (s : string) : string :=
  match s with
  | EmptyString => EmptyString
  | String c r => if isJsonSpace c then skipSpace r else s
  end.

Definition hexValue (c : ascii) : option nat :=
  let n := nat_of_ascii c in
  if (48 <=? n)%nat && (n <=? 57)%nat then Some (n - 48)
  else if (97 <=? n)%nat && (n <=? 102)%nat then Some (n - 87)
  else if (65 <=? n)%nat && (n <=? 70)%nat then Some (n - 55)
  else None.

(** The character an escape letter stands for. *)
Definition unescape (e : ascii) : option ascii :=
  if Ascii.eqb e quoteChar then Some quoteChar
  else if Ascii.eqb e backslash then Some backslash
  else if Ascii.eqb e "/" then Some "/"%char
  else if Ascii.eqb e "b" then Some (ascii_of_nat 8)
  else if Ascii.eqb e "f" then Some (ascii_of_nat 12)
  else if Ascii.eqb e "n" then Some (ascii_of_nat 10)
  else if Ascii.eqb e "r" then Some (ascii_of_nat 13)
  else if Ascii.eqb e "t" then Some (ascii_of_nat 9)
  else None.

Definition consChar (c : ascii) (r : option (string * string)) : option (string * string) :=
  match r with
  | Some (s, rest) => Some (String c s, rest)
  | None => None
  end.

(** The characters of a string up to its closing quote, and what follows. *)
Fixpoint parseString (s : string) : option (string * string) :=
  match s with
  | EmptyString => None
  | String c r =>
      if Ascii.eqb c quoteChar then Some (EmptyString, r)
      else if Ascii.eqb c backslash then
        match r with
        | String e r1 =>
            if Ascii.eqb e "u" then
              match r1 with
              | String h1 (String h2 (String h3 (String h4 r2))) =>
                  match hexValue h1, hexValue h2, hexValue h3, hexValue h4 with
                  | Some 0, Some 0, Some d3, Some d4 =>
                      if (d3 <? 8)%nat
                      then consChar (ascii_of_nat (16 * d3 + d4)) (parseString r2)
                      else None
                  | _, _, _, _ => None
                  end
              | _ => None
              end
            else
              match unescape e with
              | Some c' => consChar c' (parseString r1)
              | None => None
              end
        | EmptyString => None
        end
      else if (nat_of_ascii c <? 32)%nat then None
      else consChar c (parseString r)
  end.

Definition isDigit (c : ascii) : bool :=
  let n := nat_of_ascii c in (48 <=? n)%nat && (n <=? 57)%nat.

(** The run of digits that starts [s], as a number, and what follows. *)
Fixpoint parseDigits (acc : Z) (s : string) : Z * string :=
  match s with
  | String c r =>
      if isDigit c then parseDigits (10 * acc + Z.of_nat (nat_of_ascii c - 48)) r
      else (acc, s)
  | EmptyString => (acc, s)
  end.

(** An integer literal: no leading zero, no fraction, no exponent. *)
Definition parseNumber (s : string) : option (Z * string) :=
  let (negative, digits) :=
    match s with
    | String "-" r => (true, r)
    | _ => (false, s)
    end in
  match digits with
  | String c r =>
      if isDigit c then
        let (n, rest) := parseDigits 0 digits in
        let leadingZero :=
          Ascii.eqb c "0" && match r with String d _ => isDigit d | _ => false end in
        let fraction :=
          match rest with
          | String d _ => Ascii.eqb d "." || Ascii.eqb d "e" || Ascii.eqb d "E"
          | _ => false
          end in
        if leadingZero || fraction then None
        else Some (if negative then (- n)%Z else n, rest)
      else None
  | EmptyString => None
  end.

(** [s] starts with [word]: what follows it. *)
Fixpoint expect (word s : string) : option string :=
  match word, s with
  | EmptyString, _ => Some s
  | String w word', String c r => if Ascii.eqb w c then expect word' r else None
  | String _ _, EmptyString => None
  end.

(** Defining a property that exists already keeps its place. *)
Fixpoint setField (k : string) (v : JsVal) (fields : list (string * JsVal))
  : list (string * JsVal) :=
  match fields with
  | [] => [(k, v)]
  | (k', v') :: r => if k' =? k then (k, v) :: r else (k', v') :: setField k v r
  end.

(** A value, then what follows it.  [fuel] bounds the number of values,
    elements and members read. *)
Fixpoint parseValue (fuel : nat) (s : string) : option (JsVal * string) :=
  match fuel with
  | O => None
  | S fuel =>
      match skipSpace s with
      | EmptyString => None
      | String c r =>
          if Ascii.eqb c quoteChar then
            match parseString r with
            | Some (str, rest) => Some (JStr str, rest)
            | None => None
            end
          else if Ascii.eqb c "[" then
            match skipSpace r with
            | String "]" rest => Some (JArr [], rest)
            | _ =>
                match parseElements fuel r with
                | Some (l, rest) => Some (JArr l, rest)
                | None => None
                end
            end
          else if Ascii.eqb c "{" then
            match skipSpace r with
            | String "}" rest => Some (JObj [], rest)
            | _ =>
                match parseMembers fuel [] r with
                | Some (fields, rest) => Some (JObj fields, rest)
                | None => None
                end
            end
          else if Ascii.eqb c "n" then option_map (pair JNull) (expect "ull" r)
          else if Ascii.eqb c "t" then option_map (pair (JBool true)) (expect "rue" r)
          else if Ascii.eqb c "f" then option_map (pair (JBool false)) (expect "alse" r)
          else
            match parseNumber (String c r) with
            | Some (n, rest) => Some (JNum n, rest)
            | None => None
            end
      end
  end
with parseElements (fuel : nat) (s : string) : option (list JsVal * string) :=
  match fuel with
  | O => None
  | S fuel =>
      match parseValue fuel s with
      | Some (v, rest) =>
          match skipSpace rest with
          | String "," r =>
              match parseElements fuel r with
              | Some (l, rest') => Some (v :: l, rest')
              | None => None
              end
          | String "]" r => Some ([v], r)
          | _ => None
          end
      | None => None
      end
  end
with parseMembers (fuel : nat) (seen : list (string * JsVal)) (s : string)
  : option (list (string * JsVal) * string) :=
  match fuel with
  | O => None
  | S fuel =>
      match skipSpace s with
      | String c r =>
          if Ascii.eqb c quoteChar then
            match parseString r with
            | Some (k, rest) =>
                match skipSpace rest with
                | String ":" r1 =>
                    match parseValue fuel r1 with
                    | Some (v, rest1) =>
                        let fields := setField k v seen in
                        match skipSpace rest1 with
                        | String "," r2 => parseMembers fuel fields r2
                        | String "}" r2 => Some (fields, r2)
                        | _ => None
                        end
                    | None => None
                    end
                | _ => None
                end
            | None => None
            end
          else None
      | EmptyString => None
      end
  end.

Definition SyntaxError : JsVal := JError "SyntaxError" "Unexpected token in JSON".

(** [JSON.parse(text)] *)
Definition parse (text : string) : completion JsVal :=
  match parseValue (S (String.length text)) text with
  | Some (v, rest) =>
      match skipSpace rest with
      | EmptyString => Return v
      | String _ _ => Throw SyntaxError
      end
  | None => Throw SyntaxError
  end.

End JSON.
(* ===================================================================== *)
(** ** buildKnowledgeGraph.js and loadGraph of queryGraph.js              *)
(* ===================================================================== *)

(** The memory file [dist/data/memory.json] that both scripts name: its text,
    or [None] when it cannot be read. *)
Definition MemoryFile : Type := option string.

Definition lineFeed : ascii := ascii_of_nat 10.

Module BuildKnowledgeGraph.
Import VigVaultParser.

(** [{type: 'node', ...node}] *)
Definition formatNode (node : Node) : JsVal :=
  JObj [ ("type", JStr "node");
         ("name", name node);
         ("nodeType", JStr (nodeType node));
         ("metadata", JArr (map JStr (metadata node))) ].

(** [{type: 'edge', ...rel}] *)
Definition formatRelationship (rel : Edge) : JsVal :=
  JObj [ ("type", JStr "edge");
         ("from", JStr (from rel));
         ("to", to rel);
         ("edgeType", JStr (edgeType rel)) ].

Definition graphData (nodes : list Node) (relationships : list Edge) : list JsVal :=
  (map formatNode nodes ++ map formatRelationship relationships)%list.

(** The text [buildKnowledgeGraph] writes for the extracted records. *)
Definition jsonLines (nodes : list Node) (relationships : list Edge) : string :=
  String.concat (String lineFeed "")
                (map JSON.stringify (graphData nodes relationships)).

(** [buildKnowledgeGraph]: the memory file after the build of a vault. *)
Definition buildKnowledgeGraph
           (convertedGreaterThanZero : JsVal -> completion bool) (vault : Vault)
  : MemoryFile :=
  let out := processVigVaultFiles convertedGreaterThanZero vault in
  Some (jsonLines (nodes out) (relationships out)).

(** A node and an edge of the graph, whose fields are strings, as the
    importer holds them. *)
Definition nodeRecord (n : Graph.Node) : Node :=
  mkNode (JStr (Graph.name n)) (Graph.nodeType n) (Graph.metadata n).

Definition edgeRecord (e : Graph.Edge) : Edge :=
  mkEdge (Graph.from e) (JStr (Graph.to e)) (Graph.edgeType e).

(** The records of a memory file that holds a graph. *)
Definition isRecord (item : JsVal) : Prop :=
  (exists n, item = formatNode (nodeRecord n))
  \/ (exists e, item = formatRelationship (edgeRecord e)).

End BuildKnowledgeGraph.

Module LoadGraph.

(** [lines.map(line => JSON.parse(line))]; [None] when a line throws. *)
Fixpoint parseLines (lines : list string) : option (list JsVal) :=
  match lines with
  | [] => Some []
  | line :: rest =>
      match JSON.parse line with
      | Return v => option_map (cons v) (parseLines rest)
      | Throw _ => None
      end
  end.

(** [loadGraph], with [trim] the [String.prototype.trim] of the runtime: the
    parsed records, or [None] when the catch block ends the process. *)
Definition loadGraph (trim : string -> string) (file : MemoryFile)
  : option (list JsVal) :=
  match file with
  | None => None
  | Some content =>
      let lines :=
        filter (fun line => negb (trim line =? ""))
               (Str.split lineFeed content) in
      parseLines lines
  end.

(** [item.type === type] *)
Definition hasType (type : string) (item : JsVal) : bool :=
  match getProp item "type" with
  | Return (JStr t) => t =? type
  | _ => false
  end.

(** The field [k] of a loaded record, when it is a string. *)
Definition stringField (item : JsVal) (k : string) : option string :=
  match getProp item k with
  | Return (JStr s) => Some s
  | _ => None
  end.

(** The elements of a loaded array, when they are all strings. *)
Fixpoint stringElements (l : list JsVal) : option (list string) :=
  match l with
  | [] => Some []
  | JStr s :: r => option_map (cons s) (stringElements r)
  | _ :: r => None
  end.

(** The node that a loaded record holds: the fields [name], [nodeType] and
    [metadata] that the explorer reads of it. *)
Definition readNode (item : JsVal) : option Graph.Node :=
  match stringField item "name", stringField item "nodeType",
        getProp item "metadata" with
  | Some n, Some t, Return (JArr lines) =>
      option_map (Graph.mkNode n t) (stringElements lines)
  | _, _, _ => None
  end.

(** The edge that a loaded record holds: its [from], [to] and [edgeType]. *)
Definition readEdge (item : JsVal) : option Graph.Edge :=
  match stringField item "from", stringField item "to",
        stringField item "edgeType" with
  | Some f, Some t, Some ty => Some (Graph.mkEdge f t ty)
  | _, _, _ => None
  end.

(** A loaded record as an item of the graph, by its [type]. *)
Definition readItem (item : JsVal) : option Graph.GraphItem :=
  if hasType "node" item then option_map Graph.NodeItem (readNode item)
  else if hasType "edge" item then option_map Graph.EdgeItem (readEdge item)
  else None.

End LoadGraph.

(* ===================================================================== *)
(** ** Schema documents and the tools compiled from them                  *)
(* ===================================================================== *)

Module SchemaTools.
Import Graph.

(** The [relationship] annotation of a property. *)
Record Relationship : Type := mkRelationship {
  rel_edgeType : string;
  rel_description : string
}.

(** A property of a schema document. *)
Record Property : Type := mkProperty {
  prop_type : string;
  prop_description : string;
  prop_required : bool;
  prop_enum : option (list string);
  prop_items : option string;
  prop_relationship : option Relationship
}.

(** A schema document; the properties are kept in the order of the file. *)
Record Schema : Type := mkSchema {
  schema_name : string;
  schema_description : string;
  properties : list (string * Property);
  additionalProperties : bool
}.

Definition plain (type description : string) (required : bool) : Property :=
  mkProperty type description required None None None.

Definition related (type description : string) (required : bool)
           (edgeType relDescription : string) : Property :=
  mkProperty type description required None None
             (Some (mkRelationship edgeType relDescription)).

(** The schema document [add_npc]. *)
Definition npcSchema : Schema :=
  mkSchema "add_npc" "Add a new Non-Player Character (NPC) to the knowledge graph"
    [ ("name", plain "string" "NPC's name" true);
      ("role", plain "string" "NPC's role or occupation" true);
      ("status", plain "string" "NPC's current status" true);
      ("currentLocation",
       related "string" "The current location of the NPC" true
               "located_in" "The current location of the NPC");
      ("description", plain "string" "A detailed description of the NPC" true);
      ("gender", plain "string" "NPC's gender" false);
      ("race", plain "string" "NPC's race" false);
      ("background", plain "string" "The background story of the NPC" false);
      ("secret", plain "string" "A hidden detail about the NPC" false);
      ("origin",
       related "string" "The origin or home location of the NPC" false
               "originates_from" "The origin location of the NPC");
      ("traits", plain "array" "Unique traits or characteristics of the NPC" false);
      ("abilities", plain "array" "Specific skills or powers the NPC possesses" false);
      ("importance", plain "string" "The importance of the NPC in the story or world" false);
      ("reputation", plain "string" "How the NPC is perceived by others" false);
      ("money", plain "string" "Currency or wealth the NPC holds" false);
      ("alignment", plain "string" "The ethical or moral alignment of the NPC" false);
      ("motivation", plain "string" "The driving purpose or goals of the NPC" false) ]
    true.

Definition ValidationError (field reason : string) : JsVal :=
  JError "ValidationError" (field ++ ": " ++ reason).

Definition upperChar (c : ascii) : ascii :=
  let n := nat_of_ascii c in
  if (97 <=? n)%nat && (n <=? 122)%nat then ascii_of_nat (n - 32) else c.

(** The field name with its first letter in upper case. *)
Definition capitalize (field : string) : string :=
  match field with
  | EmptyString => EmptyString
  | String c r => String (upperChar c) r
  end.

(** Modelled from the spec: the tool compiler (DynamicSchemaToolRegistry and
    the schema processor behind it) is not among the sources.  Section 4.1:
    the per-field check derived from the declared [type], [enum] and
    [items]. *)
Definition checkField (field : string) (p : Property) (v : JsVal) : completion unit :=
  let typed :=
    if prop_type p =? "string" then match v with JStr _ => true | _ => false end
    else if prop_type p =? "array" then
      match v with
      | JArr l =>
          match prop_items p with
          | Some "string" => forallb (fun x => match x with JStr _ => true | _ => false end) l
          | _ => true
          end
      | _ => false
      end
    else true in
  if negb typed then Throw (ValidationError field ("expected " ++ prop_type p))
  else
    match prop_enum p, v with
    | Some allowed, JStr s =>
        if existsb (String.eqb s) allowed then Return tt
        else Throw (ValidationError field "value not allowed")
    | _, _ => Return tt
    end.

(** Modelled from the spec (section 4.1): every required field is present
    and every field present passes its check; the first violation fails the
    whole call. *)
Fixpoint validate (props : list (string * Property)) (args : JsVal) : completion unit :=
  match props with
  | [] => Return tt
  | (field, p) :: rest =>
      match getProp args field with
      | Throw e => Throw e
      | Return JUndefined =>
          if prop_required p then Throw (ValidationError field "required")
          else validate rest args
      | Return v =>
          match checkField field p v with
          | Throw e => Throw e
          | Return _ => validate rest args
          end
      end
  end.

(** Modelled from the spec (sections 3 and 4.1): a value as it stands in a
    metadata line, arrays joined with [", "]. *)
Definition render (v : JsVal) : string :=
  match v with
  | JArr l => String.concat ", " (map toString l)
  | _ => toString v
  end.

(** Modelled from the spec (section 4.1): the metadata lines, one per
    property without a [relationship] annotation that the arguments carry,
    in the order of the schema, as ["<CapitalizedField>: <value>"].  The name
    is the key of the node, not a metadata line (scenario 1 of section 8). *)
Fixpoint metadataLines (props : list (string * Property)) (args : JsVal) : list string :=
  match props with
  | [] => []
  | (field, p) :: rest =>
      match prop_relationship p, getProp args field with
      | None, Return v =>
          if (field =? "name") || isNullish v
          then metadataLines rest args
          else (capitalize field ++ ": " ++ render v) :: metadataLines rest args
      | _, _ => metadataLines rest args
      end
  end.

(** Modelled from the spec (sections 3 and 4.1): the outgoing edges, one per
    scalar value of a property with a [relationship] annotation, an array
    giving one edge per element. *)
Fixpoint relationshipEdges (nodeName : string) (props : list (string * Property))
         (args : JsVal) : list Edge :=
  match props with
  | [] => []
  | (field, p) :: rest =>
      match prop_relationship p, getProp args field with
      | Some r, Return (JArr l) =>
          (map (fun x => mkEdge nodeName (toString x) (rel_edgeType r)) l
           ++ relationshipEdges nodeName rest args)%list
      | Some r, Return v =>
          if isNullish v then relationshipEdges nodeName rest args
          else mkEdge nodeName (toString v) (rel_edgeType r)
               :: relationshipEdges nodeName rest args
      | _, _ => relationshipEdges nodeName rest args
      end
  end.

(** Modelled from the spec (section 4.1 and scenarios 1 and 2): the type a
    schema declares is its tool name without the [add_] prefix. *)
Definition declaredType (schema : Schema) : string :=
  if Str.startsWith "add_" (schema_name schema)
  then Str.substringFrom 4 (schema_name schema)
  else schema_name schema.

(** Modelled from the spec (section 4.1): the compiled [add_<type>] handler;
    it validates, then builds one node and the edges of its relationship
    fields, or fails as a whole. *)
Definition compiledAdd (schema : Schema) (args : JsVal)
  : completion (Node * list Edge) :=
  match validate (properties schema) args with
  | Throw e => Throw e
  | Return _ =>
      match getProp args "name" with
      | Return (JStr nodeName) =>
          Return (mkNode nodeName (declaredType schema)
                         (metadataLines (properties schema) args),
                  relationshipEdges nodeName (properties schema) args)
      | Return _ => Throw (ValidationError "name" "expected string")
      | Throw e => Throw e
      end
  end.

(** The arguments of the call [add_npc] for Garrick, with any description. *)
Definition garrickArguments (description : string) : JsVal :=
  JObj [ ("name", JStr "Garrick");
         ("role", JStr "Blacksmith");
         ("status", JStr "Alive");
         ("currentLocation", JStr "Tavern");
         ("description", JStr description) ].

Definition stringList (description : string) (required : bool) : Property :=
  mkProperty "array" description required None (Some "string") None.

(** The schema document [add_quest]. *)
Definition questSchema : Schema :=
  mkSchema "add_quest" "Add a new Quest to the knowledge graph"
    [ ("name", plain "string" "Quest's name" true);
      ("description", plain "string" "Detailed description of the quest" true);
      ("status",
       mkProperty "string" "Current status of the quest" true
                  (Some ["Active"; "Completed"; "Failed"]) None None);
      ("objectives", stringList "List of objectives to complete the quest" true);
      ("rewards", stringList "List of rewards for completing the quest" true);
      ("relatedCharacters",
       stringList "List of player characters assigned to the quest" false);
      ("relatedNPCs", stringList "List of NPCs involved in the quest" false);
      ("relatedLocations",
       stringList "List of locations associated with the quest" false) ]
    true.

End SchemaTools.

(** *** A small graph to search *)

Definition garrick : Graph.Node :=
  Graph.mkNode "Garrick" "npc" ["Role: Blacksmith"; "Status: Alive"].

Definition tavern : Graph.Node :=
  Graph.mkNode "Tavern" "location" ["Description: A warm, noisy room"].

Definition townGraph : list Graph.GraphItem :=
  [ Graph.NodeItem garrick;
    Graph.NodeItem tavern;
    Graph.EdgeItem (Graph.mkEdge "Garrick" "Tavern" "located_in");
    Graph.EdgeItem (Graph.mkEdge "Garrick" "Smiths" "tagged_with") ].

(* ===================================================================== *)
(** ** Further readings of the dispatcher and of the registry             *)
(* ===================================================================== *)

(** The field of the arguments that each built-in tool hands to its method;
    [read_graph] hands nothing. *)
Definition argumentField (m : StoreMethod) : option string :=
  match m with
  | addNodes | updateNodes => Some "nodes"
  | addEdges | updateEdges | deleteEdges => Some "edges"
  | addMetadata => Some "metadata"
  | deleteNodes => Some "nodeNames"
  | deleteMetadata => Some "deletions"
  | readGraph => None
  | searchNodes => Some "query"
  | openNodes => Some "names"
  end.

(** The arguments of the call a built-in tool makes. *)
Definition methodArguments (m : StoreMethod) (args : JsVal) : list JsVal :=
  match argumentField m with
  | Some field =>
      match getProp args field with
      | Return v => [v]
      | Throw _ => []
      end
  | None => []
  end.

Definition isArray (v : JsVal) : bool :=
  match v with
  | JArr _ => true
  | _ => false
  end.

(** Whether building the success message of a built-in tool throws: the four
    batch tools read [.length] of the value they passed on, [delete_nodes]
    and [open_nodes] call [.join] on it; the other messages read nothing
    that can throw. *)
Definition successMessageFails (m : StoreMethod) (args : JsVal) : bool :=
  match m, methodArguments m args with
  | (addNodes | updateNodes | addEdges | updateEdges), [v] => isNullish v
  | (deleteNodes | openNodes), [v] => negb (isArray v)
  | _, _ => false
  end.

(** The test [toolResult.toolResult && toolResult.toolResult.isError] on a
    value that is neither [null] nor [undefined]. *)
Definition isFormattedError (toolResult : JsVal) : bool :=
  match getProp toolResult "toolResult" with
  | Return inner =>
      truthy inner
      && match getProp inner "isError" with
         | Return flag => truthy flag
         | Throw _ => false
         end
  | Throw _ => false
  end.

(** The options of the error envelope the catch block of
    [handleCallToolRequest] builds. *)
Definition caughtError (name : string) (args message : JsVal) : ErrorOptions :=
  {| operation := name;
     error := message;
     context := Some (JObj [("input", args)]);
     suggestions := ["Review the error message and the provided arguments"];
     recoverySteps := ["If the error persists, notify the human"] |}.

(** The options of the envelope [DynamicToolManager.handleToolCall] returns
    before initialization. *)
Definition notInitializedError (toolName : string) : ErrorOptions :=
  {| operation := toolName;
     error := JStr "Dynamic tools not initialized";
     context := None;
     suggestions := ["Ensure dynamic tools are initialized before making tool calls"];
     recoverySteps := [] |}.

(** The options of the envelope [DynamicToolManager.handleToolCall] builds
    from what the registry's handler threw. *)
Definition handlerError (toolName : string) (args thrown : JsVal) : ErrorOptions :=
  {| operation := toolName;
     error := match thrown with
              | JError _ m => JStr m
              | _ => JStr "Unknown error occurred"
              end;
     context := Some (JObj [("args", args)]);
     suggestions :=
       ["Verify the tool name is correct";
        "Check the provided arguments match the tool schema";
        "Ensure all required parameters are provided"];
     recoverySteps := [] |}.

Section RegistryStates.

Variables G Env : Type.
Variable initializeDynamicTools :
  Env -> Env * completion (IDynamicSchemaToolRegistry G).

(** The states the manager can be in: as constructed, and after any number
    of [initialize] calls, whatever their outcome. *)
Inductive reachable : DynamicToolManager G -> Prop :=
| reachable_fresh : reachable getInstance
| reachable_initialize this env :
    reachable this ->
    reachable (fst (fst (initialize initializeDynamicTools this env))).

End RegistryStates.

Arguments reachable {G Env}.

(** A manager whose every method throws an [Error]. *)
Definition failingManager : KnowledgeGraphManager unit :=
  fun _ _ g => (g, Throw (JError "Error" "disk full")).

(** Dynamic tools that reject with [undefined]. *)
Definition rejectingDynamicTools
  : string -> JsVal -> KnowledgeGraphManager unit -> unit -> unit * completion JsVal :=
  fun _ _ _ g => (g, Throw JUndefined).

(** A registry whose handler throws an [Error]. *)
Definition failingRegistry : IDynamicSchemaToolRegistry unit :=
  {| registry_getTools := [mkTool "add_npc" "Add a new NPC"];
     registry_handleToolCall :=
       fun _ _ _ g => (g, Throw (JError "Error" "Missing required field: role")) |}.

(** A schema directory that can be read from the second attempt on: the
    environment counts the attempts. *)
Definition flakySchemas : nat -> nat * completion (IDynamicSchemaToolRegistry unit) :=
  fun attempts =>
    match attempts with
    | O => (1, Throw (JError "Error" "ENOENT"))
    | S n => (S (S n), Return sampleRegistry)
    end.

(* ===================================================================== *)
(** ** Further readings of the explorer and of the memory file            *)
(* ===================================================================== *)

(** An edge that marks a tag. *)
Definition isTagEdge (edge : Graph.Edge) : bool :=
  Graph.edgeType edge =? "tagged_with".

(** The line is kept by [line.trim() !== ''] . *)
Definition notBlank (trim : string -> string) (line : string) : bool :=
  negb (trim line =? "").

(** A character that can start a JSON text: a brace, a bracket, a quote, a
    minus sign, a digit, or the first letter of [true], [false] or [null]. *)
Definition canStartJson (c : ascii) : bool :=
  Ascii.eqb c "{" || Ascii.eqb c "[" || Ascii.eqb c JSON.quoteChar
  || Ascii.eqb c "-" || JSON.isDigit c
  || Ascii.eqb c "t" || Ascii.eqb c "f" || Ascii.eqb c "n".

(** Spaces, tabs and carriage returns only: white space that [JSON.parse]
    skips and that does not end a line. *)
Definition isPadding (s : string) : Prop :=
  Forall (fun c => c = " "%char \/ c = ascii_of_nat 9 \/ c = ascii_of_nat 13)
         (list_ascii_of_string s).

(** The town graph without the edge that is not a tag edge. *)
Definition townGraphTagsOnly : list Graph.GraphItem :=
  [ Graph.NodeItem garrick;
    Graph.NodeItem tavern;
    Graph.EdgeItem (Graph.mkEdge "Garrick" "Smiths" "tagged_with") ].

(* ===================================================================== *)
(** ** Further readings of the importer                                   *)
(* ===================================================================== *)

(** The markdown files [processVigVaultFiles] collects, directory by
    directory. *)
Definition markdownFiles (vault : VigVaultParser.Vault) : list VigVaultParser.MarkdownFile :=
  List.concat
    [ VigVaultParser.markdownIn VigVaultParser.KNOWLEDGE_BASE_PATH
                                (VigVaultParser.knowledgeBase vault);
      VigVaultParser.markdownIn VigVaultParser.NEW_FILES_PATH
                                (VigVaultParser.newFiles vault);
      VigVaultParser.markdownIn VigVaultParser.PROJECTS_PATH
                                (VigVaultParser.projects vault) ].

(** [typeof v === 'string'] *)
Definition isString (v : JsVal) : bool :=
  match v with
  | JStr _ => true
  | _ => false
  end.

(** The name of the tag that a tag gives when it is a string. *)
Definition tagText (tag : JsVal) : string :=
  match VigVaultParser.tagName tag with
  | Return t => t
  | Throw _ => ""
  end.

(** An entry of the front matter that is absent, [null] or a sequence. *)
Definition isList (v : JsVal) : bool := isNullish v || isArray v.

(** The tags are a sequence that holds [#idea]. *)
Definition taggedIdea (frontmatter : JsVal) : bool :=
  match getProp frontmatter "tags" with
  | Return (JArr l) => existsb VigVaultParser.isIdeaTag l
  | _ => false
  end.

(** A listing as the importer uses it: nothing for a directory that cannot
    be read, and the entries that end in [.md] for one that can. *)
Definition usedListing (listing : VigVaultParser.Directory) : VigVaultParser.Directory :=
  match listing with
  | None => Some []
  | Some entries => Some (filter (fun entry => Str.endsWith ".md" (fst entry)) entries)
  end.

Definition usedVault (vault : VigVaultParser.Vault) : VigVaultParser.Vault :=
  VigVaultParser.mkVault (usedListing (VigVaultParser.knowledgeBase vault))
                         (usedListing (VigVaultParser.newFiles vault))
                         (usedListing (VigVaultParser.projects vault)).

(** A vault whose only note has a tag that is not a string. *)
Definition oddTagVault : VigVaultParser.Vault :=
  VigVaultParser.mkVault
    (Some [("loom.md",
            Some (JObj [ ("tags", JArr [JStr "#craft"; JNum 2024; JStr "#late"]);
                         ("in", JArr [JStr "Weaving"]) ]));
           ("notes.txt", None)])
    None (Some []).


(** A vault whose only note gives its tag and its parent as plain scalars,
    [tags: craft] and [up: Weaving]. *)
Definition scalarFieldVault : VigVaultParser.Vault :=
  VigVaultParser.mkVault
    (Some [("loom.md",
            Some (JObj [("tags", JStr "craft"); ("up", JStr "Weaving")]))])
    (Some []) (Some []).

(** The records [buildKnowledgeGraph] writes for a vault, the nodes before
    the edges, each read as the explorer reads a loaded record. *)
Definition importedGraph
           (convertedGreaterThanZero : JsVal -> completion bool)
           (vault : VigVaultParser.Vault) : list (option Graph.GraphItem) :=
  let out := VigVaultParser.processVigVaultFiles convertedGreaterThanZero vault in
  map LoadGraph.readItem
      (BuildKnowledgeGraph.graphData (VigVaultParser.nodes out)
                                     (VigVaultParser.relationships out)).

(* ===================================================================== *)
(** ** queryGraph.js on the objects of the runtime                        *)
(* ===================================================================== *)

(** [loadGraph] returns an array of objects, and [findNodes] is handed a
    reference to it.  What a search can see and change beside its arguments
    is the store of the objects of the program: here the store is explicit,
    every array method allocates the array it returns, and a search is a
    computation on the store. *)
Module Heap.

Inductive Object : Type :=
| Record (item : Graph.GraphItem)
| Records (elements : list nat)
| Strings (elements : list string).

(** The objects of the program; a reference is a position in the store. *)
Definition Store : Type := list Object.

(** A computation on the store; [None] when it follows a reference to an
    object that is not of the kind it expects. *)
Definition Run (A : Type) : Type := Store -> option (A * Store).

Definition ret {A : Type} (a : A) : Run A := fun s => Some (a, s).

Definition bind {A B : Type} (c : Run A) (k : A -> Run B) : Run B :=
  fun s =>
    match c s with
    | Some (a, s') => k a s'
    | None => None
    end.

Definition fail {A : Type} : Run A := fun _ => None.

Definition read (r : nat) : Run Object :=
  fun s =>
    match nth_error s r with
    | Some o => Some (o, s)
    | None => None
    end.

(** A new object, after all the others. *)
Definition alloc (o : Object) : Run nat :=
  fun s => Some (List.length s, (s ++ [o])%list).

End Heap.

Declare Scope heap_scope.
Delimit Scope heap_scope with heap.
Notation "x <- c ;; k" := (Heap.bind c (fun x => k))
  (at level 61, c at next level, right associativity) : heap_scope.

Module HeapQueryGraph.
Import Graph Heap.

Local Open Scope heap_scope.

Definition recordAt (r : nat) : Run GraphItem :=
  o <- read r ;;
  match o with
  | Record item => ret item
  | _ => fail
  end.

Definition recordsAt (r : nat) : Run (list nat) :=
  o <- read r ;;
  match o with
  | Records refs => ret refs
  | _ => fail
  end.

Definition stringsAt (r : nat) : Run (list string) :=
  o <- read r ;;
  match o with
  | Strings l => ret l
  | _ => fail
  end.

(** A test of a node: a record that is no node has none of the fields of a
    node, and fails each of the tests [findNodes] makes. *)
Definition atNode (p : Node -> bool) (item : GraphItem) : bool :=
  match item with
  | NodeItem node => p node
  | EdgeItem _ => false
  end.

(** A test of an edge, after [item.type === 'edge' && ...]. *)
Definition atEdge (p : Edge -> bool) (item : GraphItem) : bool :=
  match item with
  | EdgeItem edge => p edge
  | NodeItem _ => false
  end.

(** The callback of a [filter] that reads the record only. *)
Definition test (p : GraphItem -> bool) (r : nat) : Run bool :=
  item <- recordAt r ;;
  ret (p item).

Fixpoint keepEach (keep : nat -> Run bool) (refs : list nat) : Run (list nat) :=
  match refs with
  | [] => ret []
  | r :: rest =>
      kept <- keep r ;;
      others <- keepEach keep rest ;;
      ret (if kept then r :: others else others)
  end.

(** [array.filter(keep)]: a new array of the elements kept. *)
Definition arrayFilter (keep : nat -> Run bool) (array : nat) : Run nat :=
  refs <- recordsAt array ;;
  kept <- keepEach keep refs ;;
  alloc (Records kept).

(** [array.map(f)] on an array of strings. *)
Definition arrayMap (f : string -> string) (array : nat) : Run nat :=
  l <- stringsAt array ;;
  alloc (Strings (map f l)).

Fixpoint fromEach (refs : list nat) : Run (list string) :=
  match refs with
  | [] => ret []
  | r :: rest =>
      item <- recordAt r ;;
      names <- fromEach rest ;;
      match item with
      | EdgeItem edge => ret (from edge :: names)
      | NodeItem _ => fail
      end
  end.

(** [edges.map(edge => edge.from)] *)
Definition edgeSources (edges : nat) : Run nat :=
  refs <- recordsAt edges ;;
  names <- fromEach refs ;;
  alloc (Strings names).

(** [new Set(array)] for an array of strings. *)
Definition newSet (array : nat) : Run nat :=
  l <- stringsAt array ;;
  alloc (Strings (nodup string_dec l)).

(** [set.has(x)] *)
Definition has (set : nat) (x : string) : Run bool :=
  l <- stringsAt set ;;
  ret (existsb (String.eqb x) l).

Section Explorer.

(** [String.prototype.toLowerCase] and [String.prototype.trim]. *)
Variables toLowerCase trim : string -> string.

Definition generalSearch (nodes : nat) (query : string) : Run nat :=
  let queryLower := toLowerCase query in
  arrayFilter
    (test (atNode (fun node =>
                     if negb (Str.isEmpty (name node))
                        && Str.includes queryLower (toLowerCase (name node))
                     then true
                     else existsb (fun item => Str.includes queryLower (toLowerCase item))
                                  (metadata node))))
    nodes.

(** [findNodes(graph, query)], for a reference [graph] to the array that
    [loadGraph] returned; it returns a reference to an array. *)
Definition findNodes (graph : nat) (query : string) : Run nat :=
  nodes <- arrayFilter (test (atNode (fun _ => true))) graph ;;
  if Str.isEmpty query then ret nodes
  else
    if Str.includes ":" query then
      parts <- alloc (Strings (Str.split ":" query)) ;;
      lowered <- arrayMap (fun part => toLowerCase (trim part)) parts ;;
      fieldAndValue <- stringsAt lowered ;;
      match fieldAndValue with
      | field :: value :: _ =>
          if (field =? "type") || (field =? "nodetype") then
            arrayFilter
              (test (atNode (fun node =>
                               negb (Str.isEmpty (nodeType node))
                               && (toLowerCase (nodeType node) =? value))))
              nodes
          else if field =? "tag" then
            edges <-
              arrayFilter
                (test (atEdge (fun item =>
                                 (edgeType item =? "tagged_with")
                                 && (toLowerCase (to item) =? value))))
                graph ;;
            sources <- edgeSources edges ;;
            nodeNames <- newSet sources ;;
            arrayFilter
              (fun r =>
                 item <- recordAt r ;;
                 match item with
                 | NodeItem node => has nodeNames (name node)
                 | EdgeItem _ => ret false
                 end)
              nodes
          else generalSearch nodes query
      | _ => generalSearch nodes query
      end
    else generalSearch nodes query.

End Explorer.

(** The references [refs] are, in the store, to the records [items]. *)
Definition points (s : Store) (refs : list nat) (items : list GraphItem) : Prop :=
  Forall2 (fun r item => nth_error s r = Some (Record item)) refs items.

(** The store holds the graph [items]: at [graph] the array of the
    references [refs], which are to the records [items]. *)
Definition holds (s : Store) (graph : nat) (refs : list nat) (items : list GraphItem)
  : Prop :=
  nth_error s graph = Some (Records refs) /\ points s refs items.

(** The references among [refs] whose record passes [keep]. *)
Fixpoint select (keep : GraphItem -> bool) (refs : list nat) (items : list GraphItem)
  : list nat :=
  match refs, items with
  | r :: refs', item :: items' =>
      if keep item then r :: select keep refs' items' else select keep refs' items'
  | _, _ => []
  end.

End HeapQueryGraph.

(** A store that holds the town graph twice over: the three records, a copy
    of Garrick's, and the array of the four. *)
Definition townStore : Heap.Store :=
  [ Heap.Record (Graph.NodeItem garrick);
    Heap.Record (Graph.NodeItem tavern);
    Heap.Record (Graph.EdgeItem (Graph.mkEdge "Garrick" "Smiths" "tagged_with"));
    Heap.Record (Graph.NodeItem garrick);
    Heap.Records [0; 1; 2; 3]%nat ].

(* ===================================================================== *)
(** * Properties                                                          *)
(* ===================================================================== *)

(** ** Strings *)

Lemma prefix_hasPrefix (p s : string) :
  prefix p s = true <-> hasPrefix p s.
Proof.
  revert s; induction p as [|c p IH]; intros s; simpl.
  - destruct s; split; intros _; try reflexivity; eexists; reflexivity.
  - destruct s as [|d s]; simpl.
    + split; [discriminate | intros [r Hr]; discriminate].
    + destruct (ascii_dec c d) as [e|Hne].
      * subst d. split.
        -- intros H; apply IH in H; destruct H as [r Hr]; exists r.
           simpl; now rewrite Hr.
        -- intros [r Hr]; apply IH; exists r.
           simpl in Hr; now inversion Hr.
      * split; [discriminate | intros [r Hr]; simpl in Hr; inversion Hr; congruence].
Qed.


(** ** The dispatcher *)

Section DispatchFacts.

Variable G : Type.
Variable formatToolResponse : ResponseOptions -> JsVal.
Variable formatToolError : ErrorOptions -> JsVal.
Variable dynamicTools :
  string -> JsVal -> KnowledgeGraphManager G -> G -> G * completion JsVal.

Local Abbreviation handle :=
  (handleCallToolRequest formatToolResponse formatToolError dynamicTools).

(** Reading a property of a truthy value never throws. *)
Lemma getProp_truthy (v : JsVal) (k : string) :
  truthy v = true -> exists x, getProp v k = Return x.
Proof.
  destruct v; simpl; intros H; try discriminate; eauto.
Qed.

Lemma getProp_not_nullish (v : JsVal) (k : string) :
  isNullish v = false -> exists x, getProp v k = Return x.
Proof.
  destruct v; simpl; intros H; try discriminate; eauto.
Qed.

(** What the runtime itself throws is an [Error] instance. *)
Lemma getProp_throws (v : JsVal) (k : string) (e : JsVal) :
  getProp v k = Throw e -> isNullish e = false.
Proof.
  destruct v; simpl; intros H; inversion H; reflexivity.
Qed.

Lemma join_throws (v : JsVal) (sep : string) (e : JsVal) :
  join v sep = Throw e -> isNullish e = false.
Proof.
  destruct v; simpl; intros H; inversion H; reflexivity.
Qed.

Lemma matchesDynamicPattern_spec (s : string) :
  matchesDynamicPattern s = true <-> dynamicName s.
Proof.
  unfold matchesDynamicPattern, dynamicName.
  rewrite !orb_true_iff, !prefix_hasPrefix. tauto.
Qed.

(** Unfolds one step of the dispatcher's monad at a world. *)
Ltac step :=
  unfold bind, lift, ret, try_catch, invoke, invokeDynamic; simpl.

(** **** C9: a request without arguments is answered with the
    "No arguments provided" error envelope; no operation of the graph
    manager (or of the dynamic tools) is invoked and the world, graph
    included, is left as it was. *)
Theorem handleCallToolRequest_no_arguments
        (name : string) (args : JsVal)
        (knowledgeGraphManager : KnowledgeGraphManager G) (w : World G) :
  truthy args = false ->
  handle (mkRequest name args) knowledgeGraphManager w
  = (w, Return (formatToolError
                  {| operation := name;
                     error := JStr "No arguments provided";
                     context := None;
                     suggestions := ["Provide arguments for the tool call"];
                     recoverySteps := [] |})).
Proof.
  intros Hargs. unfold handleCallToolRequest; simpl.
  rewrite Hargs. reflexivity.
Qed.

(** Case analysis on every comparison of [name] with a tool name. *)
Ltac switch_on name :=
  repeat match goal with
         | |- context [String.eqb name ?s] =>
             destruct (String.eqb_spec name s) as [->|?]; simpl
         end.

(** Runs the remaining, world-preserving steps of a branch. *)
Ltac finish_branch :=
  repeat match goal with
         | |- context [match ?c with Return _ => _ | Throw _ => _ end] =>
             destruct c; simpl
         | |- context [if ?b then _ else _] => destruct b; simpl
         end;
  auto.

(** **** C1: routing of a request that carries arguments.  A built-in
    name makes exactly one call, to its graph-store method; any other name
    with one of the three prefixes makes exactly one call, to the dynamic
    tools, with the request's name and arguments; any other name makes no
    call and is answered with the unknown-tool error. *)
Theorem handleCallToolRequest_routing
        (name : string) (args : JsVal)
        (knowledgeGraphManager : KnowledgeGraphManager G) (w : World G) :
  truthy args = true ->
  let out := handle (mkRequest name args) knowledgeGraphManager w in
  (forall m, builtin name = Some m ->
     exists margs,
       calls (fst out) = (calls w ++ [StoreCall m margs])%list
       /\ graph (fst out) = fst (knowledgeGraphManager m margs (graph w)))
  /\ (builtin name = None -> dynamicName name ->
      calls (fst out) = (calls w ++ [DynamicCall name args])%list
      /\ graph (fst out)
         = fst (dynamicTools name args knowledgeGraphManager (graph w)))
  /\ (builtin name = None -> ~ dynamicName name ->
      out = (w, Return (formatToolError
                          {| operation := name;
                             error := JStr ("Unknown tool: " ++ name);
                             context := None;
                             suggestions := ["Check the list of available tools"];
                             recoverySteps := [] |}))).
Proof.
  intros Hargs out; subst out.
  unfold handleCallToolRequest, builtin; simpl.
  rewrite Hargs; simpl.
  switch_on name;
    try solve
        [ split; [| split; intros; discriminate]; intros m Hm;
          injection Hm as <-; step;
          try match goal with
              | |- context [getProp args ?k] =>
                  destruct (getProp_truthy args k Hargs) as [x ->]
              end;
          match goal with
          | |- context [knowledgeGraphManager ?m ?a ?g] =>
              exists a; destruct (knowledgeGraphManager m a g) as [g' r]
          end;
          destruct r; simpl; finish_branch ].
  split; [intros m Hm; discriminate |].
  split.
  - intros _ Hdyn. apply matchesDynamicPattern_spec in Hdyn.
    rewrite Hdyn. step.
    destruct (dynamicTools name args knowledgeGraphManager (graph w)) as [g' r].
    destruct r; simpl; finish_branch.
  - intros _ Hdyn.
    destruct (matchesDynamicPattern name) eqn:Hm.
    + exfalso. apply Hdyn. now apply matchesDynamicPattern_spec.
    + reflexivity.
Qed.

(** A thrown value that is neither [null] nor [undefined] is always turned
    into a response: the dispatcher returns, whatever the request. *)
Lemma handleCallToolRequest_returns_unless_nullish_throw
      (request : Request)
      (knowledgeGraphManager : KnowledgeGraphManager G) (w : World G) :
  (forall m a g e, snd (knowledgeGraphManager m a g) = Throw e -> isNullish e = false) ->
  (forall n a g e, snd (dynamicTools n a knowledgeGraphManager g) = Throw e ->
                   isNullish e = false) ->
  exists response, snd (handle request knowledgeGraphManager w) = Return response.
Proof.
  intros Hk Hd. destruct request as [name args].
  unfold handleCallToolRequest; simpl.
  destruct (truthy args) eqn:Hargs; simpl; [| eexists; reflexivity].
  assert (Hcatch : forall (body : M G JsVal) w0,
             (forall e, snd (body w0) = Throw e -> isNullish e = false) ->
             exists response,
               snd (try_catch body
                      (fun error =>
                         bind (lift (getProp error "message"))
                              (fun message =>
                                 ret (formatToolError
                                        {| operation := name;
                                           error := message;
                                           context := Some (JObj [("input", args)]);
                                           suggestions :=
                                             ["Review the error message and the provided arguments"];
                                           recoverySteps :=
                                             ["If the error persists, notify the human"] |})))
                      w0) = Return response).
  { intros body w0 Hb. unfold try_catch.
    destruct (body w0) as [w' [a|e]] eqn:Hbody; simpl; [eexists; reflexivity |].
    specialize (Hb e eq_refl).
    destruct (getProp_not_nullish e "message" Hb) as [x Hx].
    unfold bind, lift, ret. rewrite Hx. eexists; reflexivity. }
  apply Hcatch.
  intros e.
  switch_on name; step;
    try match goal with
        | |- context [getProp args ?k] =>
            destruct (getProp_truthy args k Hargs) as [x ->]; simpl
        end;
    try match goal with
        | |- context [knowledgeGraphManager ?m ?a ?g] =>
            specialize (Hk m a g);
            destruct (knowledgeGraphManager m a g) as [g' [r|e0]]; simpl in *;
            [| intros He; injection He as <-; now apply (Hk e0)]
        end;
    repeat match goal with
           | |- context [getProp ?v ?k] =>
               let E := fresh "E" in
               destruct (getProp v k) eqn:E; simpl;
               [| intros He; injection He as <-; now apply getProp_throws in E]
           | |- context [join ?v ?k] =>
               let E := fresh "E" in
               destruct (join v k) eqn:E; simpl;
               [| intros He; injection He as <-; now apply join_throws in E]
           end;
    try discriminate.
  destruct (matchesDynamicPattern name); step; [| discriminate].
  specialize (Hd name args (graph w)).
  destruct (dynamicTools name args knowledgeGraphManager (graph w)) as [g' [r|e0]];
    simpl in *; [| intros He; injection He as <-; now apply (Hd e0)].
  destruct (getProp r "toolResult") eqn:E; simpl;
    [| intros He; injection He as <-; now apply getProp_throws in E].
  destruct (truthy a) eqn:Ha; simpl.
  - destruct (getProp_truthy a "isError" Ha) as [y ->]; simpl.
    destruct (truthy y); discriminate.
  - rewrite Ha. discriminate.
Qed.

End DispatchFacts.

(** A request without arguments, run against the idle manager. *)
Lemma handleCallToolRequest_no_arguments_witness :
  truthy JUndefined = false
  /\ handleCallToolRequest spec_formatToolResponse spec_formatToolError
        idleDynamicTools (mkRequest "add_nodes" JUndefined) idleManager
        (mkWorld tt [])
     = (mkWorld tt [],
        Return (spec_formatToolError
                  {| operation := "add_nodes";
                     error := JStr "No arguments provided";
                     context := None;
                     suggestions := ["Provide arguments for the tool call"];
                     recoverySteps := [] |})).
Proof.
  split; [reflexivity |].
  apply (handleCallToolRequest_no_arguments unit spec_formatToolResponse
           spec_formatToolError idleDynamicTools "add_nodes" JUndefined
           idleManager (mkWorld tt [])).
  reflexivity.
Defined.

(** The routing rule at the request [search_nodes {query: "type:npc"}]. *)
Lemma handleCallToolRequest_routing_witness :
  let args := JObj [("query", JStr "type:npc")] in
  let out := handleCallToolRequest spec_formatToolResponse spec_formatToolError
               idleDynamicTools (mkRequest "search_nodes" args) idleManager
               (mkWorld tt []) in
  truthy args = true
  /\ exists margs, calls (fst out) = [StoreCall searchNodes margs].
Proof.
  split; [reflexivity |].
  destruct (handleCallToolRequest_routing unit spec_formatToolResponse
              spec_formatToolError idleDynamicTools "search_nodes"
              (JObj [("query", JStr "type:npc")]) idleManager (mkWorld tt [])
              eq_refl) as [Hbuiltin _].
  destruct (Hbuiltin searchNodes eq_refl) as [margs [Hcalls _]].
  exists margs. exact Hcalls.
Defined.

(** **** C4 (the code departs from the claim): when a graph-manager method
    rejects with [null], reading [error.message] in the catch block throws,
    and [handleCallToolRequest] itself ends abruptly with that [TypeError]
    instead of returning an error envelope. *)
Theorem handleCallToolRequest_null_rejection_escapes :
  handleCallToolRequest spec_formatToolResponse spec_formatToolError
    idleDynamicTools (mkRequest "read_graph" (JObj [])) rejectingManager
    (mkWorld tt [])
  = (mkWorld tt [StoreCall readGraph []],
     Throw (TypeError "Cannot read properties of null (reading 'message')")).
Proof. reflexivity. Qed.

(** ** The dynamic-tool registry *)

Section RegistryFacts.

Variables G Env : Type.
Variable formatToolError : ErrorOptions -> JsVal.
Variable initializeDynamicTools :
  Env -> Env * completion (IDynamicSchemaToolRegistry G).

Local Abbreviation init := (initialize initializeDynamicTools).

Lemma initialize_success_initialized this env this' env' :
  init this env = (this', env', Return tt) -> initialized this' = true.
Proof.
  unfold initialize.
  destruct (initialized this) eqn:Hi.
  - intros H; inversion H; subst; exact Hi.
  - destruct (initializeDynamicTools env) as [env1 [r|e]]; intros H; inversion H.
    reflexivity.
Qed.

Lemma neverInitialized_flag (this : DynamicToolManager G) :
  neverInitialized initializeDynamicTools this -> initialized this = false.
Proof.
  induction 1 as [| this env this' env' e Hprev IH Hinit].
  - reflexivity.
  - unfold initialize in Hinit. rewrite IH in Hinit.
    destruct (initializeDynamicTools env) as [env1 [r|e1]];
      inversion Hinit; subst; exact IH.
Qed.

(** **** C5: one-time initialization.  Once [initialize] has succeeded, a
    further [initialize] returns at once: the manager is the same and the
    schema directory is not read again.  Before any successful
    initialization [handleToolCall] answers with the "Dynamic tools not
    initialized" error and runs no tool: the graph state is untouched. *)
Theorem initialize_once_contract :
  (forall this env this' env',
      init this env = (this', env', Return tt) ->
      forall env2, init this' env2 = (this', env2, Return tt))
  /\ (forall this,
        neverInitialized initializeDynamicTools this ->
        forall toolName args knowledgeGraphManager g,
          handleToolCall formatToolError this toolName args knowledgeGraphManager g
          = (g, Return (formatToolError
                          {| operation := toolName;
                             error := JStr "Dynamic tools not initialized";
                             context := None;
                             suggestions :=
                               ["Ensure dynamic tools are initialized before making tool calls"];
                             recoverySteps := [] |}))).
Proof.
  split.
  - intros this env this' env' Hok env2.
    apply initialize_success_initialized in Hok.
    unfold initialize. rewrite Hok. reflexivity.
  - intros this Hnever toolName args kgm g.
    apply neverInitialized_flag in Hnever.
    unfold handleToolCall. rewrite Hnever. reflexivity.
Qed.

(** **** C10: before any successful initialization [isDynamicTool] returns
    [false] for every name; it does not throw. *)
Theorem isDynamicTool_before_initialization (this : DynamicToolManager G)
        (toolName : string) :
  neverInitialized initializeDynamicTools this ->
  isDynamicTool this toolName = Return false.
Proof.
  intros Hnever. apply neverInitialized_flag in Hnever.
  unfold isDynamicTool. rewrite Hnever. reflexivity.
Qed.

End RegistryFacts.

(** [isDynamicTool] after one failed attempt to read the schemas. *)
Lemma isDynamicTool_before_initialization_witness :
  neverInitialized brokenSchemas (fst (fst (initialize brokenSchemas getInstance tt)))
  /\ isDynamicTool (fst (fst (initialize brokenSchemas getInstance tt))) "add_npc"
     = Return false.
Proof.
  assert (H : neverInitialized brokenSchemas
                (fst (fst (initialize brokenSchemas getInstance tt)))).
  { apply (never_failed unit unit brokenSchemas getInstance tt _ tt
             (JError "Error" "Dynamic tools initialization failed")).
    - apply never_fresh.
    - reflexivity. }
  split; [exact H |].
  exact (isDynamicTool_before_initialization unit unit brokenSchemas _ "add_npc" H).
Defined.

Lemma includes_spec (needle hay : string) :
  Str.includes needle hay = true
  <-> exists before after, hay = before ++ needle ++ after.
Proof.
  induction hay as [|c hay IH]; cbn [Str.includes].
  - rewrite orb_false_r. split.
    + intros H. apply prefix_hasPrefix in H. destruct H as [r Hr].
      exists "", r. exact Hr.
    + intros [b [a H]]. apply prefix_hasPrefix.
      destruct b; simpl in H; [exists a; exact H | discriminate].
  - rewrite orb_true_iff. split.
    + intros [H|H].
      * apply prefix_hasPrefix in H. destruct H as [r Hr].
        exists "", r. exact Hr.
      * apply IH in H. destruct H as [b [a H]].
        exists (String c b), a. simpl. now rewrite H.
    + intros [b [a H]]. destruct b as [|d b]; simpl in H.
      * left. apply prefix_hasPrefix. exists a. exact H.
      * right. apply IH. inversion H. exists b, a. reflexivity.
Qed.

Lemma isEmpty_spec (s : string) : Str.isEmpty s = true <-> s = "".
Proof. destruct s; simpl; split; intros H; try reflexivity; discriminate. Qed.

Lemma append_empty (a b : string) : a ++ b = "" -> a = "" /\ b = "".
Proof. destruct a; simpl; intros H; [split; auto | discriminate]. Qed.

Lemma append_assoc (a b c : string) : (a ++ b) ++ c = a ++ (b ++ c).
Proof. induction a; simpl; [reflexivity | now rewrite IHa]. Qed.

(** *** Splitting at a separator *)

Section SplitFacts.

Variable sep : ascii.

Local Abbreviation sepFree := (Str.charFree sep).

Lemma split_nonempty (s : string) : Str.split sep s <> [].
Proof.
  destruct s as [|c r]; simpl; [discriminate |].
  destruct (Ascii.eqb c sep); [discriminate |].
  destruct (Str.split sep r); discriminate.
Qed.

Lemma split_sepFree (s : string) : sepFree s -> Str.split sep s = [s].
Proof.
  unfold Str.charFree. induction s as [|c r IH]; simpl; intros H; [reflexivity |].
  destruct (Ascii.eqb_spec c sep) as [->|Hne]; [exfalso; apply H; now left |].
  rewrite IH; [reflexivity | intros Hin; apply H; now right].
Qed.

Lemma split_at_sep (f r : string) :
  sepFree f -> Str.split sep (f ++ String sep r) = f :: Str.split sep r.
Proof.
  unfold Str.charFree. induction f as [|c f IH]; simpl; intros H.
  - now rewrite Ascii.eqb_refl.
  - destruct (Ascii.eqb_spec c sep) as [->|Hne]; [exfalso; apply H; now left |].
    rewrite IH; [reflexivity | intros Hin; apply H; now right].
Qed.

(** A string that holds the separator splits into at least two parts: the
    text before the first separator and the text up to the next one. *)
Lemma split_decompose (s : string) :
  In sep (list_ascii_of_string s) ->
  exists f v rest,
    s = f ++ String sep (v ++ rest)
    /\ sepFree f /\ sepFree v
    /\ (rest = "" \/ hasPrefix (String sep "") rest).
Proof.
  assert (Hone : forall t, exists v rest,
             t = v ++ rest /\ sepFree v
             /\ (rest = "" \/ hasPrefix (String sep "") rest)).
  { induction t as [|c t [v [rest [Ht [Hv Hr]]]]].
    - exists "", "". repeat split; auto. intros [].
    - destruct (Ascii.eqb_spec c sep) as [->|Hne].
      + exists "", (String sep t). repeat split; auto; [intros [] |].
        right. exists t. reflexivity.
      + exists (String c v), rest. repeat split; auto.
        * simpl. now rewrite Ht.
        * intros [Hc|Hin]; [congruence | now apply Hv]. }
  induction s as [|c s IH]; simpl; intros Hin; [destruct Hin |].
  destruct (Ascii.eqb_spec c sep) as [->|Hne].
  - destruct (Hone s) as [v [rest [Hs [Hv Hr]]]].
    exists "", v, rest. simpl. rewrite <- Hs. repeat split; auto. intros [].
  - destruct Hin as [Hc|Hin]; [congruence |].
    destruct (IH Hin) as [f [v [rest [Hs [Hf [Hv Hr]]]]]].
    exists (String c f), v, rest. simpl. rewrite <- Hs. repeat split; auto.
    intros [Hc|Hin']; [congruence | now apply Hf].
Qed.

Lemma split_first_two (f v rest : string) :
  sepFree f -> sepFree v ->
  rest = "" \/ hasPrefix (String sep "") rest ->
  exists tail, Str.split sep (f ++ String sep (v ++ rest)) = f :: v :: tail.
Proof.
  intros Hf Hv Hrest. rewrite (split_at_sep f _ Hf).
  destruct Hrest as [->|[r ->]].
  - exists []. replace (v ++ "") with v.
    + now rewrite (split_sepFree v Hv).
    + clear. induction v; simpl; [reflexivity | now rewrite <- IHv].
  - exists (Str.split sep r). simpl. now rewrite (split_at_sep v r Hv).
Qed.

(** Lines that do not hold the separator are found again after a join. *)
Lemma split_concat (lines : list string) :
  lines <> [] ->
  Forall sepFree lines ->
  Str.split sep (String.concat (String sep "") lines) = lines.
Proof.
  induction lines as [|x [|y lines] IH]; intros Hne Hfree; [congruence | |].
  - apply split_sepFree. now inversion Hfree.
  - change (String.concat (String sep "") (x :: y :: lines))
      with (x ++ String sep "" ++ String.concat (String sep "") (y :: lines)).
    change (String sep "" ++ ?r) with (String sep r).
    inversion Hfree as [|? ? Hx Hrest]; subst.
    rewrite (split_at_sep x _ Hx). f_equal. apply IH; [discriminate | exact Hrest].
Qed.

End SplitFacts.

Lemma includes_char (c : ascii) (s : string) :
  Str.includes (String c "") s = true <-> In c (list_ascii_of_string s).
Proof.
  rewrite includes_spec. split.
  - intros [b [a ->]]. induction b; simpl; auto.
  - induction s as [|d s IH]; simpl; intros H; [destruct H |].
    destruct H as [->|H].
    + exists "", s. reflexivity.
    + destruct (IH H) as [b [a ->]]. exists (String d b), a. reflexivity.
Qed.

(** ** The explorer's search (queryGraph.js) *)

Section QueryFacts.

Import Graph.

Variables toLowerCase trim : string -> string.

Local Abbreviation generalSearch := (QueryGraph.generalSearch toLowerCase).
Local Abbreviation findNodes := (QueryGraph.findNodes toLowerCase trim).
Local Abbreviation containsIgnoringCase := (SearchSpec.containsIgnoringCase toLowerCase).
Local Abbreviation hasForm := (SearchSpec.hasForm toLowerCase trim).
Local Abbreviation matchesType := (SearchSpec.matchesType toLowerCase).
Local Abbreviation matchesTag := (SearchSpec.matchesTag toLowerCase).
Local Abbreviation matchesText := (SearchSpec.matchesText toLowerCase).

Hypothesis lower_law : Str.lowerCaseLaw toLowerCase.

Lemma In_nodesOf (graph : list GraphItem) (n : Node) :
  In n (nodesOf graph) <-> In (NodeItem n) graph.
Proof.
  induction graph as [|[m|e] graph IH]; simpl.
  - tauto.
  - rewrite IH. split; intros [H|H]; auto; left; congruence.
  - rewrite IH. split; [auto | intros [H|H]; [discriminate | auto]].
Qed.

Lemma In_edgesOf (graph : list GraphItem) (e : Edge) :
  In e (edgesOf graph) <-> In (EdgeItem e) graph.
Proof.
  induction graph as [|[m|d] graph IH]; simpl.
  - tauto.
  - rewrite IH. split; [auto | intros [H|H]; [discriminate | auto]].
  - rewrite IH. split; intros [H|H]; auto; left; congruence.
Qed.

Lemma includes_containsIgnoringCase (hay needle : string) :
  Str.includes (toLowerCase needle) (toLowerCase hay) = true
  <-> containsIgnoringCase hay needle.
Proof. apply includes_spec. Qed.

(** The general search returns the nodes that match the text. *)
Lemma generalSearch_spec (graph : list GraphItem) (query : string) (n : Node) :
  query <> "" ->
  In n (generalSearch (nodesOf graph) query)
  <-> In (NodeItem n) graph /\ matchesText query n.
Proof.
  intros Hquery. unfold QueryGraph.generalSearch, SearchSpec.matchesText.
  rewrite filter_In, In_nodesOf.
  split; intros [Hin H]; split; auto.
  - destruct (negb (Str.isEmpty (name n))
              && Str.includes (toLowerCase query) (toLowerCase (name n)))
             eqn:Hname.
    + left. apply andb_true_iff in Hname.
      now apply includes_containsIgnoringCase.
    + right. apply existsb_exists in H. destruct H as [line [Hl Hinc]].
      exists line. split; auto. now apply includes_containsIgnoringCase.
  - destruct H as [Hname | [line [Hl Hc]]].
    + apply includes_containsIgnoringCase in Hname.
      destruct (Str.isEmpty (name n)) eqn:He; simpl.
      * (* an empty name contains only the empty query *)
        apply isEmpty_spec in He. rewrite He in Hname.
        rewrite (proj2 (lower_law "") eq_refl) in Hname.
        apply includes_spec in Hname. destruct Hname as [b [a Hba]].
        symmetry in Hba. apply append_empty in Hba. destruct Hba as [_ Hba].
        apply append_empty in Hba. destruct Hba as [Hq _].
        destruct (Hquery (proj1 (lower_law query) Hq)).
      * now rewrite Hname.
    + destruct (negb (Str.isEmpty (name n))
                && Str.includes (toLowerCase query) (toLowerCase (name n)));
        [reflexivity |].
      apply existsb_exists. exists line. split; auto.
      now apply includes_containsIgnoringCase.
Qed.

(** A query of the form [<field>:<value>] is split into these two parts. *)
Lemma hasForm_split (query field value : string) :
  hasForm query field value ->
  Str.isEmpty query = false
  /\ Str.includes ":" query = true
  /\ exists tail,
      map (fun part => toLowerCase (trim part)) (Str.split ":" query)
      = field :: value :: tail.
Proof.
  intros [f [v [rest [Hq [Hf [Hv [Hrest [Hfield Hvalue]]]]]]]].
  subst query field value. split; [| split].
  - destruct f; reflexivity.
  - apply includes_spec. exists f, (v ++ rest). reflexivity.
  - destruct (split_first_two ":" f v rest Hf Hv Hrest) as [tail Htail].
    change (f ++ ":" ++ v ++ rest) with (f ++ String ":" (v ++ rest)).
    rewrite Htail. simpl. eexists; reflexivity.
Qed.

(** Every query that holds a colon has such a form. *)
Lemma includes_colon_hasForm (query : string) :
  Str.includes ":" query = true -> exists field value, hasForm query field value.
Proof.
  intros H. apply includes_char in H.
  destruct (split_decompose ":" query H) as [f [v [rest [Hq [Hf [Hv Hrest]]]]]].
  exists (toLowerCase (trim f)), (toLowerCase (trim v)), f, v, rest.
  repeat split; auto.
Qed.

(** **** C2, as the code has it: a query [type:<nodeType>] (or
    [nodetype:<nodeType>]) returns exactly the nodes whose non-empty nodeType
    is <nodeType> up to letter case; a query [tag:<tagName>] returns exactly
    the nodes named by the [from] of a [tagged_with] edge whose [to] is
    <tagName> up to letter case; every other query returns exactly the nodes
    whose name or one of whose metadata lines contains the query, letter
    case ignored.  Field and value are read trimmed. *)
Theorem findNodes_by_query_form (graph : list GraphItem) (query : string) :
  (forall value,
      hasForm query "type" value \/ hasForm query "nodetype" value ->
      forall n, In n (findNodes graph query)
                <-> In (NodeItem n) graph /\ matchesType value n)
  /\ (forall value,
        hasForm query "tag" value ->
        forall n, In n (findNodes graph query)
                  <-> In (NodeItem n) graph /\ matchesTag graph value n)
  /\ ((forall field value,
         hasForm query field value ->
         field <> "type" /\ field <> "nodetype" /\ field <> "tag") ->
      forall n, In n (findNodes graph query)
                <-> In (NodeItem n) graph /\ matchesText query n).
Proof.
  split; [| split].
  - intros value Hform n.
    assert (Hsplit : exists field tail,
               (field = "type" \/ field = "nodetype")
               /\ Str.isEmpty query = false
               /\ Str.includes ":" query = true
               /\ map (fun part => toLowerCase (trim part))
                      (Str.split ":" query) = field :: value :: tail).
    { destruct Hform as [H|H]; apply hasForm_split in H;
        destruct H as [He [Hi [tail Ht]]]; eauto 8. }
    destruct Hsplit as [field [tail [Hfield [He [Hi Ht]]]]].
    unfold QueryGraph.findNodes. rewrite He, Hi, Ht.
    replace ((field =? "type") || (field =? "nodetype")) with true
      by (destruct Hfield; subst field; reflexivity).
    rewrite filter_In, In_nodesOf. unfold SearchSpec.matchesType.
    rewrite andb_true_iff, negb_true_iff, String.eqb_eq.
    assert (Hne : Str.isEmpty (nodeType n) = false <-> nodeType n <> "").
    { destruct (nodeType n); simpl; split; congruence. }
    rewrite Hne. reflexivity.
  - intros value Hform n.
    apply hasForm_split in Hform. destruct Hform as [He [Hi [tail Ht]]].
    unfold QueryGraph.findNodes. rewrite He, Hi, Ht. simpl.
    rewrite filter_In, In_nodesOf. unfold SearchSpec.matchesTag.
    rewrite existsb_exists.
    split; intros [Hin H]; split; auto.
    + destruct H as [x [Hx Heq]]. apply String.eqb_eq in Heq.
      apply in_map_iff in Hx. destruct Hx as [e [Hfrom He']].
      apply filter_In in He'. destruct He' as [He' Hcond].
      apply andb_true_iff in Hcond. destruct Hcond as [Hty Hto].
      apply String.eqb_eq in Hty, Hto.
      exists e. rewrite <- In_edgesOf. repeat split; auto. congruence.
    + destruct H as [e [Hin' [Hty [Hto Hfrom]]]].
      exists (from e). split; [| apply String.eqb_eq; congruence].
      apply in_map. apply filter_In. split; [now apply In_edgesOf |].
      apply andb_true_iff. split; now apply String.eqb_eq.
  - intros Hdefault n.
    unfold QueryGraph.findNodes.
    destruct (Str.isEmpty query) eqn:He.
    + (* the empty query: every node is returned, and every text contains it *)
      apply isEmpty_spec in He. subst query.
      rewrite In_nodesOf. split; [| tauto].
      intros Hin. split; auto. left.
      exists (toLowerCase (name n)), "". simpl.
      rewrite (proj2 (lower_law "") eq_refl). cbn [append].
      clear. induction (toLowerCase (name n)); simpl; [reflexivity | now rewrite <- IHs].
    + assert (Hq : query <> "") by (intros ->; discriminate).
      destruct (Str.includes ":" query) eqn:Hi;
        [| now apply generalSearch_spec].
      destruct (includes_colon_hasForm query Hi) as [field [value Hform]].
      destruct (Hdefault field value Hform) as [H1 [H2 H3]].
      apply hasForm_split in Hform. destruct Hform as [_ [_ [tail Ht]]].
      rewrite Ht.
      apply String.eqb_neq in H1, H2, H3. rewrite H1, H2, H3. simpl.
      now apply generalSearch_spec.
Qed.

End QueryFacts.

(** ** The built-ins on ASCII text *)

Lemma asciiToLowerCase_law : Str.lowerCaseLaw Str.asciiToLowerCase.
Proof.
  intros s. destruct s; simpl; split; intros H; try reflexivity; discriminate.
Qed.

Lemma asciiTrimEnd_empty (s : string) (c : ascii) :
  Str.asciiTrimEnd s = "" -> In c (list_ascii_of_string s) -> Str.isSpace c = true.
Proof.
  induction s as [|d s IH]; [intros _ [] |].
  cbn [Str.asciiTrimEnd list_ascii_of_string].
  destruct (Str.asciiTrimEnd s) eqn:Hs; [| discriminate].
  destruct (Str.isSpace d) eqn:Hd; [| discriminate].
  intros _ [<-|Hin]; [exact Hd | now apply IH].
Qed.

Lemma asciiTrimStart_keeps (s : string) (c : ascii) :
  In c (list_ascii_of_string s) -> Str.isSpace c = false ->
  In c (list_ascii_of_string (Str.asciiTrimStart s)).
Proof.
  induction s as [|d s IH]; [intros [] |].
  intros Hin Hc. cbn [Str.asciiTrimStart].
  destruct (Str.isSpace d) eqn:Hd; [| exact Hin].
  destruct Hin as [<-|Hin]; [congruence | now apply IH].
Qed.

Lemma isGraphic_not_space (c : ascii) : Str.isGraphic c = true -> Str.isSpace c = false.
Proof.
  unfold Str.isGraphic, Str.isSpace. intros H.
  apply andb_true_iff in H. destruct H as [Hlow Hhigh].
  apply Nat.leb_le in Hlow. apply Nat.leb_le in Hhigh.
  apply orb_false_iff. split.
  - apply andb_false_iff. right. apply Nat.leb_gt. lia.
  - apply Nat.eqb_neq. lia.
Qed.

Lemma asciiTrim_law : Str.trimLaw Str.asciiTrim.
Proof.
  split; [reflexivity |].
  intros s c Hin Hc Hempty. unfold Str.asciiTrim in Hempty.
  apply isGraphic_not_space in Hc.
  pose proof (asciiTrimEnd_empty _ c Hempty (asciiTrimStart_keeps s c Hin Hc)).
  congruence.
Qed.

(** **** C2 as stated fails: the query [type:NPC] returns a node whose
    nodeType is [npc], not [NPC]; the comparison ignores letter case. *)
Lemma findNodes_type_ignores_case :
  let garrick := Graph.mkNode "Garrick" "npc" ["Role: Blacksmith"] in
  QueryGraph.findNodes Str.asciiToLowerCase Str.asciiTrim
                       [Graph.NodeItem garrick] "type:NPC"
  = [garrick]
  /\ Graph.nodeType garrick <> "NPC".
Proof. split; [reflexivity | discriminate]. Qed.

(** ** The importer (VigVaultParser.js) *)

(** One step of a sequence that went through: its value, by name. *)
Ltac bind_as H a E :=
  match type of H with
  | andThen ?c _ = Return _ =>
      destruct c as [a|?] eqn:E; cbn [andThen] in H; [| discriminate H]
  end.

Section ImporterFacts.

Import VigVaultParser.

Variable convertedGreaterThanZero : JsVal -> completion bool.

Local Abbreviation nonEmpty := (VigVaultParser.nonEmpty convertedGreaterThanZero).
Local Abbreviation listLine := (VigVaultParser.listLine convertedGreaterThanZero).
Local Abbreviation edgesFrom := (VigVaultParser.edgesFrom convertedGreaterThanZero).
Local Abbreviation extractNode := (VigVaultParser.extractNode convertedGreaterThanZero).
Local Abbreviation extractNodeFromFile :=
  (VigVaultParser.extractNodeFromFile convertedGreaterThanZero).
Local Abbreviation addFileTags := (VigVaultParser.addFileTags convertedGreaterThanZero).
Local Abbreviation addFile := (VigVaultParser.addFile convertedGreaterThanZero).
Local Abbreviation collect := (VigVaultParser.collect convertedGreaterThanZero).
Local Abbreviation createExtraNodes :=
  (VigVaultParser.createExtraNodes convertedGreaterThanZero).
Local Abbreviation processVigVaultFiles :=
  (VigVaultParser.processVigVaultFiles convertedGreaterThanZero).

(** *** Sets in insertion order *)

Lemma setAdd_In (x y : string) (set : list string) :
  In y (setAdd x set) <-> y = x \/ In y set.
Proof.
  unfold setAdd. destruct (existsb (String.eqb x) set) eqn:Hx.
  - apply existsb_exists in Hx. destruct Hx as [z [Hz Heq]].
    apply String.eqb_eq in Heq. subst z.
    split; [auto | intros [->|H]; auto].
  - rewrite in_app_iff. simpl. split.
    + intros [H|[H|[]]]; auto.
    + intros [H|H]; auto.
Qed.


(** Two values that a [Set] takes for one are one value. *)
Lemma sameValueZero_eq (a b : JsVal) : sameValueZero a b = true -> a = b.
Proof.
  destruct a, b; simpl; intros H; try discriminate; try reflexivity.
  - apply Bool.eqb_prop in H. now subst.
  - apply Z.eqb_eq in H. now subst.
  - apply String.eqb_eq in H. now subst.
Qed.


Lemma addTopic_In (x y : JsVal) (set : list JsVal) :
  In y (addTopic x set) <-> y = x \/ In y set.
Proof.
  unfold addTopic. destruct (existsb (sameValueZero x) set) eqn:Hx.
  - apply existsb_exists in Hx. destruct Hx as [z [Hz Heq]].
    apply sameValueZero_eq in Heq. subst z.
    split; [auto | intros [->|H]; auto].
  - rewrite in_app_iff. simpl. split.
    + intros [H|[H|[]]]; auto.
    + intros [H|H]; auto.
Qed.


Lemma addTopics_In (topics set : list JsVal) (x : JsVal) :
  In x (fold_left (fun set topic => addTopic topic set) topics set)
  <-> In x topics \/ In x set.
Proof.
  revert set. induction topics as [|t topics IH]; intros set; simpl.
  - tauto.
  - rewrite IH, addTopic_In. split; intros [H|H]; auto.
    + destruct H; auto.
    + destruct H; auto.
Qed.


Lemma addTags_keeps (tags : list JsVal) (set : list string) (x : string) :
  In x set -> In x (addTags tags set).
Proof.
  revert set. induction tags as [|tag tags IH]; intros set H; simpl; auto.
  destruct (tagName tag); auto. apply IH. apply setAdd_In. now right.
Qed.



Lemma tagEdges_shape (fileName : string) (tags : list JsVal) :
  forall edges e,
    tagEdges fileName tags = Return edges -> In e edges ->
    from e = fileName /\ edgeType e = "tagged_with".
Proof.
  induction tags as [|tag tags IH]; intros edges e Hedges Hin; simpl in *.
  - injection Hedges as <-. destruct Hin.
  - destruct (tagName tag) as [t|err]; [| discriminate]. simpl in Hedges.
    destruct (tagEdges fileName tags) as [edges'|err] eqn:Hrest; [| discriminate].
    injection Hedges as <-. destruct Hin as [<-|Hin]; [split; reflexivity |].
    eapply IH; eauto.
Qed.

Lemma linkEdges_shape (fileName type : string) (links : list JsVal) (e : Edge) :
  In e (linkEdges fileName type links) -> from e = fileName /\ edgeType e = type.
Proof.
  induction links as [|link links IH]; simpl; [intros [] |].
  destruct link; auto. intros [<-|H]; auto.
Qed.

(** *** One file *)

Local Abbreviation loopsOver := (VigVaultParser.loopsOver convertedGreaterThanZero).

Lemma edgesFrom_loops (frontmatter v : JsVal) (key : string)
      (body : list JsVal -> completion (list Edge)) (edges : list Edge) :
  body [] = Return [] ->
  getProp frontmatter key = Return v ->
  edgesFrom v body = Return edges ->
  exists l, loopsOver frontmatter key l /\ body l = Return edges.
Proof.
  intros Hbody Hv. unfold VigVaultParser.edgesFrom.
  destruct (nonEmpty v) as [[|]|err] eqn:Hfilled; cbn [andThen]; [| | discriminate].
  - destruct v; cbn [forEach]; try discriminate.
    intros H. exists elems. split; [| exact H].
    exists (JArr elems). split; [exact Hv | left; auto].
  - intros H. injection H as <-. exists []. split; [| exact Hbody].
    exists v. split; [exact Hv | right; auto].
Qed.

Lemma listLine_loops (frontmatter v : JsVal) (key label : string) (lines : list string) :
  getProp frontmatter key = Return v ->
  listLine label v = Return lines ->
  exists l, loopsOver frontmatter key l.
Proof.
  intros Hv. unfold VigVaultParser.listLine.
  destruct (nonEmpty v) as [[|]|err] eqn:Hfilled; cbn [andThen]; [| | discriminate].
  - destruct v; cbn [joinValues andThen]; try discriminate.
    intros _. exists elems. exists (JArr elems). split; [exact Hv | left; auto].
  - intros _. exists []. exists v. split; [exact Hv | right; auto].
Qed.

(** The loop over an entry goes through one list only. *)
Lemma loopsOver_once (frontmatter : JsVal) (key : string) (l l' : list JsVal) :
  loopsOver frontmatter key l -> loopsOver frontmatter key l' -> l = l'.
Proof.
  intros [v [Hv H]] [v' [Hv' H']]. rewrite Hv in Hv'. injection Hv' as <-.
  destruct H as [[Hf ->]|[Hf ->]], H' as [[Hf' H']|[Hf' ->]];
    try congruence.
Qed.

(** What a file that gives a node gives: its name is the name of the file,
    and its edges are those of the four loops, in the order of the code. *)
Lemma extractNode_parts (filePath : string) (frontmatter : JsVal)
      (node : Node) (edges : list Edge) :
  extractNode filePath frontmatter = Return (node, edges) ->
  exists related topics tags up tagged,
    loopsOver frontmatter "related" related
    /\ loopsOver frontmatter "in" topics
    /\ loopsOver frontmatter "tags" tags
    /\ loopsOver frontmatter "up" up
    /\ tagEdges (basename filePath ".md") tags = Return tagged
    /\ name node = JStr (basename filePath ".md")
    /\ (nodeType node = "project" \/ nodeType node = "idea"
        \/ nodeType node = "knowledge")
    /\ edges
       = (linkEdges (basename filePath ".md") "related_to" related
          ++ map (fun topic => mkEdge (basename filePath ".md") topic "belongs_to_topic")
                 topics
          ++ tagged
          ++ linkEdges (basename filePath ".md") "part_of" up)%list.
Proof.
  unfold VigVaultParser.extractNode. intros H.
  bind_as H type Htype.
  bind_as H created Hcreated. bind_as H createdLine HcreatedLine.
  bind_as H year Hyear. bind_as H yearLine HyearLine.
  bind_as H encountered Hencountered. bind_as H encounteredLine HencounteredLine.
  bind_as H status Hstatus. bind_as H statusLine HstatusLine.
  bind_as H tags Htags. bind_as H tagsLine HtagsLine.
  bind_as H topics Htopics. bind_as H topicsLine HtopicsLine.
  bind_as H related Hrelated. bind_as H relatedE HrelatedE.
  bind_as H topicE HtopicE. bind_as H taggedE HtaggedE.
  bind_as H up Hup. bind_as H upE HupE.
  injection H as <- <-.
  destruct (edgesFrom_loops _ _ _ _ _ eq_refl Hrelated HrelatedE) as [lr [Hlr Her]].
  destruct (edgesFrom_loops _ _ _ _ _ eq_refl Htopics HtopicE) as [lt [Hlt Het]].
  destruct (edgesFrom_loops _ _ _ _ _ eq_refl Htags HtaggedE) as [lg [Hlg Heg]].
  destruct (edgesFrom_loops _ _ _ _ _ eq_refl Hup HupE) as [lu [Hlu Heu]].
  injection Her as <-. injection Het as <-. injection Heu as <-.
  exists lr, lt, lg, lu, taggedE.
  repeat (split; [assumption || reflexivity |]).
  split.
  - cbn [nodeType].
    destruct (Str.includes PROJECTS_PATH filePath); [injection Htype as <-; auto |].
    cbn [andThen] in Htype.
    destruct (truthy tags); [| injection Htype as <-; auto].
    destruct (includesIdea tags) as [[|]|]; cbn [andThen] in Htype;
      [injection Htype as <-; auto | injection Htype as <-; auto | discriminate].
  - cbn [List.concat]. now rewrite app_nil_r.
Qed.

(** *** The sets of topics and tags *)

(** What the tags step of a file can do to the set of tags. *)
Lemma addFileTags_cases (frontmatter : JsVal) (tags' : list string) :
  addFileTags frontmatter tags' = tags'
  \/ exists l,
      getProp frontmatter "tags" = Return (JArr l)
      /\ addFileTags frontmatter tags' = addTags l tags'.
Proof.
  unfold VigVaultParser.addFileTags.
  destruct (getProp frontmatter "tags") as [v|]; cbn [andThen]; [| now left].
  destruct (nonEmpty v) as [[|]|]; cbn [andThen]; [| destruct v; now left | now left].
  destruct v; try (now left). right. eauto.
Qed.

(** What one file can do to the two sets. *)
Lemma addFile_cases (frontmatter : JsVal) (sets : list JsVal * list string) :
  addFile frontmatter sets = sets
  \/ (exists l,
         getProp frontmatter "in" = Return (JArr l)
         /\ addFile frontmatter sets
            = (fold_left (fun set topic => addTopic topic set) l (fst sets),
               addFileTags frontmatter (snd sets)))
  \/ addFile frontmatter sets = (fst sets, addFileTags frontmatter (snd sets)).
Proof.
  unfold VigVaultParser.addFile.
  destruct (getProp frontmatter "in") as [v|]; cbn [andThen]; [| now left].
  destruct (nonEmpty v) as [[|]|]; cbn [andThen];
    [| destruct v; now (right; right) | now left].
  destruct v; try (now left). right. left. eauto.
Qed.

Lemma addFile_loops (frontmatter : JsVal) (sets : list JsVal * list string)
      (topics tags : list JsVal) :
  loopsOver frontmatter "in" topics ->
  loopsOver frontmatter "tags" tags ->
  addFile frontmatter sets
  = (fold_left (fun set topic => addTopic topic set) topics (fst sets),
     addTags tags (snd sets)).
Proof.
  intros [v [Hv Hin]] [w [Hw Htags]].
  assert (Hstep : addFileTags frontmatter (snd sets) = addTags tags (snd sets)).
  { unfold VigVaultParser.addFileTags. rewrite Hw. cbn [andThen].
    destruct Htags as [[-> ->]|[-> ->]]; cbn [andThen]; [reflexivity |].
    destruct w; reflexivity. }
  unfold VigVaultParser.addFile. rewrite Hv. cbn [andThen].
  destruct Hin as [[-> ->]|[-> ->]]; cbn [andThen].
  - now rewrite Hstep.
  - rewrite Hstep. destruct v; reflexivity.
Qed.

Lemma addFile_keeps (frontmatter : JsVal) (sets : list JsVal * list string) :
  (forall x, In x (fst sets) -> In x (fst (addFile frontmatter sets)))
  /\ (forall t, In t (snd sets) -> In t (snd (addFile frontmatter sets))).
Proof.
  assert (Htags : forall t, In t (snd sets) ->
                            In t (addFileTags frontmatter (snd sets))).
  { intros t Ht. destruct (addFileTags_cases frontmatter (snd sets)) as [->|[l [_ ->]]];
      [exact Ht | now apply addTags_keeps]. }
  destruct (addFile_cases frontmatter sets) as [->|[[l [_ ->]]| ->]]; cbn [fst snd];
    split; auto.
  intros x Hx. apply addTopics_In. now right.
Qed.


(** *** All files *)

Lemma collect_keeps (files : list MarkdownFile) :
  forall sets,
    (forall x, In x (fst sets) -> In x (fst (collect files sets)))
    /\ (forall t, In t (snd sets) -> In t (snd (collect files sets))).
Proof.
  induction files as [|file files IH]; intros sets; cbn [VigVaultParser.collect];
    [tauto |].
  destruct (content file) as [fm|]; [| apply IH].
  destruct (addFile_keeps fm sets) as [Htopics Htags].
  destruct (IH (addFile fm sets)) as [IHtopics IHtags].
  split; auto.
Qed.



Lemma definedNodes_app (a b : list (option Node * list Edge)) :
  definedNodes (a ++ b) = (definedNodes a ++ definedNodes b)%list.
Proof.
  induction a as [|[[n|] e] a IH]; simpl; [reflexivity | now rewrite IH | exact IH].
Qed.

Lemma definedNodes_some {A : Type} (f : A -> Node) (l : list A) :
  definedNodes (map (fun x => (Some (f x), [])) l) = map f l.
Proof. induction l; simpl; [reflexivity | now rewrite IHl]. Qed.

Lemma flat_map_no_edges {A : Type} (f : A -> option Node) (l : list A) :
  flat_map snd (map (fun x => (f x, @nil Edge)) l) = [].
Proof. induction l; simpl; auto. Qed.

Lemma createExtraNodes_nodes (files : list MarkdownFile) :
  definedNodes (createExtraNodes files)
  = (map (fun topic => mkNode topic "topic" []) (fst (collect files ([], [])))
     ++ map (fun tag => mkNode (JStr tag) "tag" []) (snd (collect files ([], []))))%list
  /\ flat_map snd (createExtraNodes files) = [].
Proof.
  unfold VigVaultParser.createExtraNodes.
  destruct (collect files ([], [])) as [topics tags'].
  simpl. split.
  - rewrite definedNodes_app.
    now rewrite (definedNodes_some (fun topic => mkNode topic "topic" [])),
                (definedNodes_some (fun tag => mkNode (JStr tag) "tag" [])).
  - rewrite flat_map_app.
    now rewrite (flat_map_no_edges (fun topic => Some (mkNode topic "topic" []))),
                (flat_map_no_edges (fun tag => Some (mkNode (JStr tag) "tag" []))).
Qed.

(** The data kept from the files: each comes from a file that was read and
    whose [try] block went through. *)
Lemma extracted_origin (files : list MarkdownFile) (data : option Node * list Edge) :
  In data (filter (fun data => match fst data with Some _ => true | None => false end)
                  (map extractNodeFromFile files)) ->
  exists file frontmatter node,
    In file files /\ content file = Some frontmatter
    /\ data = (Some node, snd data)
    /\ extractNode (filePath file) frontmatter = Return (node, snd data).
Proof.
  rewrite filter_In, in_map_iff. intros [[file [Hx Hin]] Hsome].
  destruct data as [[node|] edges]; [| discriminate].
  unfold VigVaultParser.extractNodeFromFile in Hx.
  destruct (content file) as [fm|] eqn:Hfm; [| discriminate].
  destruct (extractNode (filePath file) fm) as [[n e]|] eqn:Hex; [| discriminate].
  injection Hx as -> ->. exists file, fm, node. auto.
Qed.

Lemma In_definedNodes (l : list (option Node * list Edge)) (n : Node) :
  In n (definedNodes l) <-> exists edges, In (Some n, edges) l.
Proof.
  induction l as [|[[m|] e] l IH]; simpl.
  - split; [intros [] | intros [? []]].
  - rewrite IH. split.
    + intros [->|[edges H]]; eauto.
    + intros [edges [H|H]]; [left; congruence | right; eauto].
  - rewrite IH. split.
    + intros [edges H]; eauto.
    + intros [edges [H|H]]; [discriminate | eauto].
Qed.

Lemma filter_none {A : Type} (f : A -> bool) (l : list A) :
  (forall x, In x l -> f x = false) -> filter f l = [].
Proof.
  induction l as [|a l IH]; simpl; intros H; [reflexivity |].
  rewrite (H a (or_introl eq_refl)). apply IH. intros x Hx. apply H. now right.
Qed.

Lemma filter_all {A : Type} (f : A -> bool) (l : list A) :
  (forall x, In x l -> f x = true) -> filter f l = l.
Proof.
  induction l as [|a l IH]; simpl; intros H; [reflexivity |].
  rewrite (H a (or_introl eq_refl)). f_equal. apply IH. intros x Hx. apply H. now right.
Qed.

Lemma processVigVaultFiles_unfold (vault : Vault) :
  processVigVaultFiles vault
  = let extractedData :=
      filter (fun data => match fst data with Some _ => true | None => false end)
             (map extractNodeFromFile (markdownFiles vault)) in
    let allData := (extractedData ++ createExtraNodes (markdownFiles vault))%list in
    {| nodes := definedNodes allData; relationships := flat_map snd allData |}.
Proof. reflexivity. Qed.

(** The nodes and the edges of a vault: those of the files that are kept,
    then the topic nodes, then the tag nodes. *)
Lemma processVigVaultFiles_parts (vault : Vault) :
  let kept :=
    filter (fun data => match fst data with Some _ => true | None => false end)
           (map extractNodeFromFile (markdownFiles vault)) in
  let sets := collect (markdownFiles vault) ([], []) in
  nodes (processVigVaultFiles vault)
  = (definedNodes kept
     ++ map (fun topic => mkNode topic "topic" []) (fst sets)
     ++ map (fun tag => mkNode (JStr tag) "tag" []) (snd sets))%list
  /\ relationships (processVigVaultFiles vault) = flat_map snd kept.
Proof.
  rewrite processVigVaultFiles_unfold. cbn zeta. cbn [nodes relationships].
  destruct (createExtraNodes_nodes (markdownFiles vault)) as [Hextra Hnone].
  now rewrite definedNodes_app, flat_map_app, Hextra, Hnone, app_nil_r.
Qed.


(** The kept files of a vault, with what their loops went through. *)
Lemma kept_origin (vault : Vault) (node : Node) (edges : list Edge) :
  In (Some node, edges)
     (filter (fun data => match fst data with Some _ => true | None => false end)
             (map extractNodeFromFile (markdownFiles vault))) ->
  exists file frontmatter,
    In file (markdownFiles vault) /\ content file = Some frontmatter
    /\ extractNode (filePath file) frontmatter = Return (node, edges).
Proof.
  intros H. destruct (extracted_origin _ _ H) as [file [fm [n [Hfile [Hfm [Heq Hex]]]]]].
  cbn [snd] in Heq, Hex. injection Heq as ->. eauto.
Qed.


End ImporterFacts.


(** ** The memory file (buildKnowledgeGraph.js, loadGraph) *)

Section JsonFacts.

Import JSON.

(** One step of [parseString], by the kind of character read. *)
Lemma parseString_plain (c : ascii) (tail : string) :
  Ascii.eqb c quoteChar = false ->
  Ascii.eqb c backslash = false ->
  (nat_of_ascii c <? 32)%nat = false ->
  parseString (String c tail) = consChar c (parseString tail).
Proof.
  intros Hq Hb Hc. cbn [parseString]. now rewrite Hq, Hb, Hc.
Qed.

Lemma parseString_letter (e c : ascii) (tail : string) :
  Ascii.eqb e "u" = false ->
  unescape e = Some c ->
  parseString (String backslash (String e tail)) = consChar c (parseString tail).
Proof.
  intros Hu He. cbn [parseString].
  change (Ascii.eqb backslash quoteChar) with false.
  change (Ascii.eqb backslash backslash) with true.
  cbv iota. now rewrite Hu, He.
Qed.

Lemma parseString_unicode (h3 h4 c : ascii) (tail : string) :
  match hexValue h3, hexValue h4 with
  | Some d3, Some d4 => (d3 <? 8)%nat && Ascii.eqb (ascii_of_nat (16 * d3 + d4)) c
  | _, _ => false
  end = true ->
  parseString
    (String backslash (String "u" (String "0" (String "0" (String h3 (String h4 tail))))))
  = consChar c (parseString tail).
Proof.
  intros H. cbn [parseString].
  change (Ascii.eqb backslash quoteChar) with false.
  change (Ascii.eqb backslash backslash) with true.
  change (Ascii.eqb "u" "u") with true.
  change (hexValue "0") with (Some 0).
  cbv iota.
  destruct (hexValue h3) as [d3|]; [| discriminate].
  destruct (hexValue h4) as [d4|]; [| discriminate].
  apply andb_true_iff in H. destruct H as [Hlt Hc].
  apply Ascii.eqb_eq in Hc. now rewrite Hlt, Hc.
Qed.

(** Each character is read back from the way it is written. *)
Lemma parseString_escapeChar (c : ascii) (tail : string) :
  parseString (escapeChar c ++ tail) = consChar c (parseString tail).
Proof.
  destruct c as [[] [] [] [] [] [] [] []];
    match goal with
    | |- parseString (escapeChar ?c ++ tail) = _ =>
        let e := eval vm_compute in (escapeChar c) in
        change (escapeChar c) with e
    end;
    cbn [append];
    first [ apply parseString_plain; vm_compute; reflexivity
          | apply parseString_letter; vm_compute; reflexivity
          | apply parseString_unicode; vm_compute; reflexivity ].
Qed.

Lemma parseString_escape (s rest : string) :
  parseString (escape s ++ String quoteChar rest) = Some (s, rest).
Proof.
  induction s as [|c s IH]; [reflexivity |].
  cbn [escape]. rewrite append_assoc, parseString_escapeChar, IH. reflexivity.
Qed.

(** One step of [parseValue], by the character that starts the text. *)
Lemma parseValue_quote (fuel : nat) (r : string) :
  parseValue (S fuel) (String quoteChar r)
  = match parseString r with
    | Some (str, rest) => Some (JStr str, rest)
    | None => None
    end.
Proof. reflexivity. Qed.

Lemma parseValue_empty_array (fuel : nat) (rest : string) :
  parseValue (S fuel) (String "[" (String "]" rest)) = Some (JArr [], rest).
Proof. reflexivity. Qed.

Lemma parseValue_array (fuel : nat) (r : string) :
  parseValue (S fuel) (String "[" (String quoteChar r))
  = match parseElements fuel (String quoteChar r) with
    | Some (l, rest) => Some (JArr l, rest)
    | None => None
    end.
Proof. reflexivity. Qed.

Lemma parseValue_object (fuel : nat) (r : string) :
  parseValue (S fuel) (String "{" (String quoteChar r))
  = match parseMembers fuel [] (String quoteChar r) with
    | Some (fields, rest) => Some (JObj fields, rest)
    | None => None
    end.
Proof. reflexivity. Qed.

Lemma quote_append (s rest : string) :
  quote s ++ rest = String quoteChar (escape s ++ String quoteChar rest).
Proof. unfold quote. simpl. now rewrite append_assoc. Qed.

(** A string is read back, whatever follows it. *)
Lemma parseValue_string (fuel : nat) (s rest : string) :
  parseValue (S fuel) (quote s ++ rest) = Some (JStr s, rest).
Proof.
  rewrite quote_append, parseValue_quote, parseString_escape. reflexivity.
Qed.

Lemma parseElements_step (fuel : nat) (s : string) :
  parseElements (S fuel) s
  = match parseValue fuel s with
    | Some (v, rest) =>
        match skipSpace rest with
        | String "," r =>
            match parseElements fuel r with
            | Some (l, rest') => Some (v :: l, rest')
            | None => None
            end
        | String "]" r => Some ([v], r)
        | _ => None
        end
    | None => None
    end.
Proof. reflexivity. Qed.

Lemma concat_cons (sep x y : string) (l : list string) :
  String.concat sep (x :: y :: l) = x ++ sep ++ String.concat sep (y :: l).
Proof. reflexivity. Qed.

Lemma parseElements_strings (l : list string) :
  forall x fuel rest,
    (List.length l < fuel)%nat ->
    parseElements (S fuel) (String.concat "," (map quote (x :: l)) ++ String "]" rest)
    = Some (map JStr (x :: l), rest).
Proof.
  induction l as [|y l IH]; intros x fuel rest Hfuel;
    (destruct fuel as [|fuel]; [simpl in Hfuel; lia |]);
    rewrite parseElements_step.
  - change (String.concat "," (map quote [x])) with (quote x).
    rewrite parseValue_string. reflexivity.
  - change (map quote (x :: y :: l)) with (quote x :: quote y :: map quote l).
    rewrite concat_cons, !append_assoc, parseValue_string.
    change ("," ++ String.concat "," (quote y :: map quote l) ++ String "]" rest)
      with (String "," (String.concat "," (map quote (y :: l)) ++ String "]" rest)).
    change (skipSpace (String "," ?r)) with (String "," r).
    cbv iota.
    rewrite IH by (simpl in Hfuel; lia). reflexivity.
Qed.

Lemma stringify_strings (l : list string) :
  stringify (JArr (map JStr l)) = "[" ++ String.concat "," (map quote l) ++ "]".
Proof.
  change (stringify (JArr (map JStr l)))
    with ("[" ++ String.concat "," (map stringify (map JStr l)) ++ "]").
  now rewrite map_map.
Qed.

(** An array of strings is read back, whatever follows it. *)
Lemma parseValue_strings (l : list string) (fuel : nat) (rest : string) :
  (List.length l < fuel)%nat ->
  parseValue (S fuel) (stringify (JArr (map JStr l)) ++ rest)
  = Some (JArr (map JStr l), rest).
Proof.
  intros Hfuel. rewrite stringify_strings.
  destruct l as [|x l].
  - apply parseValue_empty_array.
  - destruct fuel as [|fuel]; [simpl in Hfuel; lia |].
    change ("[" ++ String.concat "," (map quote (x :: l)) ++ "]")
      with (String "[" (String.concat "," (map quote (x :: l)) ++ "]")).
    cbn [append]. rewrite append_assoc.
    assert (Hstart : exists r,
               String.concat "," (map quote (x :: l)) ++ "]" ++ rest
               = String quoteChar r).
    { destruct l; cbn [map String.concat]; rewrite ?append_assoc, quote_append; eauto. }
    destruct Hstart as [r Hr].
    rewrite Hr, parseValue_array, <- Hr.
    change ("]" ++ rest) with (String "]" rest).
    rewrite parseElements_strings by (simpl in Hfuel; lia). reflexivity.
Qed.

Lemma parseMembers_quote (fuel : nat) (seen : list (string * JsVal)) (r : string) :
  parseMembers (S fuel) seen (String quoteChar r)
  = match parseString r with
    | Some (k, rest) =>
        match skipSpace rest with
        | String ":" r1 =>
            match parseValue fuel r1 with
            | Some (v, rest1) =>
                match skipSpace rest1 with
                | String "," r2 => parseMembers fuel (setField k v seen) r2
                | String "}" r2 => Some (setField k v seen, r2)
                | _ => None
                end
            | None => None
            end
        | _ => None
        end
    | None => None
    end.
Proof. reflexivity. Qed.

(** A member that is followed by another one. *)
Lemma parseMembers_more (fuel : nat) (seen : list (string * JsVal))
      (k text rest : string) (v : JsVal) :
  parseValue fuel (text ++ String "," rest) = Some (v, String "," rest) ->
  parseMembers (S fuel) seen (quote k ++ String ":" (text ++ String "," rest))
  = parseMembers fuel (setField k v seen) rest.
Proof.
  intros Hv.
  rewrite quote_append, parseMembers_quote, parseString_escape.
  change (skipSpace (String ":" ?r)) with (String ":" r). cbv iota.
  rewrite Hv. reflexivity.
Qed.

(** The last member of an object. *)
Lemma parseMembers_last (fuel : nat) (seen : list (string * JsVal))
      (k text rest : string) (v : JsVal) :
  parseValue fuel (text ++ String "}" rest) = Some (v, String "}" rest) ->
  parseMembers (S fuel) seen (quote k ++ String ":" (text ++ String "}" rest))
  = Some (setField k v seen, rest).
Proof.
  intros Hv.
  rewrite quote_append, parseMembers_quote, parseString_escape.
  change (skipSpace (String ":" ?r)) with (String ":" r). cbv iota.
  rewrite Hv. reflexivity.
Qed.

End JsonFacts.

Section MemoryFileFacts.

Import Graph JSON BuildKnowledgeGraph.

Variable trim : string -> string.
Hypothesis trim_law : Str.trimLaw trim.

Local Abbreviation parseLines := LoadGraph.parseLines.
Local Abbreviation hasType := LoadGraph.hasType.
Local Abbreviation readNode := LoadGraph.readNode.
Local Abbreviation readEdge := LoadGraph.readEdge.
Local Abbreviation readItem := LoadGraph.readItem.
Local Abbreviation loadGraph := (LoadGraph.loadGraph trim).

(** The text of a node record and of an edge record. *)
Lemma stringify_formatNode (n : Node) :
  stringify (formatNode (nodeRecord n))
  = String "{"
      (quote "type" ++ String ":" (quote "node" ++ String ","
      (quote "name" ++ String ":" (quote (name n) ++ String ","
      (quote "nodeType" ++ String ":" (quote (nodeType n) ++ String ","
      (quote "metadata" ++ String ":"
         (stringify (JArr (map JStr (metadata n))) ++ String "}" "")))))))).
Proof.
  change (stringify (formatNode (nodeRecord n)))
    with ("{" ++ String.concat ","
            [ quote "type" ++ ":" ++ quote "node";
              quote "name" ++ ":" ++ quote (name n);
              quote "nodeType" ++ ":" ++ quote (nodeType n);
              quote "metadata" ++ ":" ++ stringify (JArr (map JStr (metadata n))) ]
          ++ "}").
  rewrite !concat_cons. cbn [String.concat].
  rewrite !append_assoc. reflexivity.
Qed.

Lemma stringify_formatRelationship (e : Edge) :
  stringify (formatRelationship (edgeRecord e))
  = String "{"
      (quote "type" ++ String ":" (quote "edge" ++ String ","
      (quote "from" ++ String ":" (quote (from e) ++ String ","
      (quote "to" ++ String ":" (quote (to e) ++ String ","
      (quote "edgeType" ++ String ":" (quote (edgeType e) ++ String "}" "")))))))).
Proof.
  change (stringify (formatRelationship (edgeRecord e)))
    with ("{" ++ String.concat ","
            [ quote "type" ++ ":" ++ quote "edge";
              quote "from" ++ ":" ++ quote (from e);
              quote "to" ++ ":" ++ quote (to e);
              quote "edgeType" ++ ":" ++ quote (edgeType e) ]
          ++ "}").
  rewrite !concat_cons. cbn [String.concat].
  rewrite !append_assoc. reflexivity.
Qed.

(** A record is read back when the fuel covers its members. *)
Lemma parseValue_formatNode (n : Node) (fuel : nat) :
  (List.length (metadata n) + 6 <= fuel)%nat ->
  parseValue (S fuel) (stringify (formatNode (nodeRecord n))) = Some (formatNode (nodeRecord n), "").
Proof.
  intros Hfuel.
  destruct fuel as [|[|[|[|[|f]]]]]; try lia.
  rewrite stringify_formatNode.
  rewrite (quote_append "type"), parseValue_object, <- (quote_append "type").
  rewrite (parseMembers_more _ _ "type" _ _ (JStr "node")) by apply parseValue_string.
  rewrite (parseMembers_more _ _ "name" _ _ (JStr (name n))) by apply parseValue_string.
  rewrite (parseMembers_more _ _ "nodeType" _ _ (JStr (nodeType n)))
    by apply parseValue_string.
  rewrite (parseMembers_last _ _ "metadata" _ _ (JArr (map JStr (metadata n))))
    by (apply parseValue_strings; lia).
  reflexivity.
Qed.

Lemma parseValue_formatRelationship (e : Edge) (fuel : nat) :
  (5 <= fuel)%nat ->
  parseValue (S fuel) (stringify (formatRelationship (edgeRecord e)))
  = Some (formatRelationship (edgeRecord e), "").
Proof.
  intros Hfuel.
  destruct fuel as [|[|[|[|[|f]]]]]; try lia.
  rewrite stringify_formatRelationship.
  rewrite (quote_append "type"), parseValue_object, <- (quote_append "type").
  rewrite (parseMembers_more _ _ "type" _ _ (JStr "edge")) by apply parseValue_string.
  rewrite (parseMembers_more _ _ "from" _ _ (JStr (from e))) by apply parseValue_string.
  rewrite (parseMembers_more _ _ "to" _ _ (JStr (to e))) by apply parseValue_string.
  rewrite (parseMembers_last _ _ "edgeType" _ _ (JStr (edgeType e)))
    by apply parseValue_string.
  reflexivity.
Qed.

Lemma length_append (a b : string) :
  String.length (a ++ b) = (String.length a + String.length b)%nat.
Proof. induction a; simpl; [reflexivity | now rewrite IHa]. Qed.

Lemma length_quoted (l : list string) :
  (List.length l <= String.length (String.concat "," (map quote l)))%nat.
Proof.
  induction l as [|x [|y l] IH].
  - simpl; lia.
  - change (String.concat "," (map quote [x])) with (quote x).
    unfold quote. simpl. lia.
  - change (map quote (x :: y :: l)) with (quote x :: quote y :: map quote l).
    rewrite concat_cons, !length_append.
    change (quote y :: map quote l) with (map quote (y :: l)).
    simpl in *. lia.
Qed.

Lemma length_strings (l : list string) :
  (List.length l <= String.length (stringify (JArr (map JStr l))))%nat.
Proof.
  rewrite stringify_strings, !length_append. pose proof (length_quoted l). lia.
Qed.

(** **** A record written by [JSON.stringify] is read back by [JSON.parse]. *)
Lemma parse_formatNode (n : Node) :
  parse (stringify (formatNode (nodeRecord n))) = Return (formatNode (nodeRecord n)).
Proof.
  unfold parse. rewrite parseValue_formatNode; [reflexivity |].
  rewrite stringify_formatNode.
  repeat first [rewrite length_append | progress cbn [String.length]].
  pose proof (length_strings (metadata n)). lia.
Qed.

Lemma parse_formatRelationship (e : Edge) :
  parse (stringify (formatRelationship (edgeRecord e))) = Return (formatRelationship (edgeRecord e)).
Proof.
  unfold parse. rewrite parseValue_formatRelationship; [reflexivity |].
  rewrite stringify_formatRelationship.
  repeat first [rewrite length_append | progress cbn [String.length]].
  lia.
Qed.

(** *** A written record is one line, and not a blank one *)

Lemma list_ascii_append (a b : string) :
  list_ascii_of_string (a ++ b)
  = (list_ascii_of_string a ++ list_ascii_of_string b)%list.
Proof. induction a; simpl; [reflexivity | now rewrite IHa]. Qed.

Lemma charFree_append (c : ascii) (a b : string) :
  Str.charFree c a -> Str.charFree c b -> Str.charFree c (a ++ b).
Proof.
  unfold Str.charFree. rewrite list_ascii_append, in_app_iff. tauto.
Qed.

Lemma charFree_String (c d : ascii) (s : string) :
  Ascii.eqb d c = false -> Str.charFree c s -> Str.charFree c (String d s).
Proof.
  unfold Str.charFree. simpl. intros Hd Hs [H|H]; [| auto].
  subst d. now rewrite Ascii.eqb_refl in Hd.
Qed.

Lemma charFree_empty (c : ascii) : Str.charFree c "".
Proof. intros []. Qed.

Lemma charFree_escapeChar (c : ascii) : Str.charFree lineFeed (escapeChar c).
Proof.
  intros H. apply includes_char in H.
  revert H. destruct c as [[] [] [] [] [] [] [] []]; vm_compute; discriminate.
Qed.

Lemma charFree_quote (s : string) : Str.charFree lineFeed (quote s).
Proof.
  unfold quote. apply charFree_String; [reflexivity |].
  apply charFree_append.
  - induction s as [|c s IH]; [apply charFree_empty |].
    cbn [escape]. apply charFree_append; [apply charFree_escapeChar | exact IH].
  - apply charFree_String; [reflexivity | apply charFree_empty].
Qed.

Lemma charFree_strings (l : list string) :
  Str.charFree lineFeed (stringify (JArr (map JStr l))).
Proof.
  rewrite stringify_strings.
  apply charFree_String; [reflexivity |]. apply charFree_append.
  - induction l as [|x [|y l] IH].
    + apply charFree_empty.
    + apply charFree_quote.
    + change (map quote (x :: y :: l)) with (quote x :: quote y :: map quote l).
      rewrite concat_cons.
      apply charFree_append; [apply charFree_quote |].
      apply charFree_String; [reflexivity | exact IH].
  - apply charFree_String; [reflexivity | apply charFree_empty].
Qed.

(** Closes a goal on a text made of quoted strings and punctuation. *)
Ltac line_free :=
  repeat match goal with
         | |- Str.charFree _ EmptyString => apply charFree_empty
         | |- Str.charFree _ (quote _) => apply charFree_quote
         | |- Str.charFree _ (stringify (JArr (map JStr _))) => apply charFree_strings
         | |- Str.charFree _ (_ ++ _) => apply charFree_append
         | |- Str.charFree _ (String _ _) => apply charFree_String; [reflexivity |]
         end.

Lemma record_line (item : JsVal) :
  BuildKnowledgeGraph.isRecord item ->
  Str.charFree lineFeed (stringify item)
  /\ negb (trim (stringify item) =? "") = true
  /\ parse (stringify item) = Return item.
Proof.
  assert (Hblank : forall r, negb (trim (String "{" r) =? "") = true).
  { intros r. apply negb_true_iff, String.eqb_neq.
    apply (proj2 trim_law _ "{"%char); [now left | reflexivity]. }
  intros [[n ->]|[e ->]].
  - split; [| split; [| apply parse_formatNode]];
      rewrite stringify_formatNode; [line_free | apply Hblank].
  - split; [| split; [| apply parse_formatRelationship]];
      rewrite stringify_formatRelationship; [line_free | apply Hblank].
Qed.

Lemma parseLines_records (items : list JsVal) :
  Forall isRecord items -> parseLines (map stringify items) = Some items.
Proof.
  induction 1 as [|item items Hitem _ IH]; [reflexivity |].
  cbn [map parseLines].
  destruct (record_line item Hitem) as [_ [_ ->]]. now rewrite IH.
Qed.

(** The records written one per line are the records loaded. *)
Lemma loadGraph_records (items : list JsVal) :
  Forall isRecord items ->
  loadGraph (Some (String.concat (String lineFeed "") (map stringify items)))
  = Some items.
Proof.
  intros Hitems. destruct items as [|item items].
  - cbn. now rewrite (proj1 trim_law).
  - unfold LoadGraph.loadGraph. rewrite split_concat.
    + rewrite filter_all; [now apply parseLines_records |].
      intros line Hline. apply in_map_iff in Hline. destruct Hline as [x [<- Hx]].
      apply record_line. eapply Forall_forall; eauto.
    + discriminate.
    + apply Forall_forall. intros line Hline.
      apply in_map_iff in Hline. destruct Hline as [x [<- Hx]].
      apply record_line. eapply Forall_forall; eauto.
Qed.

Lemma graphData_records (nodes : list Node) (relationships : list Edge) :
  Forall isRecord (graphData (map nodeRecord nodes) (map edgeRecord relationships)).
Proof.
  apply Forall_forall. intros item Hitem. unfold graphData in Hitem.
  rewrite !map_map in Hitem.
  apply in_app_iff in Hitem. destruct Hitem as [H|H];
    apply in_map_iff in H; destruct H as [x [<- _]]; [left | right]; eauto.
Qed.

Lemma graphData_split (nodes : list Node) (relationships : list Edge) :
  filter (hasType "node") (graphData (map nodeRecord nodes) (map edgeRecord relationships))
  = map formatNode (map nodeRecord nodes)
  /\ filter (hasType "edge")
            (graphData (map nodeRecord nodes) (map edgeRecord relationships))
     = map formatRelationship (map edgeRecord relationships).
Proof.
  unfold graphData. rewrite !filter_app, !map_map. split.
  - rewrite filter_all, filter_none, app_nil_r; [reflexivity | |];
      intros x Hx; apply in_map_iff in Hx; destruct Hx as [y [<- _]]; reflexivity.
  - rewrite filter_none, filter_all; [reflexivity | |];
      intros x Hx; apply in_map_iff in Hx; destruct Hx as [y [<- _]]; reflexivity.
Qed.

(** Records kept by a test stay the same, up to order, when the records
    are reordered. *)
Lemma kept_records_permuted (keep : JsVal -> bool) (written loaded : list JsVal) :
  Permutation written loaded ->
  Permutation (filter keep loaded) (filter keep written).
Proof.
  intros Hperm. symmetry.
  induction Hperm as [| item written loaded _ IH | a b items | l1 l2 l3 _ IH1 _ IH2].
  - constructor.
  - cbn [filter]. destruct (keep item); [now constructor | exact IH].
  - cbn [filter]. destruct (keep a), (keep b); try reflexivity. apply perm_swap.
  - now transitivity (filter keep l2).
Qed.

(** *** What a loaded record holds *)

Lemma stringElements_strings (l : list string) :
  LoadGraph.stringElements (map JStr l) = Some l.
Proof. induction l as [|x l IH]; simpl; [reflexivity | now rewrite IH]. Qed.

(** The fields read of a written node are those of the node. *)
Lemma readNode_formatNode (n : Node) :
  readNode (formatNode (nodeRecord n)) = Some n.
Proof.
  destruct n as [name type lines]. unfold LoadGraph.readNode.
  change (LoadGraph.stringField (formatNode (nodeRecord (mkNode name type lines))) "name")
    with (Some name).
  change (LoadGraph.stringField (formatNode (nodeRecord (mkNode name type lines)))
                                "nodeType")
    with (Some type).
  change (getProp (formatNode (nodeRecord (mkNode name type lines))) "metadata")
    with (Return (JArr (map JStr lines))).
  cbv iota. now rewrite stringElements_strings.
Qed.

Lemma readEdge_formatRelationship (e : Edge) :
  readEdge (formatRelationship (edgeRecord e)) = Some e.
Proof. destruct e. reflexivity. Qed.

Lemma readItem_node (n : Node) :
  readItem (formatNode (nodeRecord n)) = Some (NodeItem n).
Proof.
  unfold LoadGraph.readItem.
  change (hasType "node" (formatNode (nodeRecord n))) with true.
  cbv iota. now rewrite readNode_formatNode.
Qed.

Lemma readItem_edge (e : Edge) :
  readItem (formatRelationship (edgeRecord e)) = Some (EdgeItem e).
Proof.
  unfold LoadGraph.readItem.
  change (hasType "node" (formatRelationship (edgeRecord e))) with false.
  change (hasType "edge" (formatRelationship (edgeRecord e))) with true.
  cbv iota. now rewrite readEdge_formatRelationship.
Qed.

Lemma readItem_graphData (nodes : list Node) (relationships : list Edge) :
  map readItem (graphData (map nodeRecord nodes) (map edgeRecord relationships))
  = map Some (map NodeItem nodes ++ map EdgeItem relationships)%list.
Proof.
  unfold graphData. rewrite !map_app, !map_map. f_equal.
  - apply map_ext. intros n. apply readItem_node.
  - apply map_ext. intros e. apply readItem_edge.
Qed.

(** **** C6: the round trip through the memory file.  The records that
    [buildKnowledgeGraph] writes for nodes and edges, one JSON text per
    line, are loaded back by [loadGraph], and the fields read of the loaded
    records give the nodes and the edges back, in their order.  In whatever
    order the lines stand in the file, the nodes read of the loaded node
    records are the original nodes up to order, and the edges read of the
    loaded edge records the original edges. *)
Theorem memory_file_round_trip (nodes : list Node) (relationships : list Edge) :
  let records := graphData (map nodeRecord nodes) (map edgeRecord relationships) in
  loadGraph (Some (jsonLines (map nodeRecord nodes) (map edgeRecord relationships)))
  = Some records
  /\ map readItem records = map Some (map NodeItem nodes ++ map EdgeItem relationships)
  /\ forall lines,
      Permutation lines (map stringify records) ->
      exists graph,
        loadGraph (Some (String.concat (String lineFeed "") lines)) = Some graph
        /\ Permutation (map readNode (filter (hasType "node") graph)) (map Some nodes)
        /\ Permutation (map readEdge (filter (hasType "edge") graph))
                       (map Some relationships).
Proof.
  cbv zeta.
  destruct (graphData_split nodes relationships) as [Hnodes Hedges].
  pose proof (graphData_records nodes relationships) as Hrecords.
  split; [now apply loadGraph_records |].
  split; [apply readItem_graphData |].
  intros lines Hperm.
  apply Permutation_map_inv in Hperm. destruct Hperm as [items [-> Hitems]].
  exists items. split.
  - apply loadGraph_records. eapply Permutation_Forall; eauto.
  - split.
    + rewrite (Permutation_map readNode (kept_records_permuted (hasType "node") _ _ Hitems)).
      rewrite Hnodes, !map_map.
      rewrite (map_ext _ Some (fun n => readNode_formatNode n)).
      reflexivity.
    + rewrite (Permutation_map readEdge (kept_records_permuted (hasType "edge") _ _ Hitems)).
      rewrite Hedges, !map_map.
      rewrite (map_ext _ Some (fun e => readEdge_formatRelationship e)).
      reflexivity.
Qed.

End MemoryFileFacts.

(** ** The tool compiled from the npc schema *)

Section SchemaFacts.

Import Graph SchemaTools.

(** **** C7: [add_npc] for Garrick gives the node [Garrick] of type [npc]
    and exactly one edge, from [Garrick] to [Tavern] with type [located_in];
    the metadata holds the role, the status and the description, and no line
    for [currentLocation]. *)
Theorem add_npc_garrick (description : string) :
  compiledAdd npcSchema (garrickArguments description)
  = Return (mkNode "Garrick" "npc"
                   ["Role: Blacksmith"; "Status: Alive";
                    "Description: " ++ description],
            [mkEdge "Garrick" "Tavern" "located_in"])
  /\ forall node edges,
      compiledAdd npcSchema (garrickArguments description) = Return (node, edges) ->
      forall line, In line (metadata node) -> ~ hasPrefix "CurrentLocation" line.
Proof.
  assert (Hrun : compiledAdd npcSchema (garrickArguments description)
                 = Return (mkNode "Garrick" "npc"
                                  ["Role: Blacksmith"; "Status: Alive";
                                   "Description: " ++ description],
                           [mkEdge "Garrick" "Tavern" "located_in"]))
    by reflexivity.
  split; [exact Hrun |].
  intros node edges Hnode line Hline [rest Hrest].
  rewrite Hrun in Hnode. injection Hnode as <- _.
  simpl in Hline. destruct Hline as [<-|[<-|[<-|[]]]]; discriminate.
Qed.

End SchemaFacts.

(** ** Runs on small inputs *)

Section Runs.

Import Graph.

(** Scenario 4: [type:npc] finds the npc nodes, whatever the letter case. *)
Example findNodes_type_npc :
  QueryGraph.findNodes Str.asciiToLowerCase Str.asciiTrim townGraph "type:npc" = [garrick]
  /\ QueryGraph.findNodes Str.asciiToLowerCase Str.asciiTrim townGraph " Type : NPC " = [garrick].
Proof. split; reflexivity. Qed.

Example findNodes_tag_smiths :
  QueryGraph.findNodes Str.asciiToLowerCase Str.asciiTrim townGraph "tag:smiths" = [garrick].
Proof. reflexivity. Qed.

Example findNodes_text :
  QueryGraph.findNodes Str.asciiToLowerCase Str.asciiTrim townGraph "NOISY" = [tavern]
  /\ QueryGraph.findNodes Str.asciiToLowerCase Str.asciiTrim townGraph "" = [garrick; tavern]
  /\ QueryGraph.findNodes Str.asciiToLowerCase Str.asciiTrim townGraph "a:b" = [].
Proof. repeat split; reflexivity. Qed.

(** A session of the explorer. *)
Example session_run :
  QueryGraph.session Str.asciiToLowerCase Str.asciiTrim townGraph ["type:npc"; "stats"; "type:npc"; "exit"; "help"]
  = [ QueryGraph.Found [garrick]; QueryGraph.Statistics 2 2;
      QueryGraph.Found [garrick]; QueryGraph.Closed ].
Proof. reflexivity. Qed.

(** A written memory file, loaded back. *)
Example loadGraph_run :
  LoadGraph.loadGraph Str.asciiTrim
    (Some (BuildKnowledgeGraph.jsonLines
             [BuildKnowledgeGraph.nodeRecord garrick]
             [BuildKnowledgeGraph.edgeRecord (mkEdge "Garrick" "Tavern" "located_in")]))
  = Some [ BuildKnowledgeGraph.formatNode (BuildKnowledgeGraph.nodeRecord garrick);
           BuildKnowledgeGraph.formatRelationship
             (BuildKnowledgeGraph.edgeRecord (mkEdge "Garrick" "Tavern" "located_in")) ].
Proof. vm_compute. reflexivity. Qed.

(** A line that is not JSON ends the explorer; a missing file does too. *)
Example loadGraph_corrupt :
  LoadGraph.loadGraph Str.asciiTrim (Some "{") = None
  /\ LoadGraph.loadGraph Str.asciiTrim None = None.
Proof. split; vm_compute; reflexivity. Qed.

(** Scenario 1: [add_quest] gives the four metadata lines and no edge. *)
Example add_quest_amulet :
  SchemaTools.compiledAdd SchemaTools.questSchema
    (JObj [ ("name", JStr "FindTheAmulet");
            ("description", JStr "Recover it");
            ("status", JStr "Active");
            ("objectives", JArr [JStr "Find amulet"]);
            ("rewards", JArr [JStr "100 gold"]) ])
  = Return (mkNode "FindTheAmulet" "quest"
                   [ "Description: Recover it"; "Status: Active";
                     "Objectives: Find amulet"; "Rewards: 100 gold" ],
            []).
Proof. reflexivity. Qed.

(** A missing required field fails the whole call. *)
Example add_npc_without_role :
  SchemaTools.compiledAdd SchemaTools.npcSchema (JObj [("name", JStr "Garrick")])
  = Throw (SchemaTools.ValidationError "role" "required").
Proof. reflexivity. Qed.

(** The registry: a failed attempt leaves it uninitialized, a successful one
    initializes it, and a further call changes nothing. *)
Example initialize_run :
  let failed := fst (fst (initialize brokenSchemas getInstance tt)) in
  let ready := fst (fst (initialize sampleSchemas failed tt)) in
  initialized failed = false
  /\ initialized ready = true
  /\ initialize brokenSchemas ready tt = (ready, tt, Return tt)
  /\ isDynamicTool ready "add_npc" = Return true
  /\ isDynamicTool ready "add_quest" = Return false.
Proof. repeat split; reflexivity. Qed.

(** A schema tool called through the dispatcher before the registry is
    initialized: the error envelope of [handleToolCall] is passed on as is,
    and no tool has run. *)
Example dispatch_before_initialization :
  handleCallToolRequest spec_formatToolResponse spec_formatToolError
    (handleToolCall spec_formatToolError getInstance)
    (mkRequest "add_npc" (JObj [("name", JStr "Garrick")])) idleManager
    (mkWorld tt [])
  = (mkWorld tt [DynamicCall "add_npc" (JObj [("name", JStr "Garrick")])],
     Return (spec_formatToolError
               {| operation := "add_npc";
                  error := JStr "Dynamic tools not initialized";
                  context := None;
                  suggestions :=
                    ["Ensure dynamic tools are initialized before making tool calls"];
                  recoverySteps := [] |})).
Proof. reflexivity. Qed.

(** An [Error] thrown by the manager becomes an error envelope. *)
Example dispatch_error_thrown :
  snd (handleCallToolRequest spec_formatToolResponse spec_formatToolError
         idleDynamicTools (mkRequest "read_graph" (JObj []))
         (fun _ _ g => (g, Throw (JError "Error" "disk full")))
         (mkWorld tt []))
  = Return (spec_formatToolError
              {| operation := "read_graph";
                 error := JStr "disk full";
                 context := Some (JObj [("input", JObj [])]);
                 suggestions := ["Review the error message and the provided arguments"];
                 recoverySteps := ["If the error persists, notify the human"] |}).
Proof. reflexivity. Qed.

End Runs.

(** ** The general statements at concrete inputs *)

Section Instances.

Import Graph.

(** The query [type:NPC] on the town graph. *)
Lemma findNodes_by_query_form_witness :
  Str.lowerCaseLaw Str.asciiToLowerCase
  /\ SearchSpec.hasForm Str.asciiToLowerCase Str.asciiTrim "type:NPC" "type" "npc"
  /\ forall n,
      In n (QueryGraph.findNodes Str.asciiToLowerCase Str.asciiTrim townGraph "type:NPC")
      <-> In (NodeItem n) townGraph
          /\ SearchSpec.matchesType Str.asciiToLowerCase "npc" n.
Proof.
  assert (Hform : SearchSpec.hasForm Str.asciiToLowerCase Str.asciiTrim
                                     "type:NPC" "type" "npc").
  { exists "type", "NPC", "". repeat split.
    - intros H; simpl in H; repeat destruct H as [H|H]; try discriminate; exact H.
    - intros H; simpl in H; repeat destruct H as [H|H]; try discriminate; exact H.
    - now left. }
  split; [exact asciiToLowerCase_law |]. split; [exact Hform |].
  apply (proj1 (findNodes_by_query_form Str.asciiToLowerCase Str.asciiTrim
                  asciiToLowerCase_law townGraph "type:NPC") "npc").
  left. exact Hform.
Defined.

(** The registry after a successful initialization, and after a failed one. *)
Lemma initialize_once_contract_witness :
  let ready := fst (fst (initialize sampleSchemas getInstance tt)) in
  let failed := fst (fst (initialize brokenSchemas getInstance tt)) in
  initialize sampleSchemas getInstance tt = (ready, tt, Return tt)
  /\ initialize sampleSchemas ready tt = (ready, tt, Return tt)
  /\ neverInitialized brokenSchemas failed
  /\ handleToolCall spec_formatToolError failed "add_npc" (JObj []) idleManager tt
     = (tt, Return (spec_formatToolError
                      {| operation := "add_npc";
                         error := JStr "Dynamic tools not initialized";
                         context := None;
                         suggestions :=
                           ["Ensure dynamic tools are initialized before making tool calls"];
                         recoverySteps := [] |})).
Proof.
  assert (Hfailed : neverInitialized brokenSchemas
                      (fst (fst (initialize brokenSchemas getInstance tt)))).
  { apply (never_failed unit unit brokenSchemas getInstance tt _ tt
             (JError "Error" "Dynamic tools initialization failed")).
    - apply never_fresh.
    - reflexivity. }
  split; [reflexivity |]. split; [| split; [exact Hfailed |]].
  - apply (proj1 (initialize_once_contract unit unit spec_formatToolError sampleSchemas)
             getInstance tt _ tt eq_refl tt).
  - apply (proj2 (initialize_once_contract unit unit spec_formatToolError brokenSchemas)
             _ Hfailed "add_npc" (JObj []) idleManager tt).
Defined.

(** The memory file of one node and one edge, its two lines exchanged. *)
Lemma memory_file_round_trip_witness :
  let edge := mkEdge "Garrick" "Tavern" "located_in" in
  let records :=
    BuildKnowledgeGraph.graphData [BuildKnowledgeGraph.nodeRecord garrick]
                                  [BuildKnowledgeGraph.edgeRecord edge] in
  let nodeLine :=
    JSON.stringify (BuildKnowledgeGraph.formatNode
                      (BuildKnowledgeGraph.nodeRecord garrick)) in
  let edgeLine :=
    JSON.stringify (BuildKnowledgeGraph.formatRelationship
                      (BuildKnowledgeGraph.edgeRecord edge)) in
  Str.trimLaw Str.asciiTrim
  /\ Permutation [edgeLine; nodeLine] (map JSON.stringify records)
  /\ exists graph,
      LoadGraph.loadGraph Str.asciiTrim
        (Some (String.concat (String lineFeed "") [edgeLine; nodeLine]))
      = Some graph
      /\ Permutation (map LoadGraph.readNode (filter (LoadGraph.hasType "node") graph))
                     (map Some [garrick])
      /\ Permutation (map LoadGraph.readEdge (filter (LoadGraph.hasType "edge") graph))
                     (map Some [edge]).
Proof.
  cbv zeta.
  assert (Hperm :
            Permutation
              [JSON.stringify (BuildKnowledgeGraph.formatRelationship
                                 (BuildKnowledgeGraph.edgeRecord
                                    (mkEdge "Garrick" "Tavern" "located_in")));
               JSON.stringify (BuildKnowledgeGraph.formatNode
                                 (BuildKnowledgeGraph.nodeRecord garrick))]
              (map JSON.stringify
                   (BuildKnowledgeGraph.graphData
                      [BuildKnowledgeGraph.nodeRecord garrick]
                      [BuildKnowledgeGraph.edgeRecord
                         (mkEdge "Garrick" "Tavern" "located_in")])))
    by apply perm_swap.
  split; [exact asciiTrim_law |]. split; [exact Hperm |].
  exact (proj2 (proj2
           (memory_file_round_trip Str.asciiTrim asciiTrim_law
              [garrick] [mkEdge "Garrick" "Tavern" "located_in"]))
           _ Hperm).
Defined.

End Instances.

(* ===================================================================== *)
(** * Further properties                                                  *)
(* ===================================================================== *)

(** ** The dispatcher, branch by branch *)

Section DispatchRuns.

Variable G : Type.
Variable formatToolResponse : ResponseOptions -> JsVal.
Variable formatToolError : ErrorOptions -> JsVal.
Variable dynamicTools :
  string -> JsVal -> KnowledgeGraphManager G -> G -> G * completion JsVal.

Local Abbreviation dispatch :=
  (handleCallToolRequest formatToolResponse formatToolError dynamicTools).

(** The built-in tool of a method, by name. *)
Lemma builtin_names (name : string) (m : StoreMethod) :
  builtin name = Some m ->
  match m with
  | addNodes => name = "add_nodes"
  | updateNodes => name = "update_nodes"
  | addEdges => name = "add_edges"
  | updateEdges => name = "update_edges"
  | addMetadata => name = "add_metadata"
  | deleteNodes => name = "delete_nodes"
  | deleteMetadata => name = "delete_metadata"
  | deleteEdges => name = "delete_edges"
  | readGraph => name = "read_graph"
  | searchNodes => name = "search_nodes"
  | openNodes => name = "open_nodes"
  end.
Proof.
  unfold builtin. simpl.
  repeat match goal with
         | |- context [String.eqb name ?s] =>
             destruct (String.eqb_spec name s) as [->|?]; simpl
         end;
    intros H; try discriminate; injection H as <-; reflexivity.
Qed.

(** What a built-in tool does with truthy arguments: one call, with the
    field of the arguments that belongs to the method; then the catch block
    or the success message. *)
Lemma dispatch_builtin (name : string) (m : StoreMethod) (args : JsVal)
      (knowledgeGraphManager : KnowledgeGraphManager G) (w : World G) :
  truthy args = true ->
  builtin name = Some m ->
  let called := mkWorld (fst (knowledgeGraphManager m (methodArguments m args) (graph w)))
                        (calls w ++ [StoreCall m (methodArguments m args)]) in
  match snd (knowledgeGraphManager m (methodArguments m args) (graph w)) with
  | Throw e =>
      dispatch (mkRequest name args) knowledgeGraphManager w
      = match getProp e "message" with
        | Return message =>
            (called, Return (formatToolError (caughtError name args message)))
        | Throw e' => (called, Throw e')
        end
  | Return r =>
      if successMessageFails m args
      then exists message,
          dispatch (mkRequest name args) knowledgeGraphManager w
          = (called, Return (formatToolError (caughtError name args (JStr message))))
      else exists options,
          dispatch (mkRequest name args) knowledgeGraphManager w
          = (called, Return (formatToolResponse options))
  end.
Proof.
  intros Hargs Hm. pose proof (builtin_names name m Hm) as Hname.
  destruct m; subst name;
    unfold handleCallToolRequest, methodArguments, successMessageFails,
           methodArguments, argumentField;
    cbn [JS.truthy]; simpl; rewrite Hargs; simpl;
    unfold bind, lift, ret, try_catch, invoke; simpl;
    try match goal with
        | |- context [getProp args ?k] =>
            destruct (getProp_truthy args k Hargs) as [x ->]; simpl
        end;
    match goal with
    | |- context [knowledgeGraphManager ?m ?a ?g] =>
        destruct (knowledgeGraphManager m a g) as [g' [r|e]]; simpl
    end;
    try (destruct (getProp e "message"); reflexivity);
    try (destruct x; simpl; eexists; reflexivity);
    try (eexists; reflexivity).
Qed.

(** What a schema tool does with truthy arguments: one call to the dynamic
    tools, then the catch block, the result passed on, or the result wrapped
    as a success. *)
Lemma dispatch_dynamic (name : string) (args : JsVal)
      (knowledgeGraphManager : KnowledgeGraphManager G) (w : World G) :
  truthy args = true ->
  builtin name = None ->
  matchesDynamicPattern name = true ->
  let called := mkWorld (fst (dynamicTools name args knowledgeGraphManager (graph w)))
                        (calls w ++ [DynamicCall name args]) in
  dispatch (mkRequest name args) knowledgeGraphManager w
  = match snd (dynamicTools name args knowledgeGraphManager (graph w)) with
    | Throw e =>
        match getProp e "message" with
        | Return message =>
            (called, Return (formatToolError (caughtError name args message)))
        | Throw e' => (called, Throw e')
        end
    | Return toolResult =>
        match getProp toolResult "toolResult" with
        | Throw e =>
            match getProp e "message" with
            | Return message =>
                (called, Return (formatToolError (caughtError name args message)))
            | Throw e' => (called, Throw e')
            end
        | Return _ =>
            if isFormattedError toolResult then (called, Return toolResult)
            else (called,
                  Return (formatToolResponse
                            {| data := Some toolResult;
                               message := "Successfully executed tool: " ++ name;
                               actionTaken := "Executed tool: " ++ name |}))
        end
    end.
Proof.
  intros Hargs Hnone Hdyn.
  unfold handleCallToolRequest, builtin in *; simpl in *.
  rewrite Hargs; simpl.
  repeat match goal with
         | |- context [String.eqb name ?s] =>
             destruct (String.eqb_spec name s) as [->|?]; simpl in *
         end; try discriminate.
  rewrite Hdyn. unfold bind, lift, ret, try_catch, invokeDynamic; simpl.
  destruct (dynamicTools name args knowledgeGraphManager (graph w)) as [g' [v|e]]; simpl;
    [| destruct (getProp e "message"); reflexivity].
  unfold isFormattedError.
  destruct (getProp v "toolResult") as [inner|e] eqn:Hinner; simpl;
    [| destruct (getProp e "message"); reflexivity].
  destruct (truthy inner) eqn:Ht; simpl.
  - destruct (getProp_truthy inner "isError" Ht) as [flag ->]; simpl.
    destruct (truthy flag); reflexivity.
  - rewrite Ht. reflexivity.
Qed.

Lemma dispatch_unknown (name : string) (args : JsVal)
      (knowledgeGraphManager : KnowledgeGraphManager G) (w : World G) :
  truthy args = true ->
  builtin name = None ->
  matchesDynamicPattern name = false ->
  fst (dispatch (mkRequest name args) knowledgeGraphManager w) = w.
Proof.
  intros Hargs Hnone Hdyn.
  unfold handleCallToolRequest, builtin in *; simpl in *.
  rewrite Hargs; simpl.
  repeat match goal with
         | |- context [String.eqb name ?s] =>
             destruct (String.eqb_spec name s) as [->|?]; simpl in *
         end; try discriminate.
  rewrite Hdyn. reflexivity.
Qed.

(** **** X1: a request makes at most one call, to the graph store or to the
    dynamic tools, and none at all when it carries no arguments. *)
Theorem dispatch_at_most_one_call (request : Request)
        (knowledgeGraphManager : KnowledgeGraphManager G) (w : World G) :
  exists made,
    calls (fst (dispatch request knowledgeGraphManager w)) = (calls w ++ made)%list
    /\ (List.length made <= 1)%nat
    /\ (truthy (arguments request) = false -> made = []).
Proof.
  destruct request as [name args]. simpl arguments.
  destruct (truthy args) eqn:Hargs.
  - destruct (builtin name) as [m|] eqn:Hm.
    + pose proof (dispatch_builtin name m args knowledgeGraphManager w Hargs Hm) as H.
      cbv zeta in H.
      exists [StoreCall m (methodArguments m args)].
      split; [| split; [simpl; lia | discriminate]].
      destruct (snd (knowledgeGraphManager m (methodArguments m args) (graph w))).
      * destruct (successMessageFails m args); destruct H as [x ->]; reflexivity.
      * rewrite H. destruct (getProp e "message"); reflexivity.
    + destruct (matchesDynamicPattern name) eqn:Hdyn.
      * exists [DynamicCall name args].
        split; [| split; [simpl; lia | discriminate]].
        rewrite (dispatch_dynamic name args knowledgeGraphManager w Hargs Hm Hdyn).
        destruct (snd (dynamicTools name args knowledgeGraphManager (graph w)))
          as [v|e].
        -- destruct (getProp v "toolResult") as [inner|e].
           ++ destruct (isFormattedError v); reflexivity.
           ++ destruct (getProp e "message"); reflexivity.
        -- destruct (getProp e "message"); reflexivity.
      * exists []. rewrite (dispatch_unknown name args knowledgeGraphManager w Hargs Hm Hdyn).
        split; [now rewrite app_nil_r | split; [simpl; lia | reflexivity]].
  - exists []. unfold handleCallToolRequest. simpl. rewrite Hargs.
    split; [simpl; now rewrite app_nil_r | split; [simpl; lia | reflexivity]].
Qed.

(** **** X2: when the method of a built-in tool throws anything but [null]
    or [undefined], the answer is the error envelope that carries the
    [message] of what was thrown, the name of the tool and the arguments;
    the graph is left as the method left it. *)
Theorem dispatch_store_error_reported (name : string) (m : StoreMethod)
        (args : JsVal) (knowledgeGraphManager : KnowledgeGraphManager G)
        (w : World G) (g' : G) (e : JsVal) :
  truthy args = true ->
  builtin name = Some m ->
  knowledgeGraphManager m (methodArguments m args) (graph w) = (g', Throw e) ->
  isNullish e = false ->
  exists message,
    getProp e "message" = Return message
    /\ dispatch (mkRequest name args) knowledgeGraphManager w
       = (mkWorld g' (calls w ++ [StoreCall m (methodArguments m args)]),
          Return (formatToolError (caughtError name args message))).
Proof.
  intros Hargs Hm Hcall He.
  pose proof (dispatch_builtin name m args knowledgeGraphManager w Hargs Hm) as H.
  cbv zeta in H. rewrite Hcall in H. cbn [fst snd] in H.
  destruct (getProp_not_nullish e "message" He) as [message Hmsg].
  exists message. split; [exact Hmsg |]. now rewrite Hmsg in H.
Qed.


(** **** X4: the answer of a schema tool that returned.  A result that is
    [null] or [undefined] is answered with an error envelope; a result
    flagged [toolResult.isError] is passed on as it is; any other result is
    wrapped as the data of a success. *)
Theorem dispatch_dynamic_result (name : string) (args : JsVal)
        (knowledgeGraphManager : KnowledgeGraphManager G)
        (w : World G) (g' : G) (toolResult : JsVal) :
  truthy args = true ->
  builtin name = None ->
  dynamicName name ->
  dynamicTools name args knowledgeGraphManager (graph w) = (g', Return toolResult) ->
  let called := mkWorld g' (calls w ++ [DynamicCall name args]) in
  (isNullish toolResult = true ->
   exists message,
     dispatch (mkRequest name args) knowledgeGraphManager w
     = (called, Return (formatToolError (caughtError name args (JStr message)))))
  /\ (isNullish toolResult = false -> isFormattedError toolResult = true ->
      dispatch (mkRequest name args) knowledgeGraphManager w
      = (called, Return toolResult))
  /\ (isNullish toolResult = false -> isFormattedError toolResult = false ->
      dispatch (mkRequest name args) knowledgeGraphManager w
      = (called,
         Return (formatToolResponse
                   {| data := Some toolResult;
                      message := "Successfully executed tool: " ++ name;
                      actionTaken := "Executed tool: " ++ name |}))).
Proof.
  intros Hargs Hnone Hname Hcall.
  apply (matchesDynamicPattern_spec G dynamicTools) in Hname.
  pose proof (dispatch_dynamic name args knowledgeGraphManager w Hargs Hnone Hname) as H.
  cbv zeta in *. rewrite Hcall in H. cbn [fst snd] in H.
  split; [| split].
  - intros Hnull. destruct toolResult; try discriminate; simpl in H; eauto.
  - intros Hnull Hflag.
    destruct (getProp_not_nullish toolResult "toolResult" Hnull) as [inner Hinner].
    now rewrite Hinner, Hflag in H.
  - intros Hnull Hflag.
    destruct (getProp_not_nullish toolResult "toolResult" Hnull) as [inner Hinner].
    now rewrite Hinner, Hflag in H.
Qed.

(** **** X5: when the dispatcher itself throws.  It ends abruptly only
    after the one call it made, to the method of a built-in tool or to the
    dynamic tools, threw [null] or [undefined]; in every other case it
    returns a response. *)
Theorem dispatch_throws_only_after_nullish (request : Request)
        (knowledgeGraphManager : KnowledgeGraphManager G) (w : World G)
        (thrown : JsVal) :
  snd (dispatch request knowledgeGraphManager w) = Throw thrown ->
  truthy (arguments request) = true
  /\ exists e,
      isNullish e = true
      /\ ((exists m,
             builtin (name request) = Some m
             /\ snd (knowledgeGraphManager m (methodArguments m (arguments request))
                                           (graph w)) = Throw e)
          \/ (builtin (name request) = None
              /\ matchesDynamicPattern (name request) = true
              /\ snd (dynamicTools (name request) (arguments request)
                                   knowledgeGraphManager (graph w)) = Throw e)).
Proof.
  destruct request as [toolName args]. cbn [name arguments].
  assert (Hcaught : forall e (called : World G),
             isNullish e = false ->
             snd (match getProp e "message" with
                  | Return message =>
                      (called, Return (formatToolError (caughtError toolName args message)))
                  | Throw e' => (called, Throw e')
                  end) = Throw thrown -> False).
  { intros e called He. destruct (getProp_not_nullish e "message" He) as [x ->].
    discriminate. }
  destruct (truthy args) eqn:Hargs.
  - intros Hthrow. split; [reflexivity |].
    destruct (builtin toolName) as [m|] eqn:Hm.
    + pose proof (dispatch_builtin toolName m args knowledgeGraphManager w Hargs Hm) as H.
      cbv zeta in H.
      destruct (snd (knowledgeGraphManager m (methodArguments m args) (graph w)))
        as [r|e] eqn:Hcall.
      * destruct (successMessageFails m args); destruct H as [x H];
          rewrite H in Hthrow; discriminate.
      * rewrite H in Hthrow. destruct (isNullish e) eqn:He.
        -- exists e. split; [exact He |]. left. exists m. auto.
        -- exfalso. exact (Hcaught e _ He Hthrow).
    + destruct (matchesDynamicPattern toolName) eqn:Hdyn.
      * rewrite (dispatch_dynamic toolName args knowledgeGraphManager w Hargs Hm Hdyn)
          in Hthrow.
        destruct (snd (dynamicTools toolName args knowledgeGraphManager (graph w)))
          as [v|e] eqn:Hcall.
        -- destruct (getProp v "toolResult") as [inner|e] eqn:Hinner.
           ++ destruct (isFormattedError v); discriminate.
           ++ exfalso. exact (Hcaught e _ (getProp_throws _ _ _ Hinner) Hthrow).
        -- destruct (isNullish e) eqn:He.
           ++ exists e. split; [exact He |]. right. auto.
           ++ exfalso. exact (Hcaught e _ He Hthrow).
      * exfalso. revert Hthrow.
        unfold handleCallToolRequest, builtin in *; simpl in *.
        rewrite Hargs; simpl.
        repeat match goal with
               | |- context [String.eqb toolName ?s] =>
                   destruct (String.eqb_spec toolName s) as [->|?]; simpl in *
               end; try discriminate.
        rewrite Hdyn. discriminate.
  - unfold handleCallToolRequest. simpl. rewrite Hargs. discriminate.
Qed.

End DispatchRuns.

(** ** The registry in every state *)

Section RegistryRuns.

Variables G Env : Type.
Variable formatToolResponse : ResponseOptions -> JsVal.
Variable formatToolError : ErrorOptions -> JsVal.
Variable initializeDynamicTools :
  Env -> Env * completion (IDynamicSchemaToolRegistry G).

(** **** X6: [handleToolCall] never throws: whatever the state of the
    manager and whatever the registry's handler does, a value is returned. *)
Theorem handleToolCall_always_returns (this : DynamicToolManager G)
        (toolName : string) (args : JsVal)
        (knowledgeGraphManager : KnowledgeGraphManager G) (g : G) :
  exists result,
    snd (handleToolCall formatToolError this toolName args knowledgeGraphManager g)
    = Return result.
Proof.
  unfold handleToolCall.
  destruct (initialized this); [| eexists; reflexivity].
  destruct (registry this) as [r|]; [| eexists; reflexivity].
  destruct (registry_handleToolCall r toolName args knowledgeGraphManager g)
    as [g' [v|e]]; eexists; reflexivity.
Qed.

(** **** X7: [isDynamicTool] never throws, in any state, and answers [true]
    exactly when the manager is initialized and a compiled tool has the
    name. *)
Theorem isDynamicTool_spec (this : DynamicToolManager G) (toolName : string) :
  exists answer,
    isDynamicTool this toolName = Return answer
    /\ (answer = true
        <-> exists r tool,
            initialized this = true /\ registry this = Some r
            /\ In tool (registry_getTools r) /\ tool_name tool = toolName).
Proof.
  unfold isDynamicTool, getTools.
  destruct (initialized this) eqn:Hi.
  - destruct (registry this) as [r|] eqn:Hr.
    + eexists. split; [reflexivity |].
      rewrite existsb_exists. split.
      * intros [tool [Hin Heq]]. apply String.eqb_eq in Heq. exists r, tool. auto.
      * intros [r' [tool [_ [Hr' [Hin Heq]]]]]. injection Hr' as <-.
        exists tool. split; [exact Hin | now apply String.eqb_eq].
    + exists false. split; [reflexivity |].
      split; [discriminate | intros [r [tool [_ [Hr' _]]]]; discriminate].
  - exists false. split; [reflexivity |].
    split; [discriminate | intros [r [tool [Hi' _]]]; discriminate].
Qed.

(** **** X8: in every state the manager can reach, the flag and the registry
    go together: [getTools] returns the tools of the registry when the flag
    is set, and throws when there is neither flag nor registry. *)
Theorem reachable_flag_and_registry (this : DynamicToolManager G) :
  reachable initializeDynamicTools this ->
  match getTools this with
  | Return tools =>
      initialized this = true
      /\ exists r, registry this = Some r /\ tools = registry_getTools r
  | Throw _ => initialized this = false /\ registry this = None
  end.
Proof.
  induction 1 as [| this env Hreach IH].
  - simpl. auto.
  - unfold initialize. unfold getTools in IH.
    destruct (initialized this) eqn:Hi.
    + simpl. unfold getTools. rewrite Hi.
      destruct (registry this) as [r|]; [exact IH | destruct IH; discriminate].
    + destruct (initializeDynamicTools env) as [env' [r|e]]; simpl.
      * split; [reflexivity | eauto].
      * unfold getTools. rewrite Hi. exact IH.
Qed.

(** The imported formatter marks its error envelopes the way the dispatcher
    looks for them. *)
Hypothesis formatted_errors_flagged :
  forall options, isFormattedError (formatToolError options) = true.

(** A flagged value that the dynamic tools return is the answer. *)
Lemma dispatch_flagged_result
      (dynamicTools :
         string -> JsVal -> KnowledgeGraphManager G -> G -> G * completion JsVal)
      (name : string) (args : JsVal)
      (knowledgeGraphManager : KnowledgeGraphManager G) (w : World G)
      (g' : G) (options : ErrorOptions) :
  truthy args = true ->
  builtin name = None ->
  dynamicName name ->
  dynamicTools name args knowledgeGraphManager (graph w)
  = (g', Return (formatToolError options)) ->
  handleCallToolRequest formatToolResponse formatToolError dynamicTools
    (mkRequest name args) knowledgeGraphManager w
  = (mkWorld g' (calls w ++ [DynamicCall name args]),
     Return (formatToolError options)).
Proof.
  intros Hargs Hnone Hname Hcall.
  apply (matchesDynamicPattern_spec G dynamicTools) in Hname.
  rewrite (dispatch_dynamic G formatToolResponse formatToolError dynamicTools
             name args knowledgeGraphManager w Hargs Hnone Hname).
  rewrite Hcall. cbn [fst snd].
  pose proof (formatted_errors_flagged options) as Hflag.
  rewrite Hflag. unfold isFormattedError in Hflag.
  destruct (getProp (formatToolError options) "toolResult"); [reflexivity | discriminate].
Qed.

(** **** X9: dispatcher and registry together.  A schema tool called before
    the registry is initialized makes one call to the dynamic tools, runs no
    handler, leaves the graph as it was, and the "not initialized" envelope
    of the registry is the answer, passed on as it is. *)
Theorem dispatch_before_registry_ready (this : DynamicToolManager G)
        (name : string) (args : JsVal)
        (knowledgeGraphManager : KnowledgeGraphManager G) (w : World G) :
  truthy args = true ->
  builtin name = None ->
  dynamicName name ->
  neverInitialized initializeDynamicTools this ->
  handleCallToolRequest formatToolResponse formatToolError
    (handleToolCall formatToolError this) (mkRequest name args)
    knowledgeGraphManager w
  = (mkWorld (graph w) (calls w ++ [DynamicCall name args]),
     Return (formatToolError (notInitializedError name))).
Proof.
  intros Hargs Hnone Hname Hnever.
  apply neverInitialized_flag in Hnever.
  assert (Hcall : handleToolCall formatToolError this name args knowledgeGraphManager
                                 (graph w)
                  = (graph w, Return (formatToolError (notInitializedError name)))).
  { unfold handleToolCall. now rewrite Hnever. }
  now apply dispatch_flagged_result.
Qed.

(** **** X10: an error of a compiled handler reaches the caller once.  When
    the registry's handler throws, the envelope [handleToolCall] builds from
    it is what the dispatcher answers, with the graph as the handler left
    it; it is not wrapped again as the data of a success. *)
Theorem dispatch_handler_error_passed_on (this : DynamicToolManager G)
        (r : IDynamicSchemaToolRegistry G) (name : string) (args : JsVal)
        (knowledgeGraphManager : KnowledgeGraphManager G) (w : World G)
        (g' : G) (e : JsVal) :
  truthy args = true ->
  builtin name = None ->
  dynamicName name ->
  initialized this = true ->
  registry this = Some r ->
  registry_handleToolCall r name args knowledgeGraphManager (graph w) = (g', Throw e) ->
  handleCallToolRequest formatToolResponse formatToolError
    (handleToolCall formatToolError this) (mkRequest name args)
    knowledgeGraphManager w
  = (mkWorld g' (calls w ++ [DynamicCall name args]),
     Return (formatToolError (handlerError name args e))).
Proof.
  intros Hargs Hnone Hname Hi Hr Hthrow.
  assert (Hcall : handleToolCall formatToolError this name args knowledgeGraphManager
                                 (graph w)
                  = (g', Return (formatToolError (handlerError name args e)))).
  { unfold handleToolCall. rewrite Hi, Hr, Hthrow. reflexivity. }
  now apply dispatch_flagged_result.
Qed.

End RegistryRuns.

(** ** The dispatcher and the registry on examples *)

(** A store whose disk is full, asked to add nodes. *)
Lemma dispatch_store_error_reported_witness :
  exists message,
    getProp (JError "Error" "disk full") "message" = Return message
    /\ handleCallToolRequest spec_formatToolResponse spec_formatToolError
         idleDynamicTools (mkRequest "add_nodes" (JObj [("nodes", JArr [])]))
         failingManager (mkWorld tt [])
       = (mkWorld tt [StoreCall addNodes [JArr []]],
          Return (spec_formatToolError
                    (caughtError "add_nodes" (JObj [("nodes", JArr [])]) message))).
Proof.
  apply (dispatch_store_error_reported
           unit spec_formatToolResponse spec_formatToolError idleDynamicTools
           "add_nodes" addNodes (JObj [("nodes", JArr [])]) failingManager
           (mkWorld tt []) tt (JError "Error" "disk full"));
    reflexivity.
Defined.


(** A schema tool that resolves to an empty object: the object is the data
    of a success. *)
Lemma dispatch_dynamic_result_witness :
  dynamicName "add_npc"
  /\ handleCallToolRequest spec_formatToolResponse spec_formatToolError
       idleDynamicTools (mkRequest "add_npc" (JObj [])) idleManager (mkWorld tt [])
     = (mkWorld tt [DynamicCall "add_npc" (JObj [])],
        Return (spec_formatToolResponse
                  {| data := Some (JObj []);
                     message := "Successfully executed tool: add_npc";
                     actionTaken := "Executed tool: add_npc" |})).
Proof.
  assert (Hname : dynamicName "add_npc") by (left; exists "npc"; reflexivity).
  split; [exact Hname |].
  destruct (dispatch_dynamic_result
              unit spec_formatToolResponse spec_formatToolError idleDynamicTools
              "add_npc" (JObj []) idleManager (mkWorld tt []) tt (JObj [])
              eq_refl eq_refl Hname eq_refl) as [_ [_ Hwrapped]].
  exact (Hwrapped eq_refl eq_refl).
Defined.

(** Dynamic tools that reject with [undefined] make the dispatcher throw. *)
Lemma dispatch_throws_only_after_nullish_witness :
  truthy (JObj []) = true
  /\ exists e,
      isNullish e = true
      /\ ((exists m,
             builtin "add_npc" = Some m
             /\ snd (idleManager m (methodArguments m (JObj [])) tt) = Throw e)
          \/ (builtin "add_npc" = None
              /\ matchesDynamicPattern "add_npc" = true
              /\ snd (rejectingDynamicTools "add_npc" (JObj []) idleManager tt)
                 = Throw e)).
Proof.
  apply (dispatch_throws_only_after_nullish
           unit spec_formatToolResponse spec_formatToolError rejectingDynamicTools
           (mkRequest "add_npc" (JObj [])) idleManager (mkWorld tt [])
           (TypeError "Cannot read properties of undefined (reading 'message')")).
  reflexivity.
Defined.

(** The schema directory is read at the second attempt: the flag is set and
    the tools are those of the registry. *)
Lemma reachable_flag_and_registry_witness :
  let first := fst (fst (initialize flakySchemas getInstance 0%nat)) in
  let second := fst (fst (initialize flakySchemas first 1%nat)) in
  reachable flakySchemas second
  /\ initialized second = true
  /\ exists r,
      registry second = Some r
      /\ [mkTool "add_npc" "Add a new NPC"] = registry_getTools r.
Proof.
  cbv zeta.
  assert (H : reachable flakySchemas
                (fst (fst (initialize flakySchemas
                             (fst (fst (initialize flakySchemas getInstance 0%nat)))
                             1%nat)))).
  { apply reachable_initialize. apply reachable_initialize. apply reachable_fresh. }
  split; [exact H |].
  exact (reachable_flag_and_registry unit nat flakySchemas _ H).
Defined.

Lemma spec_formatToolError_flagged (options : ErrorOptions) :
  isFormattedError (spec_formatToolError options) = true.
Proof. reflexivity. Qed.

(** [add_npc] asked of a manager whose schema directory could not be read. *)
Lemma dispatch_before_registry_ready_witness :
  let this := fst (fst (initialize brokenSchemas getInstance tt)) in
  neverInitialized brokenSchemas this
  /\ handleCallToolRequest spec_formatToolResponse spec_formatToolError
       (handleToolCall spec_formatToolError this) (mkRequest "add_npc" (JObj []))
       idleManager (mkWorld tt [])
     = (mkWorld tt [DynamicCall "add_npc" (JObj [])],
        Return (spec_formatToolError (notInitializedError "add_npc"))).
Proof.
  cbv zeta.
  assert (H : neverInitialized brokenSchemas
                (fst (fst (initialize brokenSchemas getInstance tt)))).
  { apply (never_failed unit unit brokenSchemas getInstance tt _ tt
             (JError "Error" "Dynamic tools initialization failed")).
    - apply never_fresh.
    - reflexivity. }
  split; [exact H |].
  apply (dispatch_before_registry_ready
           unit unit spec_formatToolResponse spec_formatToolError brokenSchemas
           spec_formatToolError_flagged _ "add_npc" (JObj []) idleManager
           (mkWorld tt []));
    [reflexivity | reflexivity | left; exists "npc"; reflexivity | exact H].
Defined.

(** [add_npc] without a role, asked of a registry whose handler throws. *)
Lemma dispatch_handler_error_passed_on_witness :
  handleCallToolRequest spec_formatToolResponse spec_formatToolError
    (handleToolCall spec_formatToolError
       {| registry := Some failingRegistry; initialized := true |})
    (mkRequest "add_npc" (JObj [("name", JStr "Garrick")]))
    idleManager (mkWorld tt [])
  = (mkWorld tt [DynamicCall "add_npc" (JObj [("name", JStr "Garrick")])],
     Return (spec_formatToolError
               (handlerError "add_npc" (JObj [("name", JStr "Garrick")])
                             (JError "Error" "Missing required field: role")))).
Proof.
  apply (dispatch_handler_error_passed_on
           unit spec_formatToolResponse spec_formatToolError
           spec_formatToolError_flagged
           {| registry := Some failingRegistry; initialized := true |}
           failingRegistry "add_npc" (JObj [("name", JStr "Garrick")])
           idleManager (mkWorld tt []) tt
           (JError "Error" "Missing required field: role"));
    [reflexivity | reflexivity | left; exists "npc"; reflexivity
    | reflexivity | reflexivity | reflexivity].
Defined.

(** ** The explorer: what a search reads and returns *)

Section ExplorerRuns.

Import Graph.

Variables toLowerCase trim : string -> string.

Local Abbreviation findNodes := (QueryGraph.findNodes toLowerCase trim).

Lemma filter_everything {A : Type} (l : list A) : filter (fun _ => true) l = l.
Proof. induction l; simpl; [reflexivity | now f_equal]. Qed.

(** **** X11: a search selects among the nodes of the graph: whatever the
    query, the result is the list of nodes with some of them left out, in
    the order of the graph; nothing is added, repeated or moved. *)
Theorem findNodes_selects (graph : list GraphItem) (query : string) :
  exists keep, findNodes graph query = filter keep (nodesOf graph).
Proof.
  unfold QueryGraph.findNodes, QueryGraph.generalSearch.
  destruct (Str.isEmpty query).
  - exists (fun _ => true). now rewrite filter_everything.
  - destruct (Str.includes ":" query); [| eexists; reflexivity].
    destruct (map _ (Str.split ":" query)) as [|field [|value rest]];
      try (eexists; reflexivity).
    destruct ((field =? "type") || (field =? "nodetype")); [eexists; reflexivity |].
    destruct (field =? "tag"); eexists; reflexivity.
Qed.

Lemma filter_both {A : Type} (f g : A -> bool) (l : list A) :
  filter (fun x => f x && g x) l = filter g (filter f l).
Proof.
  induction l as [|a l IH]; simpl; [reflexivity |].
  destruct (f a); simpl; [destruct (g a); now rewrite IH | exact IH].
Qed.

(** **** X12: a search reads the nodes and the [tagged_with] edges only: two
    graphs with the same nodes and the same tag edges give the same result
    for every query, whatever other edges they hold. *)
Theorem findNodes_reads_nodes_and_tag_edges
        (graph graph' : list GraphItem) (query : string) :
  nodesOf graph = nodesOf graph' ->
  filter isTagEdge (edgesOf graph) = filter isTagEdge (edgesOf graph') ->
  findNodes graph query = findNodes graph' query.
Proof.
  intros Hnodes Htags. unfold QueryGraph.findNodes. rewrite Hnodes.
  destruct (Str.isEmpty query); [reflexivity |].
  destruct (Str.includes ":" query); [| reflexivity].
  destruct (map _ (Str.split ":" query)) as [|field [|value rest]]; try reflexivity.
  destruct ((field =? "type") || (field =? "nodetype")); [reflexivity |].
  destruct (field =? "tag"); [| reflexivity].
  assert (Hsplit : forall g,
             filter (fun item => (edgeType item =? "tagged_with")
                                 && (toLowerCase (to item) =? value))
                    (edgesOf g)
             = filter (fun item => toLowerCase (to item) =? value)
                      (filter isTagEdge (edgesOf g)))
    by (intros g; apply (filter_both isTagEdge)).
  cbv zeta. now rewrite !Hsplit, Htags.
Qed.

End ExplorerRuns.

Lemma findNodes_reads_nodes_and_tag_edges_witness :
  Graph.nodesOf townGraph = Graph.nodesOf townGraphTagsOnly
  /\ filter isTagEdge (Graph.edgesOf townGraph)
     = filter isTagEdge (Graph.edgesOf townGraphTagsOnly)
  /\ QueryGraph.findNodes Str.asciiToLowerCase Str.asciiTrim townGraph "tag:smiths"
     = QueryGraph.findNodes Str.asciiToLowerCase Str.asciiTrim
                            townGraphTagsOnly "tag:smiths".
Proof.
  split; [reflexivity |]. split; [reflexivity |].
  apply (findNodes_reads_nodes_and_tag_edges
           Str.asciiToLowerCase Str.asciiTrim townGraph townGraphTagsOnly "tag:smiths");
    reflexivity.
Defined.

(** ** The explorer: loading the memory file *)

Section LoaderRuns.

Import Graph JSON BuildKnowledgeGraph.

Variable trim : string -> string.

Local Abbreviation parseLines := LoadGraph.parseLines.
Local Abbreviation loadGraph := (LoadGraph.loadGraph trim).
Local Abbreviation notBlank := (notBlank trim).

(** What [loadGraph] does with the lines of a file. *)
Lemma loadGraph_lines (lines : list string) :
  lines <> [] ->
  Forall (Str.charFree lineFeed) lines ->
  loadGraph (Some (String.concat (String lineFeed "") lines))
  = parseLines (filter notBlank lines).
Proof.
  intros Hne Hfree. unfold LoadGraph.loadGraph. now rewrite split_concat.
Qed.

Lemma parseLines_throw (lines : list string) (line : string) (e : JsVal) :
  In line lines -> parse line = Throw e -> parseLines lines = None.
Proof.
  induction lines as [|l lines IH]; intros Hin Hthrow; [destruct Hin |].
  cbn [LoadGraph.parseLines]. destruct Hin as [->|Hin].
  - now rewrite Hthrow.
  - destruct (parse l); [| reflexivity]. now rewrite (IH Hin Hthrow).
Qed.

(** A sign or a letter that starts no number. *)
Lemma parseNumber_no_digit (c : ascii) (r : string) :
  isDigit c = false -> Ascii.eqb c "-" = false -> parseNumber (String c r) = None.
Proof.
  intros Hdigit Hminus. unfold parseNumber.
  destruct c as [[] [] [] [] [] [] [] []];
    try discriminate Hminus; cbv beta iota; now rewrite Hdigit.
Qed.

(** A text whose first character can start no JSON text is not JSON. *)
Lemma parse_bad_start (line rest : string) (c : ascii) :
  skipSpace line = String c rest ->
  canStartJson c = false ->
  parse line = Throw SyntaxError.
Proof.
  intros Hskip Hstart. unfold canStartJson in Hstart.
  repeat (apply orb_false_iff in Hstart; destruct Hstart as [Hstart ?]).
  unfold parse. cbn [parseValue]. rewrite Hskip.
  repeat match goal with
         | H : Ascii.eqb c ?x = false |- context [Ascii.eqb c ?x] => rewrite H
         end.
  now rewrite parseNumber_no_digit.
Qed.

Hypothesis trim_law : Str.trimLaw trim.

(** **** X13: blank lines do not count.  When the lines of a file that are
    not blank are the texts of some records, these records are what is
    loaded, wherever empty or white-space lines stand: between records,
    before them, or after them as a final line break leaves one. *)
Theorem loadGraph_skips_blank_lines (items : list JsVal) (lines : list string) :
  Forall isRecord items ->
  Forall (Str.charFree lineFeed) lines ->
  filter notBlank lines = map stringify items ->
  loadGraph (Some (String.concat (String lineFeed "") lines)) = Some items.
Proof.
  intros Hitems Hfree Hkept.
  destruct lines as [|l lines].
  - destruct items; [| discriminate].
    cbn. now rewrite (proj1 trim_law).
  - rewrite loadGraph_lines by (discriminate || assumption).
    rewrite Hkept. now apply (parseLines_records trim trim_law).
Qed.

(** **** X14: one line that is not JSON ends the loading.  If a line that is
    not blank begins, after the white space of JSON, with a character that
    starts no JSON text, no graph is returned, however many good records the
    file holds. *)
Theorem loadGraph_rejects_corrupt_line (lines : list string) (line rest : string)
        (c : ascii) :
  Forall (Str.charFree lineFeed) lines ->
  In line lines ->
  notBlank line = true ->
  skipSpace line = String c rest ->
  canStartJson c = false ->
  loadGraph (Some (String.concat (String lineFeed "") lines)) = None.
Proof.
  intros Hfree Hin Hblank Hskip Hstart.
  rewrite loadGraph_lines; [| intros ->; destruct Hin | exact Hfree].
  apply (parseLines_throw _ line SyntaxError);
    [| exact (parse_bad_start line rest c Hskip Hstart)].
  apply filter_In. auto.
Qed.

End LoaderRuns.

Lemma loadGraph_skips_blank_lines_witness :
  let node := BuildKnowledgeGraph.formatNode (BuildKnowledgeGraph.nodeRecord garrick) in
  let edge := BuildKnowledgeGraph.formatRelationship
                (BuildKnowledgeGraph.edgeRecord
                   (Graph.mkEdge "Garrick" "Tavern" "located_in")) in
  let lines := [""; JSON.stringify node; "   "; JSON.stringify edge; ""] in
  Str.trimLaw Str.asciiTrim
  /\ Forall BuildKnowledgeGraph.isRecord [node; edge]
  /\ Forall (Str.charFree lineFeed) lines
  /\ filter (notBlank Str.asciiTrim) lines = map JSON.stringify [node; edge]
  /\ LoadGraph.loadGraph Str.asciiTrim
       (Some (String.concat (String lineFeed "") lines))
     = Some [node; edge].
Proof.
  cbv zeta.
  set (node := BuildKnowledgeGraph.formatNode (BuildKnowledgeGraph.nodeRecord garrick)).
  set (edge := BuildKnowledgeGraph.formatRelationship
                 (BuildKnowledgeGraph.edgeRecord
                    (Graph.mkEdge "Garrick" "Tavern" "located_in"))).
  assert (Hitems : Forall BuildKnowledgeGraph.isRecord [node; edge]).
  { apply Forall_cons; [left; eexists; reflexivity |].
    apply Forall_cons; [right; eexists; reflexivity | apply Forall_nil]. }
  assert (Hfree : Forall (Str.charFree lineFeed)
                    [""; JSON.stringify node; "   "; JSON.stringify edge; ""]).
  { repeat constructor; intros H; apply includes_char in H; vm_compute in H;
      discriminate. }
  assert (Hkept : filter (notBlank Str.asciiTrim)
                         [""; JSON.stringify node; "   "; JSON.stringify edge; ""]
                  = map JSON.stringify [node; edge])
    by (vm_compute; reflexivity).
  split; [exact asciiTrim_law |].
  split; [exact Hitems |]. split; [exact Hfree |]. split; [exact Hkept |].
  exact (loadGraph_skips_blank_lines Str.asciiTrim asciiTrim_law _ _ Hitems Hfree Hkept).
Defined.

(** A file left with the marker of an unfinished merge. *)
Lemma loadGraph_rejects_corrupt_line_witness :
  let good := JSON.stringify (BuildKnowledgeGraph.formatNode
                                (BuildKnowledgeGraph.nodeRecord garrick)) in
  Forall (Str.charFree lineFeed) [good; "  <<<<<<< HEAD"]
  /\ In "  <<<<<<< HEAD" [good; "  <<<<<<< HEAD"]
  /\ notBlank Str.asciiTrim "  <<<<<<< HEAD" = true
  /\ JSON.skipSpace "  <<<<<<< HEAD" = String "<" "<<<<<< HEAD"
  /\ canStartJson "<" = false
  /\ LoadGraph.loadGraph Str.asciiTrim
       (Some (String.concat (String lineFeed "") [good; "  <<<<<<< HEAD"]))
     = None.
Proof.
  cbv zeta.
  set (good := JSON.stringify (BuildKnowledgeGraph.formatNode
                                 (BuildKnowledgeGraph.nodeRecord garrick))).
  assert (Hfree : Forall (Str.charFree lineFeed) [good; "  <<<<<<< HEAD"]).
  { repeat constructor; intros H; apply includes_char in H; vm_compute in H;
      discriminate. }
  assert (Hin : In "  <<<<<<< HEAD" [good; "  <<<<<<< HEAD"])
    by (right; left; reflexivity).
  split; [exact Hfree |]. split; [exact Hin |].
  split; [reflexivity |]. split; [reflexivity |]. split; [reflexivity |].
  exact (loadGraph_rejects_corrupt_line Str.asciiTrim _ "  <<<<<<< HEAD" "<<<<<< HEAD" "<"
           Hfree Hin eq_refl eq_refl eq_refl).
Defined.

Section PaddedRecords.

Import Graph JSON BuildKnowledgeGraph.

Variable trim : string -> string.
Hypothesis trim_law : Str.trimLaw trim.

Local Abbreviation parseLines := LoadGraph.parseLines.
Local Abbreviation loadGraph := (LoadGraph.loadGraph trim).
Local Abbreviation notBlank := (notBlank trim).

Lemma skipSpace_idem (s : string) : skipSpace (skipSpace s) = skipSpace s.
Proof.
  induction s as [|c s IH]; [reflexivity |].
  cbn [skipSpace]. destruct (isJsonSpace c) eqn:Hc; [exact IH |].
  cbn [skipSpace]. now rewrite Hc.
Qed.

Lemma parseValue_skipSpace (fuel : nat) (s : string) :
  parseValue (S fuel) (skipSpace s) = parseValue (S fuel) s.
Proof. cbn [parseValue]. now rewrite skipSpace_idem. Qed.

Lemma skipSpace_padding (pad s : string) :
  isPadding pad -> skipSpace (pad ++ s) = skipSpace s.
Proof.
  unfold isPadding. induction pad as [|c pad IH]; intros H; [reflexivity |].
  inversion H as [|? ? Hc Hrest]; subst.
  cbn [append skipSpace].
  destruct Hc as [->|[->| ->]]; now apply IH.
Qed.

Lemma skipSpace_only_padding (pad : string) : isPadding pad -> skipSpace pad = "".
Proof.
  intros H. pose proof (skipSpace_padding pad "" H) as Hs.
  replace (pad ++ "") with pad in Hs; [exact Hs |].
  clear. induction pad; simpl; [reflexivity | now rewrite <- IHpad].
Qed.

Lemma charFree_padding (pad : string) : isPadding pad -> Str.charFree lineFeed pad.
Proof.
  unfold isPadding, Str.charFree. intros H Hin.
  rewrite Forall_forall in H. destruct (H _ Hin) as [Hc|[Hc|Hc]]; discriminate.
Qed.

(** A record followed by any text is read up to its closing brace. *)
Lemma parseValue_formatNode_then (n : Node) (fuel : nat) (rest : string) :
  (List.length (metadata n) + 6 <= fuel)%nat ->
  parseValue (S fuel) (stringify (formatNode (nodeRecord n)) ++ rest) = Some (formatNode (nodeRecord n), rest).
Proof.
  intros Hfuel.
  destruct fuel as [|[|[|[|[|f]]]]]; try lia.
  rewrite stringify_formatNode.
  cbn [append]. repeat (rewrite append_assoc; cbn [append]).
  rewrite (quote_append "type"), parseValue_object, <- (quote_append "type").
  rewrite (parseMembers_more _ _ "type" _ _ (JStr "node")) by apply parseValue_string.
  rewrite (parseMembers_more _ _ "name" _ _ (JStr (name n))) by apply parseValue_string.
  rewrite (parseMembers_more _ _ "nodeType" _ _ (JStr (nodeType n)))
    by apply parseValue_string.
  rewrite (parseMembers_last _ _ "metadata" _ _ (JArr (map JStr (metadata n))))
    by (apply parseValue_strings; lia).
  reflexivity.
Qed.

Lemma parseValue_formatRelationship_then (e : Edge) (fuel : nat) (rest : string) :
  (5 <= fuel)%nat ->
  parseValue (S fuel) (stringify (formatRelationship (edgeRecord e)) ++ rest)
  = Some (formatRelationship (edgeRecord e), rest).
Proof.
  intros Hfuel.
  destruct fuel as [|[|[|[|[|f]]]]]; try lia.
  rewrite stringify_formatRelationship.
  cbn [append]. repeat (rewrite append_assoc; cbn [append]).
  rewrite (quote_append "type"), parseValue_object, <- (quote_append "type").
  rewrite (parseMembers_more _ _ "type" _ _ (JStr "edge")) by apply parseValue_string.
  rewrite (parseMembers_more _ _ "from" _ _ (JStr (from e))) by apply parseValue_string.
  rewrite (parseMembers_more _ _ "to" _ _ (JStr (to e))) by apply parseValue_string.
  rewrite (parseMembers_last _ _ "edgeType" _ _ (JStr (edgeType e)))
    by apply parseValue_string.
  reflexivity.
Qed.

Lemma node_text_length (n : Node) :
  (List.length (metadata n) + 6 <= String.length (stringify (formatNode (nodeRecord n))))%nat.
Proof.
  rewrite stringify_formatNode.
  repeat first [rewrite length_append | progress cbn [String.length]].
  pose proof (length_strings (metadata n)). lia.
Qed.

Lemma edge_text_length (e : Edge) :
  (5 <= String.length (stringify (formatRelationship (edgeRecord e))))%nat.
Proof.
  rewrite stringify_formatRelationship.
  repeat first [rewrite length_append | progress cbn [String.length]]. lia.
Qed.

Lemma record_starts_with_brace (item : JsVal) :
  isRecord item -> exists r, stringify item = String "{" r.
Proof.
  intros [[n ->]|[e ->]];
    [rewrite stringify_formatNode | rewrite stringify_formatRelationship]; eauto.
Qed.

(** A record is read back from its text with padding around it. *)
Lemma parse_padded_record (item : JsVal) (before after : string) :
  isRecord item -> isPadding before -> isPadding after ->
  parse (before ++ stringify item ++ after) = Return item.
Proof.
  intros Hitem Hbefore Hafter. unfold parse.
  rewrite <- parseValue_skipSpace, (skipSpace_padding before _ Hbefore),
    parseValue_skipSpace.
  assert (Hlen : String.length (stringify item)
                 <= String.length (before ++ stringify item ++ after))
    by (rewrite !length_append; lia).
  destruct Hitem as [[n ->]|[e ->]].
  - rewrite parseValue_formatNode_then.
    + now rewrite (skipSpace_only_padding after Hafter).
    + pose proof (node_text_length n). lia.
  - rewrite parseValue_formatRelationship_then.
    + now rewrite (skipSpace_only_padding after Hafter).
    + pose proof (edge_text_length e). lia.
Qed.

(** A line that holds a graphic character is not blank. *)
Lemma notBlank_holds (line : string) (c : ascii) :
  In c (list_ascii_of_string line) -> Str.isGraphic c = true -> notBlank line = true.
Proof.
  intros Hin Hc. apply negb_true_iff, String.eqb_neq.
  exact (proj2 trim_law line c Hin Hc).
Qed.

(** **** X15: white space around a record does no harm.  Records written
    one per line with spaces, tabs or carriage returns before or after their
    text (an indented file, a file with Windows line ends) are loaded as the
    records themselves. *)
Theorem loadGraph_padded_records (items : list JsVal) (before after : string) :
  Forall isRecord items ->
  isPadding before ->
  isPadding after ->
  loadGraph
    (Some (String.concat (String lineFeed "")
             (map (fun item => before ++ stringify item ++ after) items)))
  = Some items.
Proof.
  intros Hitems Hbefore Hafter.
  destruct items as [|item items]; [cbn; now rewrite (proj1 trim_law) |].
  rewrite loadGraph_lines.
  - rewrite filter_all.
    + induction Hitems as [|x l Hx _ IH]; [reflexivity |].
      cbn [map LoadGraph.parseLines]. rewrite (parse_padded_record x before after Hx Hbefore Hafter).
      now rewrite IH.
    + intros line Hline. apply in_map_iff in Hline. destruct Hline as [x [<- Hx]].
      rewrite Forall_forall in Hitems.
      destruct (record_starts_with_brace x (Hitems x Hx)) as [r ->].
      apply (notBlank_holds _ "{"%char); [| reflexivity].
      rewrite list_ascii_append. apply in_or_app. right. now left.
  - discriminate.
  - apply Forall_forall. intros line Hline.
    apply in_map_iff in Hline. destruct Hline as [x [<- Hx]].
    rewrite Forall_forall in Hitems.
    apply charFree_append; [now apply charFree_padding |].
    apply charFree_append; [apply (record_line trim trim_law); auto | now apply charFree_padding].
Qed.

End PaddedRecords.

Lemma loadGraph_padded_records_witness :
  let items := [ BuildKnowledgeGraph.formatNode
                   (BuildKnowledgeGraph.nodeRecord garrick);
                 BuildKnowledgeGraph.formatRelationship
                   (BuildKnowledgeGraph.edgeRecord
                      (Graph.mkEdge "Garrick" "Tavern" "located_in")) ] in
  let carriageReturn := String (ascii_of_nat 13) "" in
  Str.trimLaw Str.asciiTrim
  /\ Forall BuildKnowledgeGraph.isRecord items
  /\ isPadding "  " /\ isPadding carriageReturn
  /\ LoadGraph.loadGraph Str.asciiTrim
       (Some (String.concat (String lineFeed "")
                (map (fun item => "  " ++ JSON.stringify item ++ carriageReturn) items)))
     = Some items.
Proof.
  cbv zeta.
  assert (Hitems : Forall BuildKnowledgeGraph.isRecord
                     [BuildKnowledgeGraph.formatNode
                        (BuildKnowledgeGraph.nodeRecord garrick);
                      BuildKnowledgeGraph.formatRelationship
                        (BuildKnowledgeGraph.edgeRecord
                           (Graph.mkEdge "Garrick" "Tavern" "located_in"))]).
  { apply Forall_cons; [left; eexists; reflexivity |].
    apply Forall_cons; [right; eexists; reflexivity | apply Forall_nil]. }
  assert (Hbefore : isPadding "  ") by (repeat constructor).
  assert (Hafter : isPadding (String (ascii_of_nat 13) "")).
  { apply Forall_cons; [right; right; reflexivity | apply Forall_nil]. }
  split; [exact asciiTrim_law |].
  split; [exact Hitems |]. split; [exact Hbefore |]. split; [exact Hafter |].
  exact (loadGraph_padded_records Str.asciiTrim asciiTrim_law _ "  " _
           Hitems Hbefore Hafter).
Defined.

Section NodeCommand.

Import Graph.

Variables toLowerCase trim : string -> string.

Local Abbreviation onLine := (QueryGraph.onLine toLowerCase trim).
Local Abbreviation NodeShown := QueryGraph.NodeShown.
Local Abbreviation NodeNotFound := QueryGraph.NodeNotFound.

Lemma substring_whole (s : string) : substring 0 (String.length s) s = s.
Proof. induction s; simpl; [reflexivity | now f_equal]. Qed.

(** **** X16: the [node] command looks a node up by its exact name.  For a
    line that reads [node <name>], the reply shows the first node of the
    graph whose name is <name>, letter for letter, with exactly the edges
    that start at this name and those that end at it; when no node has this
    name the reply says so. *)
Theorem onLine_node_command (graph : list GraphItem) (line rest : string) :
  trim line = "node " ++ rest ->
  match snd (onLine graph line) with
  | NodeShown node outgoing incoming =>
      In (NodeItem node) graph
      /\ name node = trim rest
      /\ (forall e, In e outgoing <-> In (EdgeItem e) graph /\ from e = trim rest)
      /\ (forall e, In e incoming <-> In (EdgeItem e) graph /\ to e = trim rest)
  | NodeNotFound nodeName =>
      nodeName = trim rest
      /\ forall node, In (NodeItem node) graph -> name node <> trim rest
  | _ => False
  end.
Proof.
  intros Hline. unfold QueryGraph.onLine. rewrite Hline.
  change (("node " ++ rest =? "exit") || ("node " ++ rest =? "quit")) with false.
  change ("node " ++ rest =? "help") with false.
  change ("node " ++ rest =? "stats") with false.
  cbv iota.
  assert (Hstart : Str.startsWith "node " ("node " ++ rest) = true)
    by (unfold Str.startsWith; apply prefix_hasPrefix; exists rest; reflexivity).
  rewrite Hstart.
  assert (Hrest : Str.substringFrom 5 ("node " ++ rest) = rest).
  { unfold Str.substringFrom. simpl. rewrite Nat.sub_0_r. apply substring_whole. }
  rewrite Hrest.
  destruct (find (fun node => name node =? trim rest) (nodesOf graph))
    as [node|] eqn:Hfind.
  - apply find_some in Hfind. destruct Hfind as [Hin Hname].
    apply String.eqb_eq in Hname. apply In_nodesOf in Hin.
    unfold QueryGraph.findEdges. cbn [snd].
    split; [exact Hin |]. split; [exact Hname |].
    split; intros e; rewrite filter_In, In_edgesOf, String.eqb_eq; reflexivity.
  - cbn [snd]. split; [reflexivity |].
    intros node Hin Hname. apply In_nodesOf in Hin.
    pose proof (find_none _ _ Hfind node Hin) as Hno.
    cbn beta in Hno. rewrite Hname, String.eqb_refl in Hno. discriminate.
Qed.

End NodeCommand.

Lemma onLine_node_command_witness :
  Str.asciiTrim " node  Garrick " = "node " ++ " Garrick"
  /\ QueryGraph.onLine Str.asciiToLowerCase Str.asciiTrim townGraph " node  Garrick "
     = (townGraph,
        QueryGraph.NodeShown garrick
          [Graph.mkEdge "Garrick" "Tavern" "located_in";
           Graph.mkEdge "Garrick" "Smiths" "tagged_with"] [])
  /\ match snd (QueryGraph.onLine Str.asciiToLowerCase Str.asciiTrim
                                  townGraph " node  Garrick ") with
     | QueryGraph.NodeShown node _ _ => Graph.name node = "Garrick"
     | _ => False
     end.
Proof.
  split; [reflexivity |]. split; [reflexivity |].
  pose proof (onLine_node_command Str.asciiToLowerCase Str.asciiTrim
                townGraph " node  Garrick " " Garrick" eq_refl) as H.
  change (snd (QueryGraph.onLine Str.asciiToLowerCase Str.asciiTrim
                                 townGraph " node  Garrick "))
    with (QueryGraph.NodeShown garrick
            [Graph.mkEdge "Garrick" "Tavern" "located_in";
             Graph.mkEdge "Garrick" "Smiths" "tagged_with"] []) in H |- *.
  exact (proj1 (proj2 H)).
Defined.

(** ** The importer: files, names and types *)

Section ImporterRuns.

Import VigVaultParser.

Variable convertedGreaterThanZero : JsVal -> completion bool.

Local Abbreviation nonEmpty := (VigVaultParser.nonEmpty convertedGreaterThanZero).
Local Abbreviation loopsOver := (VigVaultParser.loopsOver convertedGreaterThanZero).
Local Abbreviation extractNode := (VigVaultParser.extractNode convertedGreaterThanZero).
Local Abbreviation extractNodeFromFile :=
  (VigVaultParser.extractNodeFromFile convertedGreaterThanZero).
Local Abbreviation addFile := (VigVaultParser.addFile convertedGreaterThanZero).
Local Abbreviation collect := (VigVaultParser.collect convertedGreaterThanZero).
Local Abbreviation processVigVaultFiles :=
  (VigVaultParser.processVigVaultFiles convertedGreaterThanZero).

(** *** The name of a file *)

Lemma split_two (sep : ascii) (s : string) :
  In sep (list_ascii_of_string s) -> exists p q l, Str.split sep s = p :: q :: l.
Proof.
  intros H. destruct (split_decompose sep s H) as [f [v [rest [-> [Hf [Hv Hrest]]]]]].
  destruct (split_first_two sep f v rest Hf Hv Hrest) as [tail ->]. eauto.
Qed.

Lemma last_split (sep : ascii) (dir f : string) :
  Str.charFree sep f -> last (Str.split sep (dir ++ String sep f)) "" = f.
Proof.
  intros Hf. induction dir as [|c dir IH].
  - cbn [append Str.split]. rewrite Ascii.eqb_refl, (split_sepFree sep f Hf). reflexivity.
  - cbn [append Str.split].
    assert (Hin : In sep (list_ascii_of_string (dir ++ String sep f))).
    { rewrite list_ascii_append. apply in_or_app. right. now left. }
    destruct (split_two sep _ Hin) as [p [q [l Hsplit]]].
    rewrite Hsplit in *. destruct (Ascii.eqb c sep); exact IH.
Qed.

Lemma substring_drop (a b : string) (m : nat) :
  substring (String.length a) m (a ++ b) = substring 0 m b.
Proof. induction a; simpl; [reflexivity | exact IHa]. Qed.

Lemma substring_take (a b : string) :
  substring 0 (String.length a) (a ++ b) = a.
Proof. induction a; simpl; [destruct b; reflexivity | now f_equal]. Qed.

Lemma endsWith_append (stem ext : string) : Str.endsWith ext (stem ++ ext) = true.
Proof.
  unfold Str.endsWith. rewrite length_append.
  replace (String.length stem + String.length ext - String.length ext)%nat
    with (String.length stem) by lia.
  rewrite substring_drop, substring_whole, String.eqb_refl.
  rewrite andb_true_r. apply Nat.leb_le. lia.
Qed.

(** The base name of [<dir>/<stem>.md] is [<stem>]. *)
Lemma basename_stem (dir stem : string) :
  Str.charFree "/" stem -> stem <> "" ->
  basename (dir ++ "/" ++ stem ++ ".md") ".md" = stem.
Proof.
  intros Hfree Hne. unfold basename, lastSegment.
  change (dir ++ "/" ++ stem ++ ".md") with (dir ++ String "/" (stem ++ ".md")).
  rewrite last_split.
  - rewrite endsWith_append.
    assert (Hneq : (stem ++ ".md" =? ".md") = false).
    { apply String.eqb_neq. intros H.
      apply (f_equal String.length) in H. rewrite length_append in H.
      destruct stem; [congruence | simpl in H; lia]. }
    rewrite Hneq. cbn [andb negb].
    rewrite length_append.
    replace (String.length stem + String.length ".md" - String.length ".md")%nat
      with (String.length stem) by lia.
    apply substring_take.
  - unfold Str.charFree in *. rewrite list_ascii_append, in_app_iff.
    intros [H|H]; [auto |]. simpl in H.
    repeat destruct H as [H|H]; try discriminate; exact H.
Qed.

(** *** The directory of a file *)

Lemma includes_needs_first (needle hay : string) (c : ascii) (rest : string) :
  needle = String c rest -> Str.charFree c hay -> Str.includes needle hay = false.
Proof.
  intros -> Hfree. destruct (Str.includes (String c rest) hay) eqn:H; [| reflexivity].
  apply includes_spec in H. destruct H as [b [a ->]].
  exfalso. apply Hfree. rewrite list_ascii_append. apply in_or_app. right. now left.
Qed.

Lemma prefix_needs_slash (before after f : string) :
  Str.charFree "/" f -> prefix (before ++ String "/" after) f = false.
Proof.
  intros Hfree. destruct (prefix (before ++ String "/" after) f) eqn:H; [| reflexivity].
  apply prefix_hasPrefix in H. destruct H as [r ->].
  exfalso. apply Hfree. rewrite !list_ascii_append, !in_app_iff. left. right. now left.
Qed.

Lemma in_projects (f : string) :
  Str.includes PROJECTS_PATH (PROJECTS_PATH ++ "/" ++ f) = true.
Proof. apply includes_spec. exists "", ("/" ++ f). reflexivity. Qed.

Lemma not_in_projects (dir f : string) :
  dir = KNOWLEDGE_BASE_PATH \/ dir = NEW_FILES_PATH ->
  Str.charFree "/" f ->
  Str.includes PROJECTS_PATH (dir ++ "/" ++ f) = false.
Proof.
  intros Hdir Hfree.
  destruct Hdir as [-> | ->].
  - change (KNOWLEDGE_BASE_PATH ++ "/" ++ f)
      with ("/Users/nickvigdahl/Desktop/VigVault/1-KnowledgeBase/Details" ++ String "/" f).
    cbn [append Str.includes].
    rewrite (includes_needs_first PROJECTS_PATH f "/" _ eq_refl Hfree).
    change (prefix PROJECTS_PATH (String "/" f))
      with (prefix ("Users" ++ String "/" "nickvigdahl/Desktop/VigVault/3-Efforts/Projects") f).
    rewrite prefix_needs_slash by exact Hfree. reflexivity.
  - change (NEW_FILES_PATH ++ "/" ++ f)
      with ("/Users/nickvigdahl/Desktop/VigVault/+ New Files" ++ String "/" f).
    cbn [append Str.includes].
    rewrite (includes_needs_first PROJECTS_PATH f "/" _ eq_refl Hfree).
    change (prefix PROJECTS_PATH (String "/" f))
      with (prefix ("Users" ++ String "/" "nickvigdahl/Desktop/VigVault/3-Efforts/Projects") f).
    rewrite prefix_needs_slash by exact Hfree. reflexivity.
Qed.

(** *** One file *)

(** A sequence passes the condition [v && v.length > 0] when it is not
    empty: no conversion is asked. *)
Lemma nonEmpty_array (l : list JsVal) :
  nonEmpty (JArr l) = Return (0 <? Z.of_nat (List.length l))%Z.
Proof. reflexivity. Qed.

Lemma nonEmpty_nullish (v : JsVal) : isNullish v = true -> nonEmpty v = Return false.
Proof. destruct v; simpl; intros H; try discriminate; reflexivity. Qed.

(** The loop over an entry that is absent, [null] or a sequence goes through
    its elements. *)
Lemma loopsOver_list (frontmatter : JsVal) (key : string) (v : JsVal) :
  getProp frontmatter key = Return v ->
  isList v = true ->
  loopsOver frontmatter key (match v with JArr l => l | _ => [] end).
Proof.
  intros Hv Hlist. exists v. split; [exact Hv |].
  destruct v; try discriminate.
  - right. split; reflexivity.
  - right. split; reflexivity.
  - rewrite nonEmpty_array. destruct elems as [|x l]; [right | left]; split; reflexivity.
Qed.

Lemma loopsOver_filled (frontmatter : JsVal) (key : string) (l l' : list JsVal) :
  getProp frontmatter key = Return (JArr l) -> l <> [] ->
  loopsOver frontmatter key l' -> l' = l.
Proof.
  intros Hv Hne [v [Hv' H]]. rewrite Hv in Hv'. injection Hv' as <-.
  rewrite nonEmpty_array in H.
  destruct H as [[_ H]|[H _]]; [now injection H |].
  destruct l; [contradiction | discriminate].
Qed.

Lemma tagEdges_strings (fileName : string) (tags : list JsVal) :
  if forallb isString tags
  then tagEdges fileName tags
       = Return (map (fun tag => mkEdge fileName (JStr (tagText tag)) "tagged_with") tags)
  else exists e, tagEdges fileName tags = Throw e.
Proof.
  induction tags as [|tag tags IH]; [reflexivity |].
  cbn [forallb tagEdges].
  destruct tag; cbn [isString tagName andb andThen]; eauto.
  destruct (forallb isString tags).
  - rewrite IH. reflexivity.
  - destruct IH as [e ->]. cbn [andThen]. eauto.
Qed.

(** The entry that passes the condition of a loop and is no sequence makes
    the loop throw. *)
Lemma loopsOver_array (frontmatter : JsVal) (key : string) (v : JsVal)
      (l : list JsVal) :
  getProp frontmatter key = Return v -> nonEmpty v = Return true ->
  loopsOver frontmatter key l -> isArray v = true.
Proof.
  intros Hv Hfilled [w [Hw H]]. rewrite Hv in Hw. injection Hw as <-.
  destruct H as [[_ ->]|[H _]]; [reflexivity | congruence].
Qed.

(** A file that gives no node gives no edge. *)
Lemma dropped_no_edges (file : MarkdownFile) (edges : list Edge) :
  extractNodeFromFile file = (None, edges) -> edges = [].
Proof.
  unfold VigVaultParser.extractNodeFromFile.
  destruct (content file) as [fm|]; [| now intros H; injection H].
  destruct (extractNode (filePath file) fm) as [[n e]|]; [discriminate |].
  now intros H; injection H.
Qed.

(** **** X17: what one file gives.  A file that cannot be read gives no node
    and no edge.  Neither does a file in which [tags], [in], [related] or
    [up] passes the test [v && v.length > 0] without being a sequence (a
    plain string is enough), nor a file whose tags hold something that is not
    a string.  A file that gives a node gives it the name of the file, has
    only strings for tags, and gives exactly these edges, in this order: one
    for each string among the related links, one for each topic, one for each
    tag and one for each string among the parent links. *)
Theorem extractNodeFromFile_outcome (file : MarkdownFile) :
  (content file = None -> extractNodeFromFile file = (None, []))
  /\ (forall frontmatter key v,
        content file = Some frontmatter ->
        In key ["tags"; "in"; "related"; "up"] ->
        getProp frontmatter key = Return v ->
        nonEmpty v = Return true ->
        isArray v = false ->
        extractNodeFromFile file = (None, []))
  /\ (forall frontmatter tags,
        content file = Some frontmatter ->
        loopsOver frontmatter "tags" tags ->
        forallb isString tags = false ->
        extractNodeFromFile file = (None, []))
  /\ (forall node edges,
        extractNodeFromFile file = (Some node, edges) ->
        exists frontmatter related topics tags up,
          content file = Some frontmatter
          /\ loopsOver frontmatter "related" related
          /\ loopsOver frontmatter "in" topics
          /\ loopsOver frontmatter "tags" tags
          /\ loopsOver frontmatter "up" up
          /\ forallb isString tags = true
          /\ name node = JStr (basename (filePath file) ".md")
          /\ edges
             = (linkEdges (basename (filePath file) ".md") "related_to" related
                ++ map (fun topic =>
                          mkEdge (basename (filePath file) ".md") topic "belongs_to_topic")
                       topics
                ++ map (fun tag =>
                          mkEdge (basename (filePath file) ".md") (JStr (tagText tag))
                                 "tagged_with")
                       tags
                ++ linkEdges (basename (filePath file) ".md") "part_of" up)%list).
Proof.
  assert (Hkept : forall node edges,
             extractNodeFromFile file = (Some node, edges) ->
             exists frontmatter related topics tags up,
               content file = Some frontmatter
               /\ loopsOver frontmatter "related" related
               /\ loopsOver frontmatter "in" topics
               /\ loopsOver frontmatter "tags" tags
               /\ loopsOver frontmatter "up" up
               /\ forallb isString tags = true
               /\ name node = JStr (basename (filePath file) ".md")
               /\ edges
                  = (linkEdges (basename (filePath file) ".md") "related_to" related
                     ++ map (fun topic =>
                               mkEdge (basename (filePath file) ".md") topic
                                      "belongs_to_topic")
                            topics
                     ++ map (fun tag =>
                               mkEdge (basename (filePath file) ".md")
                                      (JStr (tagText tag)) "tagged_with")
                            tags
                     ++ linkEdges (basename (filePath file) ".md") "part_of" up)%list).
  { intros node edges H. unfold VigVaultParser.extractNodeFromFile in H.
    destruct (content file) as [fm|]; [| discriminate].
    destruct (extractNode (filePath file) fm) as [[n e]|] eqn:Hex; [| discriminate].
    injection H as -> ->.
    destruct (extractNode_parts _ _ _ _ _ Hex)
      as [lr [lt [lg [lu [tagged [Hlr [Hlt [Hlg [Hlu [Htagged [Hname [_ ->]]]]]]]]]]]].
    pose proof (tagEdges_strings (basename (filePath file) ".md") lg) as Hstrings.
    destruct (forallb isString lg) eqn:Hall.
    - rewrite Hstrings in Htagged. injection Htagged as <-.
      exists fm, lr, lt, lg, lu. repeat (split; [assumption || reflexivity |]).
      reflexivity.
    - destruct Hstrings as [err Herr]. congruence. }
  assert (Hdropped : forall P : Prop,
             (forall node edges, extractNodeFromFile file = (Some node, edges) -> P -> False) ->
             P -> extractNodeFromFile file = (None, [])).
  { intros P Hno HP.
    pose proof (dropped_no_edges file) as Hnone.
    destruct (extractNodeFromFile file) as [[node|] edges].
    - destruct (Hno node edges eq_refl HP).
    - now rewrite (Hnone edges eq_refl). }
  split; [| split; [| split; [| exact Hkept]]].
  - intros H. unfold VigVaultParser.extractNodeFromFile. now rewrite H.
  - intros fm key v Hfm Hkey Hv Hfilled Harray.
    apply (Hdropped True); [| exact I]. intros node edges Hex _.
    destruct (Hkept node edges Hex)
      as [fm' [lr [lt [lg [lu [Hfm' [Hlr [Hlt [Hlg [Hlu _]]]]]]]]]].
    rewrite Hfm in Hfm'. injection Hfm' as <-.
    assert (Hcontra : isArray v = true).
    { destruct Hkey as [<-|[<-|[<-|[<-|[]]]]].
      - exact (loopsOver_array _ _ _ _ Hv Hfilled Hlg).
      - exact (loopsOver_array _ _ _ _ Hv Hfilled Hlt).
      - exact (loopsOver_array _ _ _ _ Hv Hfilled Hlr).
      - exact (loopsOver_array _ _ _ _ Hv Hfilled Hlu). }
    congruence.
  - intros fm tags Hfm Htags Hstrings.
    apply (Hdropped True); [| exact I]. intros node edges Hex _.
    destruct (Hkept node edges Hex)
      as [fm' [lr [lt [lg [lu [Hfm' [_ [_ [Hlg [_ [Hall _]]]]]]]]]]].
    rewrite Hfm in Hfm'. injection Hfm' as <-.
    rewrite (loopsOver_once _ _ _ _ _ Htags Hlg) in Hstrings. congruence.
Qed.

(** The type of the node of a file that gives one. *)
Lemma extractNode_type (filePath : string) (frontmatter : JsVal)
      (node : Node) (edges : list Edge) :
  extractNode filePath frontmatter = Return (node, edges) ->
  nodeType node
  = if Str.includes PROJECTS_PATH filePath then "project"
    else if taggedIdea frontmatter then "idea" else "knowledge".
Proof.
  unfold VigVaultParser.extractNode. intros H.
  bind_as H type Htype.
  bind_as H created Hcreated. bind_as H createdLine HcreatedLine.
  bind_as H year Hyear. bind_as H yearLine HyearLine.
  bind_as H encountered Hencountered. bind_as H encounteredLine HencounteredLine.
  bind_as H status Hstatus. bind_as H statusLine HstatusLine.
  bind_as H tags Htags. bind_as H tagsLine HtagsLine.
  clear - H Htype Htags HtagsLine. bind_as H topics Htopics.
  bind_as H topicsLine HtopicsLine. bind_as H related Hrelated.
  bind_as H relatedE HrelatedE. bind_as H topicE HtopicE.
  bind_as H taggedE HtaggedE. bind_as H up Hup. bind_as H upE HupE.
  injection H as <- _. cbn [nodeType].
  destruct (Str.includes PROJECTS_PATH filePath); [now injection Htype |].
  unfold taggedIdea. rewrite Htags. cbn [andThen] in Htype.
  destruct tags as [| |b|z|s|elems|fields|n m];
    cbn [truthy includesIdea andThen] in Htype.
  - now injection Htype.
  - now injection Htype.
  - destruct b; [discriminate | now injection Htype].
  - destruct (negb (z =? 0)%Z); [discriminate | now injection Htype].
  - destruct (negb (s =? "")) eqn:Hs; [| now injection Htype].
    exfalso. unfold VigVaultParser.listLine, VigVaultParser.nonEmpty in HtagsLine.
    cbn [truthy] in HtagsLine. rewrite Hs in HtagsLine.
    destruct s as [|c s]; [discriminate Hs |].
    cbn in HtagsLine. discriminate.
  - cbn [andThen] in Htype. injection Htype as <-.
    now destruct (existsb isIdeaTag elems).
  - discriminate.
  - discriminate.
Qed.

(** Scalars have a string. *)
Lemma templateString_scalar (v : JsVal) :
  isScalar v = true -> templateString v = Return (toString v).
Proof. destruct v; try discriminate; reflexivity. Qed.

Lemma joinParts_scalars (l : list JsVal) :
  forallb isScalar l = true -> exists parts, joinParts l = Return parts.
Proof.
  induction l as [|x l IH]; [eexists; reflexivity |].
  cbn [forallb joinParts]. intros H. apply andb_prop in H as [Hx Hl].
  destruct (IH Hl) as [parts ->].
  destruct (isNullish x); cbn [andThen]; [eauto |].
  rewrite (templateString_scalar x Hx). cbn [andThen]. eauto.
Qed.

Lemma isString_scalar (l : list JsVal) :
  forallb isString l = true -> forallb isScalar l = true.
Proof.
  induction l as [|x l IH]; [reflexivity |]. cbn [forallb].
  intros H. apply andb_prop in H as [Hx Hl]. rewrite (IH Hl).
  destruct x; try discriminate; reflexivity.
Qed.

Lemma scalarLine_scalar (label : string) (v : JsVal) :
  isScalar v = true -> exists lines, scalarLine label v = Return lines.
Proof.
  intros Hv. unfold scalarLine. rewrite (templateString_scalar v Hv).
  destruct (truthy v); cbn [andThen]; eauto.
Qed.

Lemma listLine_list (label : string) (v : JsVal) :
  isList v = true ->
  (forall l, v = JArr l -> forallb isScalar l = true) ->
  exists lines, VigVaultParser.listLine convertedGreaterThanZero label v = Return lines.
Proof.
  unfold VigVaultParser.listLine. intros Hlist Hscalars.
  destruct v; try discriminate; try (eexists; reflexivity).
  rewrite nonEmpty_array. cbn [andThen].
  destruct (0 <? Z.of_nat (List.length elems))%Z; [| eexists; reflexivity].
  cbn [joinValues]. destruct (joinParts_scalars elems (Hscalars elems eq_refl)) as [parts ->].
  cbn [andThen]. eauto.
Qed.

Lemma edgesFrom_list (v : JsVal) (body : list JsVal -> completion (list Edge))
      (edges : list Edge) :
  isList v = true ->
  body (match v with JArr l => l | _ => [] end) = Return edges ->
  exists result, VigVaultParser.edgesFrom convertedGreaterThanZero v body = Return result.
Proof.
  unfold VigVaultParser.edgesFrom. intros Hlist Hbody.
  destruct v; try discriminate; try (eexists; reflexivity).
  rewrite nonEmpty_array. cbn [andThen].
  destruct (0 <? Z.of_nat (List.length elems))%Z; [| eexists; reflexivity].
  cbn [forEach]. eauto.
Qed.

(** A front matter whose four lists are absent, [null] or sequences, the
    tags being strings and the topics and the four dated entries scalars,
    gives a node. *)
Lemma extractNode_plain (filePath : string) (frontmatter : JsVal) :
  isNullish frontmatter = false ->
  (forall key v,
      In key ["tags"; "in"; "related"; "up"] ->
      getProp frontmatter key = Return v -> isList v = true) ->
  (forall key v,
      In key ["created"; "year"; "encountered"; "status"] ->
      getProp frontmatter key = Return v -> isScalar v = true) ->
  (forall tags,
      getProp frontmatter "tags" = Return (JArr tags) ->
      forallb isString tags = true) ->
  (forall topics,
      getProp frontmatter "in" = Return (JArr topics) ->
      forallb isScalar topics = true) ->
  exists node edges, extractNode filePath frontmatter = Return (node, edges).
Proof.
  intros Hfm Hlists Hscalars Hstrings Htopical. unfold VigVaultParser.extractNode.
  destruct (getProp_not_nullish frontmatter "tags" Hfm) as [tags Htags].
  destruct (getProp_not_nullish frontmatter "created" Hfm) as [created Hcreated].
  destruct (getProp_not_nullish frontmatter "year" Hfm) as [year Hyear].
  destruct (getProp_not_nullish frontmatter "encountered" Hfm) as [enc Henc].
  destruct (getProp_not_nullish frontmatter "status" Hfm) as [status Hstatus].
  destruct (getProp_not_nullish frontmatter "in" Hfm) as [topics Htopics].
  destruct (getProp_not_nullish frontmatter "related" Hfm) as [related Hrelated].
  destruct (getProp_not_nullish frontmatter "up" Hfm) as [up Hup].
  assert (Ltags : isList tags = true) by (apply (Hlists "tags"); simpl; auto).
  assert (Ltopics : isList topics = true) by (apply (Hlists "in"); simpl; auto).
  assert (Lrelated : isList related = true) by (apply (Hlists "related"); simpl; auto).
  assert (Lup : isList up = true) by (apply (Hlists "up"); simpl; auto 6).
  assert (Screated : isScalar created = true) by (apply (Hscalars "created"); simpl; auto).
  assert (Syear : isScalar year = true) by (apply (Hscalars "year"); simpl; auto).
  assert (Senc : isScalar enc = true) by (apply (Hscalars "encountered"); simpl; auto).
  assert (Sstatus : isScalar status = true) by (apply (Hscalars "status"); simpl; auto 6).
  rewrite Htags, Hcreated, Hyear, Henc, Hstatus, Htopics, Hrelated, Hup.
  cbn [andThen].
  assert (Htype : exists type,
             (if Str.includes PROJECTS_PATH filePath then Return "project"
              else if truthy tags
                   then andThen (includesIdea tags)
                                (fun isIdea =>
                                   Return (if isIdea then "idea" else "knowledge"))
                   else Return "knowledge") = Return type).
  { destruct (Str.includes PROJECTS_PATH filePath); [eauto |].
    destruct tags; try discriminate Ltags; cbn [truthy includesIdea andThen]; eauto. }
  destruct Htype as [type ->]. cbn [andThen].
  destruct (scalarLine_scalar "Created" created Screated) as [createdLine ->].
  cbn [andThen].
  destruct (scalarLine_scalar "Year" year Syear) as [yearLine ->]. cbn [andThen].
  destruct (scalarLine_scalar "Encountered" enc Senc) as [encLine ->]. cbn [andThen].
  destruct (scalarLine_scalar "Status" status Sstatus) as [statusLine ->]. cbn [andThen].
  assert (Stags : forall l, tags = JArr l -> forallb isScalar l = true).
  { intros l ->. apply isString_scalar, Hstrings, Htags. }
  assert (Stopics : forall l, topics = JArr l -> forallb isScalar l = true).
  { intros l ->. apply Htopical, Htopics. }
  destruct (listLine_list "Tags" tags Ltags Stags) as [tagsLine ->]. cbn [andThen].
  destruct (listLine_list "Topics" topics Ltopics Stopics) as [topicsLine ->].
  cbn [andThen].
  destruct (edgesFrom_list related
              (fun links => Return (linkEdges (basename filePath ".md") "related_to" links))
              _ Lrelated eq_refl) as [relatedE ->]. cbn [andThen].
  destruct (edgesFrom_list topics
              (fun l => Return (map (fun topic => mkEdge (basename filePath ".md") topic
                                                         "belongs_to_topic") l))
              _ Ltopics eq_refl) as [topicE ->]. cbn [andThen].
  assert (Htagged : exists tagged,
             tagEdges (basename filePath ".md") (match tags with JArr l => l | _ => [] end)
             = Return tagged).
  { pose proof (tagEdges_strings (basename filePath ".md")
                                 (match tags with JArr l => l | _ => [] end)) as H.
    destruct tags; try (eexists; reflexivity).
    rewrite (Hstrings elems Htags) in H. eauto. }
  destruct Htagged as [tagged Htagged].
  destruct (edgesFrom_list tags (tagEdges (basename filePath ".md")) _ Ltags Htagged)
    as [taggedE ->]. cbn [andThen].
  destruct (edgesFrom_list up
              (fun links => Return (linkEdges (basename filePath ".md") "part_of" links))
              _ Lup eq_refl) as [upE ->]. cbn [andThen].
  eauto.
Qed.

(** **** X18: the name and the type of a file's node.  The node that a note
    [<stem>.md] of one of the three directories gives is named <stem>; its
    type is [project] in the projects directory, whatever its tags, and
    elsewhere [idea] when the tags are a sequence that holds [#idea] and
    [knowledge] otherwise.  The note gives a node when its front matter is a
    mapping (or any value but [null] and [undefined]) in which [tags], [in],
    [related] and [up] are each absent, [null] or a sequence, the tags are
    strings, and the topics and the entries [created], [year], [encountered]
    and [status] are scalars. *)
Theorem extractNodeFromFile_name_and_type
        (dir stem : string) (frontmatter : JsVal) :
  dir = KNOWLEDGE_BASE_PATH \/ dir = NEW_FILES_PATH \/ dir = PROJECTS_PATH ->
  Str.charFree "/" stem ->
  stem <> "" ->
  let file := mkFile (dir ++ "/" ++ stem ++ ".md") (Some frontmatter) in
  (forall node edges,
      extractNodeFromFile file = (Some node, edges) ->
      name node = JStr stem
      /\ nodeType node
         = if dir =? PROJECTS_PATH then "project"
           else if taggedIdea frontmatter then "idea" else "knowledge")
  /\ (isNullish frontmatter = false ->
      (forall key v,
          In key ["tags"; "in"; "related"; "up"] ->
          getProp frontmatter key = Return v -> isList v = true) ->
      (forall key v,
          In key ["created"; "year"; "encountered"; "status"] ->
          getProp frontmatter key = Return v -> isScalar v = true) ->
      (forall tags,
          getProp frontmatter "tags" = Return (JArr tags) ->
          forallb isString tags = true) ->
      (forall topics,
          getProp frontmatter "in" = Return (JArr topics) ->
          forallb isScalar topics = true) ->
      exists node edges, extractNodeFromFile file = (Some node, edges)).
Proof.
  intros Hdir Hfree Hne. cbv zeta.
  assert (Hfile : Str.charFree "/" (stem ++ ".md")).
  { unfold Str.charFree in *. rewrite list_ascii_append, in_app_iff.
    intros [H|H]; [auto |]. simpl in H.
    repeat destruct H as [H|H]; try discriminate; exact H. }
  unfold VigVaultParser.extractNodeFromFile. cbn [content filePath]. split.
  - intros node edges H.
    destruct (extractNode (dir ++ "/" ++ stem ++ ".md") frontmatter) as [[n e]|] eqn:Hex;
      [| discriminate].
    injection H as -> ->.
    destruct (extractNode_parts _ _ _ _ _ Hex)
      as [lr [lt [lg [lu [tagged [_ [_ [_ [_ [_ [Hname _]]]]]]]]]]].
    rewrite (basename_stem dir stem Hfree Hne) in Hname.
    split; [exact Hname |].
    rewrite (extractNode_type _ _ _ _ Hex).
    destruct Hdir as [Hd|[Hd|Hd]]; subst dir.
    + rewrite (not_in_projects KNOWLEDGE_BASE_PATH (stem ++ ".md")) by auto. reflexivity.
    + rewrite (not_in_projects NEW_FILES_PATH (stem ++ ".md")) by auto. reflexivity.
    + rewrite in_projects, String.eqb_refl. reflexivity.
  - intros Hfm Hlists Hscalars Hstrings Htopical.
    destruct (extractNode_plain (dir ++ "/" ++ stem ++ ".md") frontmatter
                                Hfm Hlists Hscalars Hstrings Htopical) as [node [edges ->]].
    eauto.
Qed.

(** *** All files *)

Lemma In_nodes_extra (vault : Vault) (n : Node) :
  In n (definedNodes (VigVaultParser.createExtraNodes convertedGreaterThanZero
                                                      (markdownFiles vault))) ->
  In n (nodes (processVigVaultFiles vault)).
Proof.
  intros H. rewrite processVigVaultFiles_unfold. cbn zeta. cbn [nodes].
  rewrite definedNodes_app, in_app_iff. now right.
Qed.

Lemma addTags_prefix (before after : list JsVal) (tag : string) :
  forallb isString before = true ->
  forall set,
    In (if Str.startsWith "#" tag then Str.substringFrom 1 tag else tag)
       (addTags (before ++ JStr tag :: after) set).
Proof.
  induction before as [|b before IH]; intros Hb set.
  - cbn [app addTags tagName]. apply addTags_keeps. apply setAdd_In. now left.
  - destruct b; try discriminate. cbn [app addTags tagName]. apply IH. exact Hb.
Qed.

(** What one file adds to the sets is in the sets at the end. *)
Lemma collect_member (files : list MarkdownFile) :
  forall sets file frontmatter,
    In file files -> content file = Some frontmatter ->
    (forall x, (forall sets', In x (fst (addFile frontmatter sets'))) ->
               In x (fst (collect files sets)))
    /\ (forall t, (forall sets', In t (snd (addFile frontmatter sets'))) ->
                  In t (snd (collect files sets))).
Proof.
  induction files as [|f files IH]; intros sets file fm Hin Hfm; [destruct Hin |].
  cbn [VigVaultParser.collect]. destruct Hin as [->|Hin].
  - rewrite Hfm. destruct (collect_keeps convertedGreaterThanZero files (addFile fm sets))
      as [Htopics Htags].
    split; intros x Hx; [apply Htopics | apply Htags]; apply Hx.
  - destruct (content f) as [fm'|]; eapply IH; eauto.
Qed.

(** The topics of a sequence go into the set. *)
Lemma addFile_topics (frontmatter : JsVal) (topics : list JsVal) (topic : JsVal)
      (sets : list JsVal * list string) :
  getProp frontmatter "in" = Return (JArr topics) ->
  In topic topics ->
  In topic (fst (addFile frontmatter sets)).
Proof.
  intros Hin Htopic. unfold VigVaultParser.addFile. rewrite Hin. cbn [andThen].
  rewrite nonEmpty_array.
  destruct topics as [|t topics]; [destruct Htopic |].
  cbn [andThen]. change (0 <? Z.of_nat (List.length (t :: topics)))%Z with true.
  cbn [fst]. exact (proj2 (addTopics_In convertedGreaterThanZero _ _ _) (or_introl Htopic)).
Qed.

(** The tags up to the first that is no string go into the set, when the
    loop over the topics does not throw. *)
Lemma addFile_tags (frontmatter : JsVal) (topics before after : list JsVal)
      (tag : string) (sets : list JsVal * list string) :
  loopsOver frontmatter "in" topics ->
  getProp frontmatter "tags" = Return (JArr (before ++ JStr tag :: after)) ->
  forallb isString before = true ->
  In (if Str.startsWith "#" tag then Str.substringFrom 1 tag else tag)
     (snd (addFile frontmatter sets)).
Proof.
  intros Hin Htags Hbefore.
  assert (Hloop : loopsOver frontmatter "tags" (before ++ JStr tag :: after)).
  { exists (JArr (before ++ JStr tag :: after)). split; [exact Htags |].
    left. split; [| reflexivity]. rewrite nonEmpty_array.
    rewrite length_app. cbn [List.length].
    destruct (0 <? Z.of_nat (List.length before + S (List.length after)))%Z eqn:H;
      [reflexivity |].
    apply Z.ltb_ge in H. lia. }
  rewrite (addFile_loops convertedGreaterThanZero _ sets _ _ Hin Hloop). cbn [snd].
  now apply addTags_prefix.
Qed.

(** **** X19: topics and tags outlive their file.  For every note that can
    be read, each element of a sequence of topics is emitted as a topic node,
    and each string tag that no tag of another kind precedes is emitted as a
    tag node (without its leading [#]) when the loop over the topics does not
    throw: also when the note itself is dropped because a later tag is not a
    string. *)
Theorem processVigVaultFiles_topics_and_tags
        (vault : Vault) (file : MarkdownFile) (frontmatter : JsVal) :
  In file (markdownFiles vault) ->
  content file = Some frontmatter ->
  (forall topics topic,
      getProp frontmatter "in" = Return (JArr topics) ->
      In topic topics ->
      In (mkNode topic "topic" []) (nodes (processVigVaultFiles vault)))
  /\ (forall topics before tag after,
         loopsOver frontmatter "in" topics ->
         getProp frontmatter "tags" = Return (JArr (before ++ JStr tag :: after)) ->
         forallb isString before = true ->
         In (mkNode (JStr (if Str.startsWith "#" tag then Str.substringFrom 1 tag
                           else tag))
                    "tag" [])
            (nodes (processVigVaultFiles vault))).
Proof.
  intros Hfile Hfm.
  destruct (collect_member (markdownFiles vault) ([], []) file frontmatter Hfile Hfm)
    as [Htopic Htag].
  destruct (createExtraNodes_nodes convertedGreaterThanZero (markdownFiles vault))
    as [Hextra _].
  split.
  - intros topics topic Hin Htopics. apply In_nodes_extra.
    rewrite Hextra, in_app_iff. left.
    apply in_map_iff. exists topic. split; [reflexivity |].
    apply Htopic. intros sets'. exact (addFile_topics _ _ _ sets' Hin Htopics).
  - intros topics before tag after Hin Htags Hbefore. apply In_nodes_extra.
    rewrite Hextra, in_app_iff. right.
    apply in_map_iff. eexists. split; [reflexivity |].
    apply Htag. intros sets'. exact (addFile_tags _ _ _ _ _ sets' Hin Htags Hbefore).
Qed.

Lemma addTags_sound (tags : list JsVal) (x : string) :
  forall set,
    In x (addTags tags set) ->
    In x set
    \/ exists tag,
        In (JStr tag) tags
        /\ x = if Str.startsWith "#" tag then Str.substringFrom 1 tag else tag.
Proof.
  induction tags as [|tag tags IH]; intros set H; [now left |].
  destruct tag; cbn [addTags tagName] in H; try (now left).
  destruct (IH _ H) as [Hset|[tag [Hin Hx]]].
  - apply setAdd_In in Hset. destruct Hset as [->|Hset]; [| now left].
    right. eexists. split; [left; reflexivity | reflexivity].
  - right. exists tag. split; [now right | exact Hx].
Qed.

(** What one file adds to the sets comes from its sequences of topics and
    of tags. *)
Lemma addFile_sound (frontmatter : JsVal) (sets : list JsVal * list string) :
  (forall x,
      In x (fst (addFile frontmatter sets)) ->
      In x (fst sets)
      \/ exists topics, getProp frontmatter "in" = Return (JArr topics) /\ In x topics)
  /\ (forall t,
        In t (snd (addFile frontmatter sets)) ->
        In t (snd sets)
        \/ exists tags tag,
            getProp frontmatter "tags" = Return (JArr tags)
            /\ In (JStr tag) tags
            /\ t = if Str.startsWith "#" tag then Str.substringFrom 1 tag else tag).
Proof.
  assert (Htags : forall t,
             In t (VigVaultParser.addFileTags convertedGreaterThanZero frontmatter
                                              (snd sets)) ->
             In t (snd sets)
             \/ exists tags tag,
                 getProp frontmatter "tags" = Return (JArr tags)
                 /\ In (JStr tag) tags
                 /\ t = if Str.startsWith "#" tag then Str.substringFrom 1 tag else tag).
  { intros t H.
    destruct (addFileTags_cases convertedGreaterThanZero frontmatter (snd sets))
      as [E|[l [Hl E]]]; rewrite E in H; [now left |].
    apply addTags_sound in H. destruct H as [H|[tag [Hin Ht]]]; [now left |].
    right. exists l, tag. auto. }
  destruct (addFile_cases convertedGreaterThanZero frontmatter sets)
    as [E|[[l [Hl E]]|E]]; rewrite E; cbn [fst snd].
  - split; auto.
  - split; [| exact Htags]. intros x H.
    apply (addTopics_In convertedGreaterThanZero) in H.
    destruct H as [H|H]; [right; eauto | now left].
  - split; [auto | exact Htags].
Qed.

Lemma collect_sound (files : list MarkdownFile) :
  forall sets,
    (forall x,
        In x (fst (collect files sets)) ->
        In x (fst sets)
        \/ exists file frontmatter topics,
            In file files /\ content file = Some frontmatter
            /\ getProp frontmatter "in" = Return (JArr topics) /\ In x topics)
    /\ (forall t,
          In t (snd (collect files sets)) ->
          In t (snd sets)
          \/ exists file frontmatter tags tag,
              In file files /\ content file = Some frontmatter
              /\ getProp frontmatter "tags" = Return (JArr tags)
              /\ In (JStr tag) tags
              /\ t = if Str.startsWith "#" tag then Str.substringFrom 1 tag else tag).
Proof.
  induction files as [|f files IH]; intros sets; [simpl; auto |].
  cbn [VigVaultParser.collect]. destruct (content f) as [fm|] eqn:Hfm.
  - destruct (IH (addFile fm sets)) as [Htopics Htags].
    destruct (addFile_sound fm sets) as [Stopics Stags].
    split; intros x H.
    + destruct (Htopics x H) as [Hin|[file [fm' [l [Hfile Hrest]]]]].
      * destruct (Stopics x Hin) as [Hset|[l [Hl Hx]]]; [now left |].
        right. exists f, fm, l. split; [now left | auto].
      * right. exists file, fm', l. split; [now right | exact Hrest].
    + destruct (Htags x H) as [Hin|[file [fm' [l [tag [Hfile Hrest]]]]]].
      * destruct (Stags x Hin) as [Hset|[l [tag [Hl [Htag Hx]]]]]; [now left |].
        right. exists f, fm, l, tag. split; [now left | auto].
      * right. exists file, fm', l, tag. split; [now right | exact Hrest].
  - destruct (IH sets) as [Htopics Htags].
    split; intros x H.
    + destruct (Htopics x H) as [Hin|[file [fm' [l [Hfile Hrest]]]]]; [now left |].
      right. exists file, fm', l. split; [now right | exact Hrest].
    + destruct (Htags x H) as [Hin|[file [fm' [l [tag [Hfile Hrest]]]]]]; [now left |].
      right. exists file, fm', l, tag. split; [now right | exact Hrest].
Qed.

(** **** X20: where a node comes from.  Every emitted node is accounted
    for by a note that could be read: it is the node of a note whose tags,
    as far as the loop over them goes, are all strings, named after the file
    and of type [project], [idea] or [knowledge]; or a topic node without
    metadata named by an element of the note's sequence of topics; or a tag
    node without metadata named by a string of the note's sequence of tags,
    less its leading [#]. *)
Theorem processVigVaultFiles_node_origin (vault : Vault) (n : Node) :
  In n (nodes (processVigVaultFiles vault)) ->
  exists file frontmatter,
    In file (markdownFiles vault)
    /\ content file = Some frontmatter
    /\ ((name n = JStr (basename (filePath file) ".md")
         /\ (exists tags,
                loopsOver frontmatter "tags" tags /\ forallb isString tags = true)
         /\ (nodeType n = "project" \/ nodeType n = "idea" \/ nodeType n = "knowledge"))
        \/ (exists topics topic,
               getProp frontmatter "in" = Return (JArr topics)
               /\ In topic topics /\ n = mkNode topic "topic" [])
        \/ (exists tags tag,
               getProp frontmatter "tags" = Return (JArr tags)
               /\ In (JStr tag) tags
               /\ n = mkNode (JStr (if Str.startsWith "#" tag then Str.substringFrom 1 tag
                                    else tag)) "tag" [])).
Proof.
  destruct (processVigVaultFiles_parts convertedGreaterThanZero vault) as [Hnodes _].
  cbv zeta in Hnodes. rewrite Hnodes, !in_app_iff, !in_map_iff.
  intros [H|[[topic [<- Hin]]|[tag [<- Hin]]]].
  - apply In_definedNodes in H. destruct H as [edges H].
    destruct (kept_origin convertedGreaterThanZero vault n edges H)
      as [file [fm [Hfile [Hfm Hex]]]].
    destruct (extractNode_parts convertedGreaterThanZero _ _ _ _ Hex)
      as [lr [lt [lg [lu [tagged [_ [_ [Hlg [_ [Htagged [Hname [Htype _]]]]]]]]]]]].
    exists file, fm. split; [exact Hfile |]. split; [exact Hfm |]. left.
    split; [exact Hname |]. split; [| exact Htype].
    exists lg. split; [exact Hlg |].
    pose proof (tagEdges_strings (basename (filePath file) ".md") lg) as Hstrings.
    destruct (forallb isString lg); [reflexivity |].
    destruct Hstrings as [err Herr]. congruence.
  - apply (proj1 (collect_sound (markdownFiles vault) ([], []))) in Hin.
    destruct Hin as [[]|[file [fm [l [Hfile [Hfm [Hl Htopic]]]]]]].
    exists file, fm. split; [exact Hfile |]. split; [exact Hfm |].
    right. left. exists l, topic. auto.
  - apply (proj2 (collect_sound (markdownFiles vault) ([], []))) in Hin.
    destruct Hin as [[]|[file [fm [l [t [Hfile [Hfm [Hl [Ht ->]]]]]]]]].
    exists file, fm. split; [exact Hfile |]. split; [exact Hfm |].
    right. right. exists l, t. auto.
Qed.

Lemma markdownIn_used (dir : string) (listing : Directory) :
  markdownIn dir (usedListing listing) = markdownIn dir listing.
Proof.
  destruct listing as [entries|]; [| reflexivity].
  cbn [usedListing markdownIn]. f_equal.
  induction entries as [|entry entries IH]; [reflexivity |].
  cbn [filter]. destruct (Str.endsWith ".md" (fst entry)) eqn:Hmd; [| exact IH].
  cbn [filter]. rewrite Hmd, IH. reflexivity.
Qed.

(** **** X21: what the importer reads of the vault.  A directory that
    cannot be listed counts as an empty one, and an entry whose name does not
    end in [.md] counts for nothing, readable or not: the nodes and edges are
    those of the vault with only its [.md] entries. *)
Theorem processVigVaultFiles_reads_markdown_only (vault : Vault) :
  processVigVaultFiles vault = processVigVaultFiles (usedVault vault).
Proof.
  rewrite !processVigVaultFiles_unfold. unfold markdownFiles, usedVault.
  cbn [knowledgeBase newFiles projects]. rewrite !markdownIn_used. reflexivity.
Qed.

(** *** The targets of links *)

Lemma removeBrackets_free (s : string) :
  Str.charFree "[" (Str.removeBrackets s) /\ Str.charFree "]" (Str.removeBrackets s).
Proof.
  unfold Str.charFree. induction s as [|c s [IHl IHr]]; [split; intros [] |].
  cbn [Str.removeBrackets].
  destruct (Ascii.eqb c "[") eqn:Hl; [split; assumption |].
  destruct (Ascii.eqb c "]") eqn:Hr; [split; assumption |].
  cbn [orb list_ascii_of_string In].
  split; intros [H|H]; auto; subst c; rewrite Ascii.eqb_refl in *; discriminate.
Qed.

Lemma linkEdges_to (fileName type : string) (links : list JsVal) (e : Edge) :
  In e (linkEdges fileName type links) ->
  exists link, In (JStr link) links /\ to e = JStr (Str.removeBrackets link).
Proof.
  induction links as [|link links IH]; [intros [] |].
  destruct link; cbn [linkEdges];
    try (intros H; destruct (IH H) as [l [Hin Hto]]; exists l; split;
         [now right | exact Hto]).
  intros [<-|H].
  - eexists. split; [left; reflexivity | reflexivity].
  - destruct (IH H) as [l [Hin Hto]]. exists l. split; [now right | exact Hto].
Qed.

(** A loop that goes through an element goes through the entry, which is
    a sequence. *)
Lemma loopsOver_In (frontmatter : JsVal) (key : string) (l : list JsVal) (x : JsVal) :
  loopsOver frontmatter key l -> In x l -> getProp frontmatter key = Return (JArr l).
Proof.
  intros [v [Hv [[_ ->]|[_ ->]]]] Hin; [exact Hv | destruct Hin].
Qed.

(** **** X22: the targets of links.  Every emitted [related_to] edge ends
    at a string of the sequence [related] of a note that could be read, and
    every [part_of] edge at a string of its sequence [up], with every square
    bracket removed: the target holds neither [[] nor []]. *)
Theorem processVigVaultFiles_link_targets (vault : Vault) (e : Edge) :
  In e (relationships (processVigVaultFiles vault)) ->
  edgeType e = "related_to" \/ edgeType e = "part_of" ->
  exists file frontmatter links link,
    In file (markdownFiles vault)
    /\ content file = Some frontmatter
    /\ getProp frontmatter (if edgeType e =? "related_to" then "related" else "up")
       = Return (JArr links)
    /\ In (JStr link) links
    /\ to e = JStr (Str.removeBrackets link)
    /\ Str.charFree "[" (Str.removeBrackets link)
    /\ Str.charFree "]" (Str.removeBrackets link).
Proof.
  intros He Htype.
  destruct (processVigVaultFiles_parts convertedGreaterThanZero vault) as [_ Hedges].
  cbv zeta in Hedges. rewrite Hedges in He. apply in_flat_map in He.
  destruct He as [data [Hdata Hin]].
  destruct (extracted_origin convertedGreaterThanZero _ _ Hdata)
    as [file [fm [node [Hfile [Hfm [_ Hex]]]]]].
  destruct (extractNode_parts convertedGreaterThanZero _ _ _ _ Hex)
    as [lr [lt [lg [lu [tagged [Hlr [_ [_ [Hlu [Htagged [_ [_ Hparts]]]]]]]]]]]].
  rewrite Hparts, !in_app_iff in Hin.
  assert (Hlink : forall type key links,
             loopsOver fm key links ->
             In e (linkEdges (basename (filePath file) ".md") type links) ->
             edgeType e = type
             /\ exists link,
                 getProp fm key = Return (JArr links)
                 /\ In (JStr link) links /\ to e = JStr (Str.removeBrackets link)
                 /\ Str.charFree "[" (Str.removeBrackets link)
                 /\ Str.charFree "]" (Str.removeBrackets link)).
  { intros type key links Hloop H.
    split; [apply (linkEdges_shape _ _ _ _ H) |].
    destruct (linkEdges_to _ _ _ _ H) as [link [Hl Hto]].
    exists link. split; [exact (loopsOver_In _ _ _ _ Hloop Hl) |].
    repeat split; auto; apply removeBrackets_free. }
  destruct Hin as [H|[H|[H|H]]].
  - destruct (Hlink _ _ _ Hlr H) as [Hty [link Hrest]].
    exists file, fm, lr, link. rewrite Hty. cbn [String.eqb Ascii.eqb Bool.eqb]. auto.
  - apply in_map_iff in H. destruct H as [topic [<- _]].
    destruct Htype; discriminate.
  - destruct (tagEdges_shape _ _ _ _ Htagged H) as [_ Hty].
    rewrite Hty in Htype. destruct Htype; discriminate.
  - destruct (Hlink _ _ _ Hlu H) as [Hty [link Hrest]].
    exists file, fm, lu, link. rewrite Hty. cbn [String.eqb Ascii.eqb Bool.eqb]. auto.
Qed.

(** *** Importer and explorer together *)

Lemma tagEdges_complete (fileName tag : string) (tags : list JsVal) :
  forall edges,
    tagEdges fileName tags = Return edges ->
    In (JStr tag) tags ->
    In (mkEdge fileName
               (JStr (if Str.startsWith "#" tag then Str.substringFrom 1 tag else tag))
               "tagged_with")
       edges.
Proof.
  induction tags as [|t tags IH]; intros edges Hedges Hin; [destruct Hin |].
  cbn [tagEdges] in Hedges.
  destruct (tagName t) as [x|err] eqn:Hx; [| discriminate].
  destruct (tagEdges fileName tags) as [rest|err]; [| discriminate].
  injection Hedges as <-. destruct Hin as [->|Hin].
  - cbn [tagName] in Hx. injection Hx as <-. now left.
  - right. now apply IH.
Qed.

(** A record of the import that the explorer reads as an item of the graph
    is an item of the graph. *)
Lemma importedGraph_item (vault : Vault) (graph : list Graph.GraphItem)
      (record : JsVal) (item : Graph.GraphItem) :
  importedGraph convertedGreaterThanZero vault = map Some graph ->
  In record (BuildKnowledgeGraph.graphData (nodes (processVigVaultFiles vault))
                                           (relationships (processVigVaultFiles vault))) ->
  LoadGraph.readItem record = Some item ->
  In item graph.
Proof.
  intros Hgraph Hin Hread.
  assert (H : In (Some item) (importedGraph convertedGreaterThanZero vault)).
  { unfold importedGraph. cbv zeta. apply in_map_iff. exists record. auto. }
  rewrite Hgraph in H. apply in_map_iff in H. destruct H as [x [Hx Hin']].
  now injection Hx as <-.
Qed.

Section Search.

Variables toLowerCase trim : string -> string.

(** **** X23: a note is found by its tags.  In the graph built from a
    vault, a search [tag:<tagName>] returns the node of every note that
    carries the tag <tagName> or [#<tagName>], letter case ignored.  The
    graph is that of the records the import gives, which are all to be
    records of the graph: the names of their nodes and the ends of their
    edges are strings. *)
Theorem findNodes_tag_of_imported_note
        (vault : Vault) (graph : list Graph.GraphItem)
        (file : MarkdownFile) (frontmatter : JsVal)
        (n : Node) (edges : list Edge) (tags : list JsVal) (tag query : string) :
  importedGraph convertedGreaterThanZero vault = map Some graph ->
  In file (markdownFiles vault) ->
  content file = Some frontmatter ->
  extractNodeFromFile file = (Some n, edges) ->
  getProp frontmatter "tags" = Return (JArr tags) ->
  In (JStr tag) tags ->
  SearchSpec.hasForm
    toLowerCase trim query "tag"
    (toLowerCase (if Str.startsWith "#" tag then Str.substringFrom 1 tag else tag)) ->
  exists found,
    BuildKnowledgeGraph.nodeRecord found = n
    /\ In found (QueryGraph.findNodes toLowerCase trim graph query).
Proof.
  intros Hgraph Hfile Hfm Hex Htags Htag Hform.
  assert (Hdata : In (Some n, edges)
                     (filter (fun data => match fst data with
                                          | Some _ => true
                                          | None => false
                                          end)
                             (map extractNodeFromFile (markdownFiles vault)))).
  { apply filter_In. split; [| reflexivity].
    apply in_map_iff. exists file. auto. }
  destruct (processVigVaultFiles_parts convertedGreaterThanZero vault)
    as [Hnodes Hedges]. cbv zeta in Hnodes, Hedges.
  unfold VigVaultParser.extractNodeFromFile in Hex. rewrite Hfm in Hex.
  destruct (extractNode (filePath file) frontmatter) as [[n' e']|] eqn:Hnode;
    [| discriminate].
  injection Hex as -> ->.
  destruct (extractNode_parts convertedGreaterThanZero _ _ _ _ Hnode)
    as [lr [lt [lg [lu [tagged [_ [_ [Hlg [_ [Htagged [Hname [_ Hparts]]]]]]]]]]]].
  assert (Hne : tags <> []) by (intros ->; destruct Htag).
  rewrite (loopsOver_filled _ _ _ _ Htags Hne Hlg) in Htagged.
  set (base := basename (filePath file) ".md") in *.
  set (stripped := if Str.startsWith "#" tag then Str.substringFrom 1 tag else tag) in *.
  pose (found := Graph.mkNode base (nodeType n) (metadata n)).
  assert (Hfound : BuildKnowledgeGraph.nodeRecord found = n).
  { destruct n as [nm ty md]. cbn [name] in Hname. subst nm. reflexivity. }
  assert (Hnode' : In (Graph.NodeItem found) graph).
  { apply (importedGraph_item vault graph
                              (BuildKnowledgeGraph.formatNode n) _ Hgraph).
    - unfold BuildKnowledgeGraph.graphData. apply in_or_app. left. apply in_map.
      rewrite Hnodes. apply in_or_app. left. apply In_definedNodes. eauto.
    - rewrite <- Hfound. apply readItem_node. }
  assert (Hedge : In (Graph.EdgeItem (Graph.mkEdge base stripped "tagged_with")) graph).
  { apply (importedGraph_item
             vault graph
             (BuildKnowledgeGraph.formatRelationship
                (BuildKnowledgeGraph.edgeRecord
                   (Graph.mkEdge base stripped "tagged_with"))) _ Hgraph).
    - unfold BuildKnowledgeGraph.graphData. apply in_or_app. right. apply in_map.
      rewrite Hedges. apply in_flat_map. exists (Some n, edges).
      split; [exact Hdata |]. cbn [snd]. rewrite Hparts, !in_app_iff.
      right. right. left. exact (tagEdges_complete _ _ _ _ Htagged Htag).
    - apply readItem_edge. }
  exists found. split; [exact Hfound |].
  apply hasForm_split in Hform. destruct Hform as [He [Hi [tail Ht]]].
  unfold QueryGraph.findNodes. rewrite He, Hi, Ht.
  cbn [String.eqb Ascii.eqb Bool.eqb orb].
  apply filter_In. split; [apply In_nodesOf; exact Hnode' |].
  apply existsb_exists. exists base. split; [| apply String.eqb_refl].
  apply in_map_iff. exists (Graph.mkEdge base stripped "tagged_with").
  split; [reflexivity |]. apply filter_In. split; [apply In_edgesOf; exact Hedge |].
  cbn [Graph.edgeType Graph.to]. rewrite !String.eqb_refl. reflexivity.
Qed.

End Search.

End ImporterRuns.

(** *** The importer on the example vaults *)

Section ImporterExamples.

Import VigVaultParser.

Lemma extractNodeFromFile_name_and_type_witness :
  (forall node edges,
      extractNodeFromFile
        noConversion
        (mkFile (PROJECTS_PATH ++ "/" ++ "forge" ++ ".md")
                (Some (JObj [("tags", JArr [JStr "#idea"])])))
      = (Some node, edges) ->
      name node = JStr "forge" /\ nodeType node = "project")
  /\ exists node edges,
      extractNodeFromFile
        noConversion
        (mkFile (PROJECTS_PATH ++ "/" ++ "forge" ++ ".md")
                (Some (JObj [("tags", JArr [JStr "#idea"])])))
      = (Some node, edges).
Proof.
  destruct (extractNodeFromFile_name_and_type
              noConversion PROJECTS_PATH "forge" (JObj [("tags", JArr [JStr "#idea"])]))
    as [Hshape Hexists].
  - right. right. reflexivity.
  - intros H. simpl in H. repeat destruct H as [H|H]; try discriminate; exact H.
  - discriminate.
  - split; [exact Hshape |]. apply Hexists.
    + reflexivity.
    + intros key v Hkey Hv. simpl in Hkey.
      repeat destruct Hkey as [<-|Hkey]; try contradiction;
        vm_compute in Hv; injection Hv as <-; reflexivity.
    + intros key v Hkey Hv. simpl in Hkey.
      repeat destruct Hkey as [<-|Hkey]; try contradiction;
        vm_compute in Hv; injection Hv as <-; reflexivity.
    + intros tags Hv. vm_compute in Hv. injection Hv as <-. reflexivity.
    + intros topics Hv. vm_compute in Hv. discriminate.
Defined.

Lemma processVigVaultFiles_topics_and_tags_witness :
  In (mkNode (JStr "Weaving") "topic" [])
     (nodes (processVigVaultFiles noConversion oddTagVault))
  /\ In (mkNode (JStr "craft") "tag" [])
        (nodes (processVigVaultFiles noConversion oddTagVault))
  /\ map name (nodes (processVigVaultFiles noConversion oddTagVault))
     = [JStr "Weaving"; JStr "craft"].
Proof.
  pose (fm := JObj [ ("tags", JArr [JStr "#craft"; JNum 2024; JStr "#late"]);
                     ("in", JArr [JStr "Weaving"]) ]).
  destruct (processVigVaultFiles_topics_and_tags
              noConversion oddTagVault
              (mkFile (KNOWLEDGE_BASE_PATH ++ "/loom.md") (Some fm)) fm)
    as [Htopic Htag]; [left; reflexivity | reflexivity |].
  split; [apply (Htopic [JStr "Weaving"]); [reflexivity | left; reflexivity] |].
  split; [| vm_compute; reflexivity].
  apply (Htag [JStr "Weaving"] [] "#craft" [JNum 2024; JStr "#late"]).
  - exists (JArr [JStr "Weaving"]). split; [reflexivity |]. left. split; reflexivity.
  - reflexivity.
  - reflexivity.
Defined.

Lemma processVigVaultFiles_node_origin_witness :
  exists file frontmatter,
    In file (markdownFiles forgeVault)
    /\ content file = Some frontmatter
    /\ ((JStr "forge" = JStr (basename (filePath file) ".md")
         /\ (exists tags,
                loopsOver noConversion frontmatter "tags" tags
                /\ forallb isString tags = true)
         /\ ("tag" = "project" \/ "tag" = "idea" \/ "tag" = "knowledge"))
        \/ (exists topics topic,
               getProp frontmatter "in" = Return (JArr topics)
               /\ In topic topics
               /\ mkNode (JStr "forge") "tag" [] = mkNode topic "topic" [])
        \/ (exists tags tag,
               getProp frontmatter "tags" = Return (JArr tags)
               /\ In (JStr tag) tags
               /\ mkNode (JStr "forge") "tag" []
                  = mkNode (JStr (if Str.startsWith "#" tag then Str.substringFrom 1 tag
                                  else tag)) "tag" [])).
Proof.
  apply (processVigVaultFiles_node_origin
           noConversion forgeVault (mkNode (JStr "forge") "tag" [])).
  vm_compute. right. left. reflexivity.
Defined.

Lemma processVigVaultFiles_link_targets_witness :
  exists file frontmatter links link,
    In file (markdownFiles forgeVault)
    /\ content file = Some frontmatter
    /\ getProp frontmatter "related" = Return (JArr links)
    /\ In (JStr link) links
    /\ JStr "Anvil" = JStr (Str.removeBrackets link)
    /\ Str.charFree "[" (Str.removeBrackets link)
    /\ Str.charFree "]" (Str.removeBrackets link).
Proof.
  apply (processVigVaultFiles_link_targets
           noConversion forgeVault (mkEdge "forge" (JStr "Anvil") "related_to")).
  - vm_compute. left. reflexivity.
  - left. reflexivity.
Defined.

Lemma findNodes_tag_of_imported_note_witness :
  SearchSpec.hasForm Str.asciiToLowerCase Str.asciiTrim "tag: Forge" "tag" "forge"
  /\ exists found,
      BuildKnowledgeGraph.nodeRecord found
      = mkNode (JStr "forge") "knowledge" ["Tags: #forge"]
      /\ In found
            (QueryGraph.findNodes
               Str.asciiToLowerCase Str.asciiTrim
               [ Graph.NodeItem (Graph.mkNode "forge" "knowledge" ["Tags: #forge"]);
                 Graph.NodeItem (Graph.mkNode "forge" "tag" []);
                 Graph.EdgeItem (Graph.mkEdge "forge" "Anvil" "related_to");
                 Graph.EdgeItem (Graph.mkEdge "forge" "forge" "tagged_with") ]
               "tag: Forge").
Proof.
  assert (Hform : SearchSpec.hasForm Str.asciiToLowerCase Str.asciiTrim
                                     "tag: Forge" "tag" "forge").
  { exists "tag", " Forge", "". split; [reflexivity |].
    split; [intros H; simpl in H; repeat destruct H as [H|H]; try discriminate; exact H |].
    split; [intros H; simpl in H; repeat destruct H as [H|H]; try discriminate; exact H |].
    split; [now left |]. split; reflexivity. }
  split; [exact Hform |].
  apply (findNodes_tag_of_imported_note
           noConversion Str.asciiToLowerCase Str.asciiTrim forgeVault _
           (mkFile (KNOWLEDGE_BASE_PATH ++ "/forge.md")
                   (Some (JObj [ ("tags", JArr [JStr "#forge"]);
                                 ("related", JArr [JStr "[[Anvil]]"]) ])))
           (JObj [ ("tags", JArr [JStr "#forge"]);
                   ("related", JArr [JStr "[[Anvil]]"]) ])
           (mkNode (JStr "forge") "knowledge" ["Tags: #forge"])
           [ mkEdge "forge" (JStr "Anvil") "related_to";
             mkEdge "forge" (JStr "forge") "tagged_with" ]
           [JStr "#forge"] "#forge" "tag: Forge").
  - vm_compute. reflexivity.
  - left. reflexivity.
  - reflexivity.
  - vm_compute. reflexivity.
  - reflexivity.
  - left. reflexivity.
  - exact Hform.
Defined.

(** A note that gives its tag and its parent as plain scalars is dropped,
    and its tag is no tag node: [join] and [forEach] are no methods of a
    string. *)
Example processVigVaultFiles_scalarFieldVault :
  extractNodeFromFile
    noConversion
    (mkFile (KNOWLEDGE_BASE_PATH ++ "/loom.md")
            (Some (JObj [("tags", JStr "craft"); ("up", JStr "Weaving")])))
  = (None, [])
  /\ nodes (processVigVaultFiles noConversion scalarFieldVault) = []
  /\ relationships (processVigVaultFiles noConversion scalarFieldVault) = [].
Proof. vm_compute. repeat split. Qed.

End ImporterExamples.

(** ** The explorer on the objects of the runtime *)

Section HeapFacts.

Import Graph Heap HeapQueryGraph.

Local Open Scope list_scope.

Lemma nth_error_extend (s new : Store) (r : nat) (o : Object) :
  nth_error s r = Some o -> nth_error (s ++ new) r = Some o.
Proof.
  intros H. rewrite nth_error_app1; [exact H |].
  apply nth_error_Some. congruence.
Qed.

Lemma nth_error_new (s : Store) (o : Object) :
  nth_error (s ++ [o]) (List.length s) = Some o.
Proof. rewrite nth_error_app2, Nat.sub_diag; [reflexivity | lia]. Qed.

Lemma points_extend (s new : Store) (refs : list nat) (items : list GraphItem) :
  points s refs items -> points (s ++ new) refs items.
Proof. induction 1; constructor; auto using nth_error_extend. Qed.

Lemma bind_run {A B : Type} (c : Run A) (k : A -> Run B) (s s' : Store) (a : A) :
  c s = Some (a, s') -> bind c k s = k a s'.
Proof. intros H. unfold bind. now rewrite H. Qed.

Lemma recordAt_run (s : Store) (r : nat) (item : GraphItem) :
  nth_error s r = Some (Record item) -> recordAt r s = Some (item, s).
Proof. intros H. unfold recordAt, bind, read. now rewrite H. Qed.

Lemma recordsAt_run (s : Store) (r : nat) (refs : list nat) :
  nth_error s r = Some (Records refs) -> recordsAt r s = Some (refs, s).
Proof. intros H. unfold recordsAt, bind, read. now rewrite H. Qed.

Lemma stringsAt_run (s : Store) (r : nat) (l : list string) :
  nth_error s r = Some (Strings l) -> stringsAt r s = Some (l, s).
Proof. intros H. unfold stringsAt, bind, read. now rewrite H. Qed.

Lemma test_run (p : GraphItem -> bool) (s : Store) (r : nat) (item : GraphItem) :
  nth_error s r = Some (Record item) -> test p r s = Some (p item, s).
Proof. intros H. unfold test. now rewrite (bind_run _ _ _ _ _ (recordAt_run _ _ _ H)). Qed.

(** A [filter] whose callback only reads keeps the references of the
    records that pass, and leaves the store as it is. *)
Lemma keepEach_run (keep : nat -> Run bool) (p : GraphItem -> bool) (s : Store)
      (refs : list nat) (items : list GraphItem) :
  points s refs items ->
  (forall r item, nth_error s r = Some (Record item) -> keep r s = Some (p item, s)) ->
  keepEach keep refs s = Some (select p refs items, s).
Proof.
  intros Hpoints Hkeep.
  induction Hpoints as [|r item refs items Hr _ IH]; [reflexivity |].
  cbn [keepEach select].
  rewrite (bind_run _ _ _ _ _ (Hkeep r item Hr)), (bind_run _ _ _ _ _ IH).
  unfold ret. now destruct (p item).
Qed.

Lemma select_points (p : GraphItem -> bool) (s : Store)
      (refs : list nat) (items : list GraphItem) :
  points s refs items -> points s (select p refs items) (filter p items).
Proof.
  induction 1 as [|r item refs items Hr _ IH]; [constructor |].
  cbn [select filter]. destruct (p item); [constructor |]; assumption.
Qed.

Lemma select_select (p q : GraphItem -> bool) (refs : list nat) (items : list GraphItem) :
  select q (select p refs items) (filter p items)
  = select (fun x => p x && q x) refs items.
Proof.
  revert items. induction refs as [|r refs IH]; intros [|item items]; try reflexivity.
  cbn [select filter]. destruct (p item); cbn [select andb]; now rewrite IH.
Qed.

Lemma arrayFilter_run (keep : nat -> Run bool) (p : GraphItem -> bool) (s : Store)
      (array : nat) (refs : list nat) (items : list GraphItem) :
  nth_error s array = Some (Records refs) ->
  points s refs items ->
  (forall r item, nth_error s r = Some (Record item) -> keep r s = Some (p item, s)) ->
  arrayFilter keep array s
  = Some (List.length s, s ++ [Records (select p refs items)]).
Proof.
  intros Harray Hpoints Hkeep. unfold arrayFilter.
  rewrite (bind_run _ _ _ _ _ (recordsAt_run _ _ _ Harray)).
  now rewrite (bind_run _ _ _ _ _ (keepEach_run _ _ _ _ _ Hpoints Hkeep)).
Qed.

Lemma fromEach_run (s : Store) (refs : list nat) (edges : list Edge) :
  points s refs (map EdgeItem edges) ->
  fromEach refs s = Some (map from edges, s).
Proof.
  revert refs. induction edges as [|edge edges IH]; intros refs H;
    inversion H as [|r item refs' items' Hr Hrest]; subst.
  - reflexivity.
  - cbn [fromEach map].
    rewrite (bind_run _ _ _ _ _ (recordAt_run _ _ _ Hr)).
    now rewrite (bind_run _ _ _ _ _ (IH _ Hrest)).
Qed.

Lemma filter_atNode (p : Node -> bool) (items : list GraphItem) :
  filter (atNode p) items = map NodeItem (filter p (nodesOf items)).
Proof.
  induction items as [|[n|e] items IH]; cbn [filter atNode nodesOf]; [reflexivity | |exact IH].
  destruct (p n); cbn [map]; now rewrite IH.
Qed.

Lemma filter_atEdge (p : Edge -> bool) (items : list GraphItem) :
  filter (atEdge p) items = map EdgeItem (filter p (edgesOf items)).
Proof.
  induction items as [|[n|e] items IH]; cbn [filter atEdge edgesOf]; [reflexivity |exact IH |].
  destruct (p e); cbn [map]; now rewrite IH.
Qed.

Lemma filter_nodes_only (p : Node -> bool) (items : list GraphItem) :
  filter (fun x => atNode (fun _ => true) x && atNode p x) items
  = map NodeItem (filter p (nodesOf items)).
Proof.
  rewrite <- filter_atNode. apply filter_ext. intros [n|e]; reflexivity.
Qed.

Lemma existsb_nodup (f : string -> bool) (l : list string) :
  existsb f (nodup string_dec l) = existsb f l.
Proof.
  apply Bool.eq_iff_eq_true. rewrite !existsb_exists.
  split; intros [x [Hin Hx]]; exists x; split; try exact Hx;
    now apply (nodup_In string_dec).
Qed.

End HeapFacts.

Section SearchRuns.

Import Graph Heap HeapQueryGraph.

Local Open Scope list_scope.

Variables toLowerCase trim : string -> string.

Local Abbreviation everyNode := (atNode (fun _ => true)).

Lemma alloc_run (o : Object) (s : Store) :
  alloc o s = Some (List.length s, s ++ [o]).
Proof. reflexivity. Qed.

Lemma arrayMap_run (f : string -> string) (s : Store) (array : nat) (l : list string) :
  nth_error s array = Some (Strings l) ->
  arrayMap f array s = Some (List.length s, s ++ [Strings (map f l)]).
Proof.
  intros H. unfold arrayMap. now rewrite (bind_run _ _ _ _ _ (stringsAt_run _ _ _ H)).
Qed.

Lemma newSet_run (s : Store) (array : nat) (l : list string) :
  nth_error s array = Some (Strings l) ->
  newSet array s = Some (List.length s, s ++ [Strings (nodup string_dec l)]).
Proof.
  intros H. unfold newSet. now rewrite (bind_run _ _ _ _ _ (stringsAt_run _ _ _ H)).
Qed.

Lemma edgeSources_run (s : Store) (array : nat) (refs : list nat) (edges : list Edge) :
  nth_error s array = Some (Records refs) ->
  points s refs (map EdgeItem edges) ->
  edgeSources array s = Some (List.length s, s ++ [Strings (map from edges)]).
Proof.
  intros Harray Hpoints. unfold edgeSources.
  rewrite (bind_run _ _ _ _ _ (recordsAt_run _ _ _ Harray)).
  now rewrite (bind_run _ _ _ _ _ (fromEach_run _ _ _ Hpoints)).
Qed.

(** The array of the nodes, made first, is the [List.length s]-th object from
    then on. *)
Lemma nodes_at (s new : Store) (o : Object) :
  nth_error (s ++ o :: new) (List.length s) = Some o.
Proof. rewrite nth_error_app2, Nat.sub_diag; [reflexivity | lia]. Qed.

(** A second [filter], over the array of the nodes. *)
Lemma nodes_filter_run (keep : nat -> Run bool) (p : GraphItem -> bool)
      (s new : Store) (refs : list nat) (items : list GraphItem) :
  points s refs items ->
  (forall r item,
      nth_error (s ++ Records (select everyNode refs items) :: new) r
      = Some (Record item) ->
      keep r (s ++ Records (select everyNode refs items) :: new)
      = Some (p item, s ++ Records (select everyNode refs items) :: new)) ->
  arrayFilter keep (List.length s) (s ++ Records (select everyNode refs items) :: new)
  = Some (List.length (s ++ Records (select everyNode refs items) :: new),
          (s ++ Records (select everyNode refs items) :: new)
          ++ [Records (select (fun x => everyNode x && p x) refs items)]).
Proof.
  intros Hpoints Hkeep. rewrite <- select_select.
  apply arrayFilter_run; [apply nodes_at | | exact Hkeep].
  apply points_extend, select_points, Hpoints.
Qed.

Lemma generalSearch_run (refs : list nat) (items : list GraphItem) (query : string) :
  exists keep,
    filter keep items
    = map NodeItem (QueryGraph.generalSearch toLowerCase (nodesOf items) query)
    /\ forall s new,
        points s refs items ->
        generalSearch toLowerCase (List.length s) query
                      (s ++ Records (select everyNode refs items) :: new)
        = Some (List.length (s ++ Records (select everyNode refs items) :: new),
                (s ++ Records (select everyNode refs items) :: new)
                ++ [Records (select keep refs items)]).
Proof.
  eexists. split.
  - unfold QueryGraph.generalSearch. apply filter_nodes_only.
  - intros s new Hpoints. unfold generalSearch.
    apply nodes_filter_run; [exact Hpoints |].
    intros r item Hr. apply test_run, Hr.
Qed.

End SearchRuns.

(** The steps of [findNodes] up to the destructuring of the parts of the
    query. *)
Ltac run_prefix Hfirst Hlow s Hs :=
  rewrite (bind_run _ _ _ _ _ (Hfirst s Hs)),
          (bind_run _ _ _ _ _ (alloc_run _ _)),
          (bind_run _ _ _ _ _ (arrayMap_run _ _ _ _ (nth_error_new _ _))),
          (bind_run _ _ _ _ _ (stringsAt_run _ _ _ (nth_error_new _ _))),
          Hlow;
  rewrite <- !app_assoc; cbn [app].

Section SearchStability.

Import Graph Heap HeapQueryGraph.

Local Open Scope list_scope.

Variables toLowerCase trim : string -> string.

Local Abbreviation everyNode := (atNode (fun _ => true)).

(** The run of a search from a store that holds the graph: the array it
    returns holds the references of the records that pass a test, and the
    test depends on the records and on the query only. *)
Lemma findNodes_run (graph : nat) (refs : list nat) (items : list GraphItem)
      (query : string) :
  exists keep,
    filter keep items
    = map NodeItem (QueryGraph.findNodes toLowerCase trim items query)
    /\ forall s,
        holds s graph refs items ->
        exists found new,
          findNodes toLowerCase trim graph query s = Some (found, s ++ new)
          /\ nth_error (s ++ new) found = Some (Records (select keep refs items)).
Proof.
  assert (Hfirst : forall s,
             holds s graph refs items ->
             arrayFilter (test everyNode) graph s
             = Some (List.length s, s ++ [Records (select everyNode refs items)])).
  { intros s [Hgraph Hpoints].
    apply (arrayFilter_run _ _ _ _ _ _ Hgraph Hpoints).
    intros r item Hr. apply test_run, Hr. }
  assert (Hlater : forall (s after new : Store) (found : nat) (o : Object),
             after = s ++ new ->
             found = List.length after ->
             exists new',
               after ++ [o] = s ++ new' /\ nth_error (s ++ new') found = Some o).
  { intros s after new found o -> ->. exists (new ++ [o]).
    rewrite app_assoc. split; [reflexivity | apply nth_error_new]. }
  assert (Hreturn : forall (s after new : Store) (o : Object) (run : Run nat),
             after = s ++ new ->
             run after = Some (List.length after, after ++ [o]) ->
             exists found new',
               run after = Some (found, s ++ new')
               /\ nth_error (s ++ new') found = Some o).
  { intros s after new o run Hafter Hrun.
    destruct (Hlater s after new (List.length after) o Hafter eq_refl) as [new' [E Hnth]].
    exists (List.length after), new'. rewrite Hrun, E. auto. }
  destruct (generalSearch_run toLowerCase refs items query) as [general [Hgeneral Hrun]].
  unfold QueryGraph.findNodes, findNodes.
  destruct (Str.isEmpty query).
  { exists everyNode. split.
    - rewrite filter_atNode. f_equal. apply filter_everything.
    - intros s Hs. rewrite (bind_run _ _ _ _ _ (Hfirst s Hs)). unfold ret.
      exists (List.length s), [Records (select everyNode refs items)].
      split; [reflexivity | apply nth_error_new]. }
  destruct (Str.includes ":" query).
  2:{ exists general. split; [exact Hgeneral |].
      intros s Hs. rewrite (bind_run _ _ _ _ _ (Hfirst s Hs)).
      apply (Hreturn s _ [Records (select everyNode refs items)]);
        [reflexivity |]. apply (Hrun s []), Hs. }
  destruct (map (fun part => toLowerCase (trim part)) (Str.split ":" query))
    as [|field [|value rest]] eqn:Hlow.
  1, 2: exists general; (split; [exact Hgeneral |]); intros s Hs; run_prefix Hfirst Hlow s Hs;
    (eapply (Hreturn s);
     [reflexivity |]); apply Hrun, Hs.
  destruct ((field =? "type") || (field =? "nodetype")) eqn:Htype.
  { eexists. split; [apply filter_nodes_only |].
    intros s Hs. run_prefix Hfirst Hlow s Hs. rewrite Htype.
    eapply (Hreturn s);
      [reflexivity |].
    apply nodes_filter_run; [apply Hs |].
    intros r item Hr. apply test_run, Hr. }
  destruct (field =? "tag") eqn:Htag.
  2:{ exists general. split; [exact Hgeneral |]. intros s Hs. run_prefix Hfirst Hlow s Hs.
      rewrite Htype, Htag.
      eapply (Hreturn s);
        [reflexivity |]. apply Hrun, Hs. }
  set (tagged := fun item : Edge =>
                   (edgeType item =? "tagged_with") && (toLowerCase (to item) =? value)).
  set (names := map from (filter tagged (edgesOf items))).
  exists (fun x => everyNode x
                   && atNode (fun node =>
                                existsb (String.eqb (name node))
                                        (nodup string_dec names)) x).
  split.
  { rewrite filter_nodes_only. cbv zeta. f_equal. apply filter_ext.
    intros node. apply existsb_nodup. }
  intros s Hs. run_prefix Hfirst Hlow s Hs. rewrite Htype, Htag.
  set (s3 := s ++ Records (select everyNode refs items) :: _).
  assert (Hs3 : holds s3 graph refs items).
  { destruct Hs as [Hgraph Hpoints].
    split; [apply nth_error_extend, Hgraph | apply points_extend, Hpoints]. }
  assert (Hedges : arrayFilter (test (atEdge tagged)) graph s3
                   = Some (List.length s3,
                           s3 ++ [Records (select (atEdge tagged) refs items)])).
  { apply (arrayFilter_run _ _ _ _ _ _ (proj1 Hs3) (proj2 Hs3)).
    intros r item Hr. apply test_run, Hr. }
  rewrite (bind_run _ _ _ _ _ Hedges).
  assert (Hsources : edgeSources (List.length s3)
                                 (s3 ++ [Records (select (atEdge tagged) refs items)])
                     = Some (List.length
                               (s3 ++ [Records (select (atEdge tagged) refs items)]),
                             (s3 ++ [Records (select (atEdge tagged) refs items)])
                             ++ [Strings names])).
  { apply (edgeSources_run _ _ _ _ (nth_error_new _ _)).
    rewrite <- filter_atEdge. apply points_extend, select_points, Hs3. }
  rewrite (bind_run _ _ _ _ _ Hsources).
  rewrite (bind_run _ _ _ _ _ (newSet_run _ _ _ (nth_error_new _ _))).
  unfold s3. rewrite <- !app_assoc. cbn [app].
  match goal with
  | |- context [arrayFilter _ _ (s ++ Records _ :: ?new)] =>
      eapply (Hreturn s);
        [reflexivity |];
        apply (nodes_filter_run _ _ s new); [apply Hs |]
  end.
  intros r item Hr. rewrite (bind_run _ _ _ _ _ (recordAt_run _ _ _ Hr)).
  destruct item as [node|edge]; [| reflexivity].
  unfold has.
  assert (Hset : forall new', nth_error (s ++ new' ++ [Strings (nodup string_dec names)])
                                        (List.length (s ++ new'))
                              = Some (Strings (nodup string_dec names))).
  { intros new'. rewrite app_assoc. apply nth_error_new. }
  match goal with
  | |- context [s ++ ?a :: ?b :: ?c :: ?d :: ?e :: [Strings ?set]] =>
      pose proof (Hset [a; b; c; d; e]) as Hnames
  end.
  cbn [app] in Hnames.
  rewrite (bind_run _ _ _ _ _ (stringsAt_run _ _ _ Hnames)). reflexivity.
Qed.

(** **** C8: search stability.  From a store that holds the graph, a
    search returns an array of references to the records that the search of
    the graph selects, and writes to no object that was there: the store
    still holds the graph.  A search with the same query from any store that
    holds the same graph at the same references, so the one the first search
    left or any later one in which the graph was not changed, returns an
    array of the same references in the same order: the same objects, and not
    only equal records. *)
Theorem search_stability (s : Store) (graph : nat) (refs : list nat)
        (items : list GraphItem) (query : string) :
  holds s graph refs items ->
  exists found after nodes,
    findNodes toLowerCase trim graph query s = Some (found, after)
    /\ nth_error after found = Some (Records nodes)
    /\ points after nodes
              (map NodeItem (QueryGraph.findNodes toLowerCase trim items query))
    /\ (forall r o, nth_error s r = Some o -> nth_error after r = Some o)
    /\ holds after graph refs items
    /\ forall s',
        holds s' graph refs items ->
        exists found' after',
          findNodes toLowerCase trim graph query s' = Some (found', after')
          /\ nth_error after' found' = Some (Records nodes).
Proof.
  intros Hs.
  destruct (findNodes_run graph refs items query) as [keep [Hkeep Hrun]].
  destruct (Hrun s Hs) as [found [new [Hfound Hnodes]]].
  exists found, (s ++ new), (select keep refs items).
  split; [exact Hfound |]. split; [exact Hnodes |].
  split; [rewrite <- Hkeep; apply points_extend, select_points, Hs |].
  split; [intros r o; apply nth_error_extend |].
  split.
  - destruct Hs as [Hgraph Hpoints].
    split; [apply nth_error_extend, Hgraph | apply points_extend, Hpoints].
  - intros s' Hs'. destruct (Hrun s' Hs') as [found' [new' [Hfound' Hnodes']]].
    exists found', (s' ++ new'). auto.
Qed.

End SearchStability.

(** The search [type:npc] in the store of the town: the two records of
    Garrick, which are equal, are two objects, and both are found. *)
Example findNodes_townStore :
  exists after,
    HeapQueryGraph.findNodes Str.asciiToLowerCase Str.asciiTrim 4 "type:npc" townStore
    = Some (8%nat, after)
    /\ nth_error after 8 = Some (Heap.Records [0; 3]%nat)
    /\ firstn 5 after = townStore.
Proof. eexists. split; [vm_compute; reflexivity |]. split; reflexivity. Qed.

Lemma search_stability_witness :
  HeapQueryGraph.holds
    townStore 4 [0; 1; 2; 3]%nat
    [ Graph.NodeItem garrick; Graph.NodeItem tavern;
      Graph.EdgeItem (Graph.mkEdge "Garrick" "Smiths" "tagged_with");
      Graph.NodeItem garrick ]
  /\ exists found after nodes,
      HeapQueryGraph.findNodes Str.asciiToLowerCase Str.asciiTrim 4 "tag:smiths" townStore
      = Some (found, after)
      /\ nth_error after found = Some (Heap.Records nodes)
      /\ nodes = [0; 3]%nat
      /\ exists found' after',
          HeapQueryGraph.findNodes Str.asciiToLowerCase Str.asciiTrim 4 "tag:smiths" after
          = Some (found', after')
          /\ nth_error after' found' = Some (Heap.Records nodes).
Proof.
  assert (Hholds : HeapQueryGraph.holds
                     townStore 4 [0; 1; 2; 3]%nat
                     [ Graph.NodeItem garrick; Graph.NodeItem tavern;
                       Graph.EdgeItem (Graph.mkEdge "Garrick" "Smiths" "tagged_with");
                       Graph.NodeItem garrick ]).
  { split; [reflexivity | repeat constructor]. }
  split; [exact Hholds |].
  destruct (search_stability Str.asciiToLowerCase Str.asciiTrim
                             townStore 4 _ _ "tag:smiths" Hholds)
    as [found [after [nodes [Hrun [Hnodes [Hpoints [_ [Hafter Hagain]]]]]]]].
  exists found, after, nodes.
  split; [exact Hrun |]. split; [exact Hnodes |]. split; [| exact (Hagain after Hafter)].
  vm_compute in Hrun. injection Hrun as <- <-. vm_compute in Hnodes.
  now injection Hnodes as <-.
Defined.
